(** * Portable File Dialogs: the process executor and the helper-program
      command assembly of [portable-file-dialogs.h]

    The development embeds the build of the header for the platforms that
    spawn a helper program (the [#else] branches of [#if _WIN32]): the
    [executor] class with its [popen]/[read]/[pclose] life cycle, the
    process-wide flags of [dialog], the two quoting functions and the
    constructors of [notify], [message] and [file_dialog].

    Conventions.
    - A [std::string] is a [string]; the character NUL is ["000"%char].
    - An [int] is a [Z]; no arithmetic is performed on the [int]s of the
      modelled code, so no wrap-around arises.
    - The operating system is an explicit [world] that every operation
      threads through: the table of open [popen] streams, the oracle that
      decides what [popen] does with a command line, and the chronological
      trace of the system calls made so far.
    - The [while (!ready())] loop of [stop] may spin forever on a child that
      never closes its output; [stop] and everything that calls it take a
      bound on the number of iterations and return [None] when it is
      exceeded. *)

From Stdlib Require Import String Ascii ZArith List Bool Lia.
From stdpp Require Import base option list gmap strings.

Open Scope Z_scope.

(** String concatenation unfolds on a constructor, as [app] on lists. *)
#[local] Arguments String.append !s1 s2 : simpl nomatch.

(** ** Strings *)

Module Str.

(** The characters the sources write as escapes. *)
Definition nul : ascii := "000"%char.
Definition newline : ascii := "010"%char.
Definition dquote : ascii := "034"%char.
Definition squote : ascii := "'"%char.
Definition backslash : ascii := "\"%char.
Definition dollar : ascii := "$"%char.
Definition ampersand : ascii := "&"%char.

(** [s.c_str()] read back as a C string: the characters before the first
    NUL. *)
Fixpoint c_str (s : string) : string :=
  match s with
  | EmptyString => EmptyString
  | String c rest => if Ascii.eqb c nul then EmptyString else String c (c_str rest)
  end.

(** [prefixb p s]: [s] starts with [p]. *)
Fixpoint prefixb (p s : string) : bool :=
  match p, s with
  | EmptyString, _ => true
  | String a p', String b s' => Ascii.eqb a b && prefixb p' s'
  | String _ _, EmptyString => false
  end.

(** [containsb needle hay]: [needle] occurs in [hay] as a contiguous
    substring ([hay.find(needle) != npos]). *)
Fixpoint containsb (needle hay : string) : bool :=
  prefixb needle hay ||
  match hay with
  | EmptyString => false
  | String _ hay' => containsb needle hay'
  end.

Definition contains (needle hay : string) : Prop :=
  exists pre post, hay = pre +:+ needle +:+ post.

(** [occursb c s]: the character [c] occurs in [s]. *)
Fixpoint occursb (c : ascii) (s : string) : bool :=
  match s with
  | EmptyString => false
  | String x s' => Ascii.eqb c x || occursb c s'
  end.

(** Expansion of an ECMAScript replacement format for a match [m]:
    [$&] is the matched text, [$$] a dollar sign, anything else is
    copied. (The formats of this program use no other [$] escape.) *)
Fixpoint expand_format (fmt m : string) : string :=
  match fmt with
  | EmptyString => EmptyString
  | String c rest =>
      if Ascii.eqb c dollar then
        match rest with
        | String d rest' =>
            if Ascii.eqb d ampersand then m +:+ expand_format rest' m
            else if Ascii.eqb d dollar then String dollar (expand_format rest' m)
            else String c (expand_format rest m)
        | EmptyString => String c EmptyString
        end
      else String c (expand_format rest m)
  end.

(** [std::regex_replace(str, std::regex(re), fmt)] for a regular
    expression [re] that matches exactly the single characters of a
    class [cls] (the single quote, and the class of the two quotes, in
    this program): every match is
    replaced by the expanded format, every other character is copied. *)
Fixpoint regex_replace (str : string) (cls : ascii -> bool) (fmt : string) : string :=
  match str with
  | EmptyString => EmptyString
  | String c rest =>
      (if cls c then expand_format fmt (String c EmptyString) else String c EmptyString)
      +:+ regex_replace rest cls fmt
  end.

End Str.

(** ** The public enumerations *)

Inductive buttons := ok | ok_cancel | yes_no | yes_no_cancel.

Inductive icon := info | warning | error | question.

Definition buttons_eqb (a b : buttons) : bool :=
  match a, b with
  | ok, ok | ok_cancel, ok_cancel | yes_no, yes_no | yes_no_cancel, yes_no_cancel => true
  | _, _ => false
  end.

Definition icon_eqb (a b : icon) : bool :=
  match a, b with
  | info, info | warning, warning | error, error | question, question => true
  | _, _ => false
  end.

(** ** The static array of flags of [dialog] *)

Module Static.

(** [enum class flag] without its sentinel [max_flag]: the valid indices
    of the array. *)
Inductive flag := is_verbose | has_zenity | has_matedialog | has_qarma | has_kdialog.

(** [static bool flags[(size_t)flag::max_flag]]: one boolean per
    enumerator. *)
Record flag_array := Flags {
  f_is_verbose : bool;
  f_has_zenity : bool;
  f_has_matedialog : bool;
  f_has_qarma : bool;
  f_has_kdialog : bool;
}.

(** Static storage is zero-initialised. *)
Definition zeroed : flag_array := Flags false false false false false.

(** [flags[(size_t)in_flag]] read and written. *)
Definition get (f : flag) (a : flag_array) : bool :=
  match f with
  | is_verbose => f_is_verbose a
  | has_zenity => f_has_zenity a
  | has_matedialog => f_has_matedialog a
  | has_qarma => f_has_qarma a
  | has_kdialog => f_has_kdialog a
  end.

Definition set (f : flag) (v : bool) (a : flag_array) : flag_array :=
  match f with
  | is_verbose => Flags v (f_has_zenity a) (f_has_matedialog a) (f_has_qarma a) (f_has_kdialog a)
  | has_zenity => Flags (f_is_verbose a) v (f_has_matedialog a) (f_has_qarma a) (f_has_kdialog a)
  | has_matedialog => Flags (f_is_verbose a) (f_has_zenity a) v (f_has_qarma a) (f_has_kdialog a)
  | has_qarma => Flags (f_is_verbose a) (f_has_zenity a) (f_has_matedialog a) v (f_has_kdialog a)
  | has_kdialog => Flags (f_is_verbose a) (f_has_zenity a) (f_has_matedialog a) (f_has_qarma a) v
  end.

End Static.

(** ** The operating system *)

Module OS.

(** A [FILE*] returned by [popen]; [fileno] of the stream [h] is the
    descriptor [Z.of_nat h]. *)
Abbreviation handle := nat (only parsing).

Definition EAGAIN : Z := 11.
Definition EBADF : Z := 9.

(** What one call of [read(fd, buf, BUFSIZ - 1)] can do: deliver the
    bytes [buf] (the kernel delivers between 1 and [BUFSIZ - 1] of them),
    report the end of the stream, or fail with an [errno]. *)
Inductive read_outcome :=
| read_data (buf : string)
| read_eof
| read_fail (errno : Z).

(** The value [read] returns and the [errno] it leaves. *)
Definition received (r : read_outcome) : Z :=
  match r with
  | read_data buf => Z.of_nat (String.length buf)
  | read_eof => 0
  | read_fail _ => -1
  end.

Definition errno_of (r : read_outcome) : Z :=
  match r with
  | read_fail e => e
  | _ => 0
  end.

Definition buf_of (r : read_outcome) : string :=
  match r with
  | read_data buf => buf
  | _ => EmptyString
  end.

(** A child process seen through its pipe: the outcomes of the reads
    still to come, what happens once they are used up (a child that
    [hangs] keeps the pipe open and silent, another one has closed it),
    and the value [pclose] will return for it. *)
Record child := Child {
  pending : list read_outcome;
  hangs : bool;
  wait_status : Z;
}.

Inductive event :=
| ev_popen (command : string) (stream : option handle)
| ev_read (fd : Z) (r : read_outcome)
| ev_sleep (ms : Z)
| ev_pclose (stream : option handle) (status : Z)
| ev_cerr (line : string).

(** The state of the process and of its environment: the open [popen]
    streams, the next fresh stream, the oracle [spawn] (what [popen]
    does with a command line: [None] when the launch fails), the trace
    of the calls made, and the two function-local statics of [dialog]:
    the array [flags] and the boolean [analysed]. *)
Record world := World {
  procs : gmap handle child;
  next_stream : handle;
  spawn : string -> option child;
  trace : list event;
  static_flags : Static.flag_array;
  analysed : bool;
}.

Definition with_procs (p : gmap handle child) (w : world) : world :=
  World p (next_stream w) (spawn w) (trace w) (static_flags w) (analysed w).

Definition with_next_stream (n : handle) (w : world) : world :=
  World (procs w) n (spawn w) (trace w) (static_flags w) (analysed w).

Definition with_static_flags (f : Static.flag_array) (w : world) : world :=
  World (procs w) (next_stream w) (spawn w) (trace w) f (analysed w).

Definition with_analysed (b : bool) (w : world) : world :=
  World (procs w) (next_stream w) (spawn w) (trace w) (static_flags w) b.

Definition log (ev : event) (w : world) : world :=
  World (procs w) (next_stream w) (spawn w) (trace w ++ [ev]) (static_flags w) (analysed w).

(** [popen(command.c_str(), "r")]. *)
Definition popen (command : string) (w : world) : world * option handle :=
  match spawn w (Str.c_str command) with
  | None => (log (ev_popen (Str.c_str command) None) w, None)
  | Some c =>
      let h := next_stream w in
      (log (ev_popen (Str.c_str command) (Some h))
           (with_next_stream (S h) (with_procs (<[h := c]> (procs w)) w)),
       Some h)
  end.

Definition fileno (stream : handle) : Z := Z.of_nat stream.

(** The child behind a descriptor. *)
Definition child_of_fd (fd : Z) (w : world) : option (handle * child) :=
  if fd <? 0 then None
  else match procs w !! Z.to_nat fd with
       | Some c => Some (Z.to_nat fd, c)
       | None => None
       end.

(** One non-blocking [read] on a descriptor. *)
Definition read (fd : Z) (w : world) : world * read_outcome :=
  match child_of_fd fd w with
  | None => (log (ev_read fd (read_fail EBADF)) w, read_fail EBADF)
  | Some (h, c) =>
      match pending c with
      | r :: rest =>
          (log (ev_read fd r)
               (with_procs (<[h := Child rest (hangs c) (wait_status c)]> (procs w)) w), r)
      | [] =>
          let r := if hangs c then read_fail EAGAIN else read_eof in
          (log (ev_read fd r) w, r)
      end
  end.

(** [pclose(stream)]: the stream leaves the table and the status of the
    child is returned; [-1] for a stream that is not open. (The program
    calls it once [read] has reported the end of the stream or an error;
    the wait for the child to exit is not modelled.) *)
Definition pclose (stream : option handle) (w : world) : world * Z :=
  match stream with
  | Some h =>
      match procs w !! h with
      | Some c => (log (ev_pclose stream (wait_status c)) (with_procs (delete h (procs w)) w),
                   wait_status c)
      | None => (log (ev_pclose stream (-1)) w, -1)
      end
  | None => (log (ev_pclose stream (-1)) w, -1)
  end.

(** [std::this_thread::sleep_for(std::chrono::milliseconds(ms))]. *)
Definition sleep_for (ms : Z) (w : world) : world := log (ev_sleep ms) w.

(** [std::cerr << ... << std::endl]. *)
Definition cerr (line : string) (w : world) : world := log (ev_cerr line) w.

End OS.

(** ** The executor *)

Module Executor.
Import OS.

(** [enum class state { idle, running, finished }]. *)
Inductive state := idle | running | finished.

Definition state_eqb (a b : state) : bool :=
  match a, b with
  | idle, idle | running, running | finished, finished => true
  | _, _ => false
  end.

(** The data members of [executor]; [m_stream = None] is [nullptr]. *)
Record executor := Build {
  m_state : state;
  m_result : string;
  m_exit_code : Z;
  m_stream : option handle;
  m_fd : Z;
}.

(** [executor() = default]: the default member initialisers. *)
Definition default : executor := Build idle EmptyString (-1) None (-1).

Definition set_state (s : state) (e : executor) : executor :=
  Build s (m_result e) (m_exit_code e) (m_stream e) (m_fd e).

Definition set_result (r : string) (e : executor) : executor :=
  Build (m_state e) r (m_exit_code e) (m_stream e) (m_fd e).

Definition set_exit_code (c : Z) (e : executor) : executor :=
  Build (m_state e) (m_result e) c (m_stream e) (m_fd e).

Definition set_stream (s : option handle) (e : executor) : executor :=
  Build (m_state e) (m_result e) (m_exit_code e) s (m_fd e).

Definition set_fd (fd : Z) (e : executor) : executor :=
  Build (m_state e) (m_result e) (m_exit_code e) (m_stream e) fd.

(** [bool ready()]. The bytes received are NUL-terminated in [buf] and
    appended with [m_result += buf], which appends a C string. *)
Definition ready (e : executor) (w : world) : world * executor * bool :=
  if negb (state_eqb (m_state e) running) then (w, e, true)
  else
    let '(w1, r) := read (m_fd e) w in
    if (received r =? -1) && (errno_of r =? EAGAIN) then (w1, e, false)
    else if 0 <? received r then
      (w1, set_result (m_result e +:+ Str.c_str (buf_of r)) e, false)
    else (w1, set_state finished e, true).

(** [while (!ready()) sleep_for(200ms);] with at most [fuel] calls of
    [ready]. *)
Fixpoint stop_loop (fuel : nat) (e : executor) (w : world) : option (world * executor) :=
  match fuel with
  | O => None
  | S fuel' =>
      let '(w1, e1, r) := ready e w in
      if r then Some (w1, e1)
      else stop_loop fuel' e1 (sleep_for 200 w1)
  end.

(** [void stop()]. *)
Definition stop (fuel : nat) (e : executor) (w : world) : option (world * executor) :=
  if state_eqb (m_state e) idle then Some (w, e)
  else
    match stop_loop fuel e w with
    | None => None
    | Some (w1, e1) =>
        let '(w2, status) := pclose (m_stream e1) w1 in
        Some (w2, set_state idle (set_exit_code status e1))
    end.

(** The part of [start] after [stop()]. *)
Definition launch (command : string) (e : executor) (w : world) : world * executor :=
  let e1 := set_exit_code (-1) (set_result EmptyString e) in
  let '(w1, stream) := popen command w in
  let e2 := set_stream stream e1 in
  match stream with
  | None => (w1, e2)
  | Some h => (w1, set_state running (set_fd (fileno h) e2))
  end.

(** [void start(std::string const &command)]. *)
Definition start (fuel : nat) (command : string) (e : executor) (w : world)
  : option (world * executor) :=
  match stop fuel e w with
  | None => None
  | Some (w1, e1) => Some (launch command e1 w1)
  end.

(** [std::string result(int *exit_code = nullptr)]. The out-parameter is
    the caller's variable: [None] for a null pointer, otherwise its
    current value; its value after the call is returned with the text. *)
Definition result (fuel : nat) (exit_code : option Z) (e : executor) (w : world)
  : option (world * executor * string * option Z) :=
  match stop fuel e w with
  | None => None
  | Some (w1, e1) =>
      Some (w1, e1, m_result e1,
            match exit_code with
            | Some _ => Some (m_exit_code e1)
            | None => None
            end)
  end.

(** [executor(std::string const &command)]. *)
Definition construct (fuel : nat) (command : string) (w : world) : option (world * executor) :=
  start fuel command default w.

(** [~executor()]. *)
Definition destroy (fuel : nat) (e : executor) (w : world) : option world :=
  match stop fuel e w with
  | None => None
  | Some (w1, _) => Some w1
  end.

End Executor.

(** ** The dialog base class *)

Module Dialog.
Import OS Static.

(** The only data member of [dialog]. *)
Record dialog := Build { m_async : Executor.executor }.

(** [bool const &flags(flag in_flag) const] and its non-const twin. *)
Definition flags (f : flag) (w : world) : bool := get f (static_flags w).

Definition set_flags (f : flag) (v : bool) (w : world) : world :=
  with_static_flags (set f v (static_flags w)) w.

(** [bool is_zenity() const] and [bool is_kdialog() const]. *)
Definition is_zenity (w : world) : bool :=
  flags has_zenity w || flags has_matedialog w || flags has_qarma w.

Definition is_kdialog (w : world) : bool := flags has_kdialog w.

(** [std::string execute(std::string const &command, int *exit_code)]:
    the temporary [executor(command)] is constructed, asked for its
    result and destroyed at the end of the full expression. *)
Definition execute (fuel : nat) (command : string) (exit_code : option Z) (w : world)
  : option (world * string * option Z) :=
  let w0 := if flags is_verbose w then cerr ("pfd: " +:+ command) w else w in
  '(w1, e1) ← Executor.construct fuel command w0;
  '(w2, e2, out, code) ← Executor.result fuel exit_code e1 w1;
  w3 ← Executor.destroy fuel e2 w2;
  Some (w3, out, code).

(** [std::string desktop_helper() const]. *)
Definition desktop_helper (w : world) : string :=
  if flags has_zenity w then "zenity"
  else if flags has_matedialog w then "matedialog"
  else if flags has_qarma w then "qarma"
  else if flags has_kdialog w then "kdialog"
  else "echo".

(** [std::string buttons_to_name(buttons buttons) const]. *)
Definition buttons_to_name (b : buttons) : string :=
  match b with
  | ok_cancel => "okcancel"
  | yes_no => "yesno"
  | yes_no_cancel => "yesnocancel"
  | ok => "ok"
  end.

(** [std::string get_icon_name(icon icon) const]. *)
Definition get_icon_name (i : icon) : string :=
  match i with
  | warning => "warning"
  | error => "error"
  | question => "question"
  | info => "information"
  end.

Definition is_squote (c : ascii) : bool := Ascii.eqb c Str.squote.

Definition is_quote (c : ascii) : bool :=
  Ascii.eqb c Str.squote || Ascii.eqb c Str.dquote.

(** [std::string powershell_quote(std::string const &str) const]: the
    regular expression is the class of the two quote characters and the
    format is [$&$&]. *)
Definition powershell_quote (str : string) : string :=
  "'" +:+ Str.regex_replace str is_quote "$&$&" +:+ "'".

(** [std::string shell_quote(std::string const &str) const]: the regular
    expression is the single quote and the format is the four
    characters quote, backslash, quote, quote. *)
Definition shell_quote (str : string) : string :=
  "'" +:+ Str.regex_replace str is_squote "'\''" +:+ "'".

(** [bool check_program(std::string const &program)]. *)
Definition check_program (fuel : nat) (program : string) (w : world) : option (world * bool) :=
  '(w1, _, exit_code) ← execute fuel ("which " +:+ program +:+ " 2>/dev/null") (Some (-1)) w;
  Some (w1, default (-1) exit_code =? 0).

(** [explicit dialog(bool resync = false)]; [m_async] is
    default-constructed before the body runs. *)
Definition construct (fuel : nat) (resync : bool) (w : world) : option (world * dialog) :=
  if resync || negb (analysed w) then
    '(w1, b1) ← check_program fuel "zenity" w;
    '(w2, b2) ← check_program fuel "matedialog" (set_flags has_zenity b1 w1);
    '(w3, b3) ← check_program fuel "qarma" (set_flags has_matedialog b2 w2);
    '(w4, b4) ← check_program fuel "kdialog" (set_flags has_qarma b3 w3);
    Some (with_analysed true (set_flags has_kdialog b4 w4), Build Executor.default)
  else Some (w, Build Executor.default).

(** [bool ready()]. *)
Definition ready (d : dialog) (w : world) : world * dialog * bool :=
  let '(w1, e1, r) := Executor.ready (m_async d) w in (w1, Build e1, r).

(** The destructor of a dialog destroys its [m_async]. *)
Definition destroy (fuel : nat) (d : dialog) (w : world) : option world :=
  Executor.destroy fuel (m_async d) w.

End Dialog.

(** ** The dialog variants *)

Module Variants.
Import OS Static Dialog.

(** [enum type { open, save, folder, }] of [file_dialog]. *)
Inductive type := open | save | folder.

Definition type_eqb (a b : type) : bool :=
  match a, b with
  | open, open | save, save | folder, folder => true
  | _, _ => false
  end.

(** The command [file_dialog::file_dialog] assembles. *)
Definition file_dialog_command (w : world) (in_type : type)
    (title default_path filter : string) (multiselect : bool) : string :=
  let command := desktop_helper w in
  if is_zenity w then
    let command :=
      command +:+ (" --file-selection --filename=" +:+ shell_quote default_path
                   +:+ " --title " +:+ shell_quote title
                   +:+ " --file-filter=" +:+ shell_quote filter
                   +:+ (if multiselect then " --multiple" else "")) in
    if type_eqb in_type save then command +:+ " --save" else command
  else command.

(** [file_dialog(type, title, default_path = "", filter = "",
    multiselect = false)]: the base [dialog()] is constructed first. *)
Definition file_dialog (fuel : nat) (in_type : type)
    (title default_path filter : string) (multiselect : bool) (w : world)
  : option (world * dialog) :=
  '(w1, d) ← Dialog.construct fuel false w;
  let command := file_dialog_command w1 in_type title default_path filter multiselect in
  '(w2, e) ← Executor.start fuel command (m_async d) w1;
  Some (w2, Dialog.Build e).

(** [open_file], [save_file] and [select_folder] with their default
    arguments. *)
Definition open_file (fuel : nat) (title default_path filter : string) (multiselect : bool) :=
  file_dialog fuel open title default_path filter multiselect.

Definition save_file (fuel : nat) (title default_path filter : string) :=
  file_dialog fuel save title default_path filter false.

Definition select_folder (fuel : nat) (title default_path : string) :=
  file_dialog fuel folder title default_path "" false.

(** The icon [notify::notify] works with: [question] is not supported
    by notifications. *)
Definition notify_icon (i : icon) : icon :=
  if icon_eqb i question then info else i.

(** The command [notify::notify] assembles. *)
Definition notify_command (w : world) (title message : string) (i : icon) : string :=
  let i := notify_icon i in
  let command := desktop_helper w in
  if is_zenity w then
    command +:+ (" --notification" +:+ " --window-icon " +:+ get_icon_name i
                 +:+ " --text " +:+ shell_quote (title +:+ String Str.newline "" +:+ message))
  else if is_kdialog w then
    command +:+ (" --icon " +:+ get_icon_name i
                 +:+ " --title " +:+ shell_quote title
                 +:+ " --passivepopup " +:+ shell_quote message
                 +:+ " 5")
  else command.

(** [notify(title, message, icon = icon::info)]. *)
Definition notify (fuel : nat) (title message : string) (i : icon) (w : world)
  : option (world * dialog) :=
  '(w1, d) ← Dialog.construct fuel false w;
  let command := notify_command w1 title message i in
  '(w2, e) ← Executor.start fuel command (m_async d) w1;
  Some (w2, Dialog.Build e).

(** The command [message::message] assembles. *)
Definition message_command (w : world) (title text : string) (b : buttons) (i : icon) : string :=
  let command := desktop_helper w in
  if is_zenity w then
    let command :=
      match b with
      | ok_cancel => command +:+ " --question --ok-label=OK --cancel-label=Cancel"
      | yes_no => command +:+ " --question"
      | yes_no_cancel => command +:+ " --list --column '' --hide-header 'Yes' 'No'"
      | ok =>
          match i with
          | error => command +:+ " --error"
          | warning => command +:+ " --warning"
          | _ => command +:+ " --info"
          end
      end in
    command +:+ (" --title " +:+ shell_quote title
                 +:+ " --width 300 --height 0"
                 +:+ " --text " +:+ shell_quote text
                 +:+ " --icon-name=dialog-" +:+ get_icon_name i)
  else if is_kdialog w then
    let command :=
      if buttons_eqb b ok then
        match i with
        | error => command +:+ " --error"
        | warning => command +:+ " --sorry"
        | _ => command +:+ " --msgbox"
        end
      else
        let command := command +:+ " --" in
        let command :=
          if icon_eqb i warning || icon_eqb i error then command +:+ "warning" else command in
        let command := command +:+ "yesno" in
        if buttons_eqb b yes_no_cancel then command +:+ "cancel" else command in
    let command := command +:+ (" " +:+ shell_quote text +:+ " --title " +:+ shell_quote title) in
    if buttons_eqb b ok_cancel then command +:+ " --yes-label OK --no-label Cancel" else command
  else command.

(** [message(title, text, buttons = buttons::ok_cancel,
    icon = icon::info)]. *)
Definition message (fuel : nat) (title text : string) (b : buttons) (i : icon) (w : world)
  : option (world * dialog) :=
  '(w1, d) ← Dialog.construct fuel false w;
  let command := message_command w1 title text b i in
  '(w2, e) ← Executor.start fuel command (m_async d) w1;
  Some (w2, Dialog.Build e).

(** [settings::verbose(value)] and [settings::rescan()]: each builds a
    temporary [internal::dialog] that is destroyed at the end of the
    statement. *)
Definition verbose (fuel : nat) (value : bool) (w : world) : option world :=
  '(w1, d) ← Dialog.construct fuel false w;
  Dialog.destroy fuel d (set_flags is_verbose value w1).

Definition rescan (fuel : nat) (w : world) : option world :=
  '(w1, d) ← Dialog.construct fuel true w;
  Dialog.destroy fuel d w1.

End Variants.

(** ** The quoting rules of the two command interpreters

    The interpreters are not part of the program; what follows states the
    part of their grammars that decides how a quoted argument is read. *)

Module Interp.

(** The characters that have a meaning of their own in an unquoted
    position of a POSIX shell word (operators, blanks, quoting and
    expansion characters, and the conditionally special ones). *)
Definition sh_special (c : ascii) : bool :=
  existsb (Ascii.eqb c)
    [ "|"; "&"; ";"; "<"; ">"; "("; ")"; "$"; "`"; "\"; "'"; " "; "*"; "?";
      "["; "#"; "~"; "="; "%"; Str.dquote; Str.newline; "009" ]%char.

Inductive sh_mode := sh_plain | sh_quoted.

(** Quote removal on one shell word (POSIX XCU 2.2): between single
    quotes every character stands for itself and a single quote cannot
    occur; outside, a backslash makes the next character literal (a
    backslash-newline pair disappears) and a single quote opens a quoted
    part. [None]: the text is not one word made of literal characters
    (a quote is left open, or an unquoted special character occurs). *)
Fixpoint sh_word (mode : sh_mode) (s : string) : option string :=
  match s with
  | EmptyString =>
      match mode with
      | sh_plain => Some EmptyString
      | sh_quoted => None
      end
  | String c rest =>
      match mode with
      | sh_quoted =>
          if Ascii.eqb c Str.squote then sh_word sh_plain rest
          else String c <$> sh_word sh_quoted rest
      | sh_plain =>
          if Ascii.eqb c Str.squote then sh_word sh_quoted rest
          else if Ascii.eqb c Str.backslash then
            match rest with
            | String d rest' =>
                if Ascii.eqb d Str.newline then sh_word sh_plain rest'
                else String d <$> sh_word sh_plain rest'
            | EmptyString => None
            end
          else if sh_special c then None
          else String c <$> sh_word sh_plain rest
      end
  end.

(** The literal a shell argument stands for. *)
Definition sh_literal (arg : string) : option string := sh_word sh_plain arg.

(** The body of a PowerShell single-quoted string (a verbatim string):
    two single quotes stand for one, a lone single quote ends the
    string, every other character, the double quote included, stands
    for itself. [None]: the string is left open or text follows it. *)
Fixpoint ps_body (s : string) : option string :=
  match s with
  | EmptyString => None
  | String c rest =>
      if Ascii.eqb c Str.squote then
        match rest with
        | EmptyString => Some EmptyString
        | String d rest' =>
            if Ascii.eqb d Str.squote then String Str.squote <$> ps_body rest'
            else None
        end
      else String c <$> ps_body rest
  end.

(** The literal a PowerShell single-quoted argument stands for. *)
Definition ps_literal (arg : string) : option string :=
  match arg with
  | String c body => if Ascii.eqb c Str.squote then ps_body body else None
  | EmptyString => None
  end.

End Interp.

(** * Properties *)

(** ** Strings *)

Module StrFacts.
Import Str.

Lemma append_nil_r (s : string) : s +:+ "" = s.
Proof. induction s as [|c s IH]; simpl; [reflexivity | now rewrite IH]. Qed.

Lemma append_assoc (a b c : string) : (a +:+ b) +:+ c = a +:+ (b +:+ c).
Proof. induction a as [|x a IH]; simpl; [reflexivity | now rewrite IH]. Qed.

Lemma prefixb_spec (p s : string) :
  prefixb p s = true <-> exists post, s = p +:+ post.
Proof.
  revert s; induction p as [|a p IH]; intros s; simpl.
  - split; [intros _; now exists s | reflexivity].
  - destruct s as [|b s]; simpl.
    + split; [discriminate | intros [post H]; discriminate].
    + rewrite andb_true_iff, IH. split.
      * intros [Hab [post ->]]. apply Ascii.eqb_eq in Hab as ->. now exists post.
      * intros [post H]. injection H as -> ->. split; [apply Ascii.eqb_refl | now exists post].
Qed.

(** The boolean test decides the occurrence of a substring. *)
Lemma containsb_spec (needle hay : string) :
  containsb needle hay = true <-> contains needle hay.
Proof.
  induction hay as [|c hay IH].
  - simpl. rewrite orb_false_r, prefixb_spec. split.
    + intros [post H]. now exists "", post.
    + intros [pre [post H]]. destruct pre; simpl in H; [now exists post | discriminate].
  - cbn [containsb]. rewrite orb_true_iff, IH, prefixb_spec. split.
    + intros [[post H] | [pre [post H]]].
      * now exists "", post.
      * exists (String c pre), post. simpl. now rewrite H.
    + intros [pre [post H]]. destruct pre as [|x pre]; simpl in H.
      * left. now exists post.
      * right. injection H as _ H. now exists pre, post.
Qed.

Lemma contains_app_r (needle a b : string) :
  contains needle b -> contains needle (a +:+ b).
Proof.
  intros [pre [post ->]]. exists (a +:+ pre), post. now rewrite append_assoc.
Qed.

Lemma contains_app_l (needle a b : string) :
  contains needle a -> contains needle (a +:+ b).
Proof.
  intros [pre [post ->]]. exists pre, (post +:+ b). now rewrite !append_assoc.
Qed.

Lemma containsb_empty_needle (hay : string) : containsb "" hay = true.
Proof. destruct hay; reflexivity. Qed.

(** A character that does not occur in [needle] cuts the search in
    two: no occurrence of [needle] goes across it. *)
Lemma prefixb_sep (needle : string) (c : ascii) :
  occursb c needle = false ->
  forall u b, prefixb needle (u +:+ String c b) = prefixb needle u.
Proof.
  induction needle as [|n needle IH]; intros Hc u b; [reflexivity |].
  cbn [occursb] in Hc. apply orb_false_elim in Hc as [Hn Hc].
  destruct u as [|x u]; cbn [String.append prefixb].
  - rewrite Ascii.eqb_sym, Hn. reflexivity.
  - now rewrite IH.
Qed.

Lemma containsb_sep (needle : string) (c : ascii) (a b : string) :
  occursb c needle = false ->
  containsb needle (a +:+ String c b) = containsb needle a || containsb needle b.
Proof.
  intros Hc. induction a as [|x a IH].
  - pose proof (prefixb_sep needle c Hc "" b) as Hp.
    cbn [String.append containsb] in *. now rewrite Hp, orb_false_r.
  - pose proof (prefixb_sep needle c Hc (String x a) b) as Hp.
    cbn [String.append containsb] in *. now rewrite Hp, IH, !orb_assoc.
Qed.

Lemma containsb_sep_head (needle : string) (c : ascii) (b : string) :
  occursb c needle = false ->
  containsb needle (String c b) = containsb needle "" || containsb needle b.
Proof. intros Hc. exact (containsb_sep needle c "" b Hc). Qed.

End StrFacts.

(** ** Quoting *)

Module QuoteFacts.
Import Str Dialog Interp StrFacts.

Lemma shell_quote_body (s : string) :
  sh_word sh_quoted (regex_replace s is_squote "'\''" +:+ "'") = Some s.
Proof.
  induction s as [|c s IH]; [reflexivity |].
  cbn [regex_replace]. unfold is_squote at 1.
  destruct (Ascii.eqb_spec c squote) as [-> | Hc].
  - cbn. cbn in IH. now rewrite IH.
  - cbn [String.append sh_word].
    apply Ascii.eqb_neq in Hc. rewrite Hc. now rewrite IH.
Qed.

(** A POSIX shell reads [shell_quote s] as the literal [s], whatever
    [s] contains. *)
Lemma shell_quote_roundtrip (s : string) :
  sh_literal (shell_quote s) = Some s.
Proof. unfold sh_literal, shell_quote. cbn. apply shell_quote_body. Qed.

(** What a PowerShell verbatim string makes of [powershell_quote s]:
    the doubled single quotes collapse, the doubled double quotes
    stay. *)
Definition double_dquotes (s : string) : string :=
  regex_replace s (Ascii.eqb dquote) "$&$&".

Lemma powershell_quote_body (s : string) :
  ps_body (regex_replace s is_quote "$&$&" +:+ "'") = Some (double_dquotes s).
Proof.
  induction s as [|c s IH]; [reflexivity |].
  unfold double_dquotes. cbn [regex_replace]. unfold is_quote at 1.
  destruct (Ascii.eqb_spec c squote) as [-> | Hc].
  - cbn. cbn in IH. now rewrite IH.
  - destruct (Ascii.eqb_spec c dquote) as [-> | Hd].
    + cbn. cbn in IH. now rewrite IH.
    + assert (Ascii.eqb dquote c = false) as -> by (apply Ascii.eqb_neq; congruence).
      cbn [orb String.append ps_body].
      apply Ascii.eqb_neq in Hc. rewrite Hc. now rewrite IH.
Qed.

Lemma powershell_quote_literal (s : string) :
  ps_literal (powershell_quote s) = Some (double_dquotes s).
Proof. unfold powershell_quote. cbn. apply powershell_quote_body. Qed.

Lemma double_dquotes_id (s : string) :
  containsb (String dquote "") s = false -> double_dquotes s = s.
Proof.
  unfold double_dquotes.
  induction s as [|c s IH]; [reflexivity |].
  cbn [containsb prefixb regex_replace]. rewrite andb_true_r.
  intros H. apply orb_false_elim in H as [Hc Hs].
  rewrite Hc. cbn. now rewrite IH.
Qed.

(** PowerShell reads [powershell_quote s] as the literal [s] when [s]
    holds no double quote. *)
Lemma powershell_quote_roundtrip (s : string) :
  containsb (String dquote "") s = false ->
  ps_literal (powershell_quote s) = Some s.
Proof. intros H. now rewrite powershell_quote_literal, double_dquotes_id. Qed.

(** The quoting adds only single quotes and backslashes: a word
    without these characters occurs in the quoted text exactly when it
    occurs in the text. *)
Lemma containsb_shell_quote_body (needle : string) :
  needle <> "" -> occursb squote needle = false -> occursb backslash needle = false ->
  forall s p,
    containsb needle (p +:+ regex_replace s is_squote "'\''") = containsb needle (p +:+ s).
Proof.
  intros Hne Hq Hb. induction s as [|c s IH]; intros p; [reflexivity |].
  assert (containsb needle "" = false) as Hnil by (destruct needle; [congruence | reflexivity]).
  cbn [regex_replace]. unfold is_squote at 1.
  destruct (Ascii.eqb_spec c squote) as [-> | Hc].
  - change (expand_format "'\''" (String squote "") +:+ regex_replace s is_squote "'\''")
      with (String squote (String backslash (String squote (String squote
              (regex_replace s is_squote "'\''"))))).
    rewrite (containsb_sep needle squote p _ Hq).
    rewrite (containsb_sep_head needle backslash _ Hb).
    rewrite (containsb_sep_head needle squote _ Hq).
    rewrite (containsb_sep_head needle squote _ Hq).
    pose proof (IH "") as IH0. cbn [String.append] in IH0.
    rewrite IH0, (containsb_sep needle squote p s Hq), Hnil. reflexivity.
  - change (p +:+ (String c "" +:+ regex_replace s is_squote "'\''"))
      with (p +:+ String c (regex_replace s is_squote "'\''")).
    replace (p +:+ String c (regex_replace s is_squote "'\''"))
      with ((p +:+ String c "") +:+ regex_replace s is_squote "'\''")
      by now rewrite StrFacts.append_assoc.
    rewrite IH. now rewrite StrFacts.append_assoc.
Qed.

Lemma containsb_around_shell_quote (needle a s b : string) :
  needle <> "" -> occursb squote needle = false -> occursb backslash needle = false ->
  containsb needle (a +:+ shell_quote s +:+ b)
  = containsb needle a || containsb needle s || containsb needle b.
Proof.
  intros Hne Hq Hb. unfold shell_quote.
  change (a +:+ ("'" +:+ regex_replace s is_squote "'\''" +:+ "'") +:+ b)
    with (a +:+ String squote ((regex_replace s is_squote "'\''" +:+ "'") +:+ b)).
  rewrite (containsb_sep needle squote a _ Hq).
  rewrite StrFacts.append_assoc.
  change (regex_replace s is_squote "'\''" +:+ "'" +:+ b)
    with (regex_replace s is_squote "'\''" +:+ String squote b).
  rewrite (containsb_sep needle squote _ b Hq).
  pose proof (containsb_shell_quote_body needle Hne Hq Hb s "") as Hbody.
  cbn [String.append] in Hbody. rewrite Hbody.
  now rewrite orb_assoc.
Qed.

Lemma containsb_before_shell_quote (needle a s : string) :
  needle <> "" -> occursb squote needle = false -> occursb backslash needle = false ->
  containsb needle (a +:+ shell_quote s) = containsb needle a || containsb needle s.
Proof.
  intros Hne Hq Hb.
  rewrite <- (StrFacts.append_nil_r (shell_quote s)).
  rewrite (containsb_around_shell_quote needle a s "" Hne Hq Hb).
  assert (containsb needle "" = false) as -> by (destruct needle; [congruence | reflexivity]).
  now rewrite orb_false_r.
Qed.

(** C4. The text made of a backslash and a double quote (the sequence
    the comment above [powershell_quote] calls unsafe) does not survive:
    [powershell_quote] doubles the double quote and PowerShell reads the
    single-quoted result as a backslash and two double quotes, which is
    not the text that was quoted. *)
Theorem powershell_quote_backslash_dquote :
  let s := String backslash (String dquote "") in
  powershell_quote s = "'\" +:+ String dquote (String dquote "'")
  /\ ps_literal (powershell_quote s) = Some (String backslash (String dquote (String dquote "")))
  /\ ps_literal (powershell_quote s) <> Some s
  /\ sh_literal (shell_quote s) = Some s.
Proof. cbn. repeat split. discriminate. Qed.

End QuoteFacts.

(** ** The executor: one call of [ready] *)

Module ReadyFacts.
Import OS Executor.

Lemma child_of_fileno (h : handle) (c : child) (w : world) :
  procs w !! h = Some c -> child_of_fd (fileno h) w = Some (h, c).
Proof.
  intros H. unfold child_of_fd, fileno.
  assert ((Z.of_nat h <? 0) = false) as -> by (apply Z.ltb_ge; lia).
  now rewrite Nat2Z.id, H.
Qed.

(** Every [read] adds exactly one event to the trace. *)
Lemma read_trace (fd : Z) (w : world) :
  trace (read fd w).1 = trace w ++ [ev_read fd (read fd w).2].
Proof.
  unfold read. destruct (child_of_fd fd w) as [[h c]|]; [|reflexivity].
  destruct (pending c); reflexivity.
Qed.

(** What [read] returns on the pipe of a child. *)
Definition next_outcome (c : child) : read_outcome :=
  match pending c with
  | r :: _ => r
  | [] => if hangs c then read_fail EAGAIN else read_eof
  end.

Lemma read_outcome_of_child (h : handle) (c : child) (w : world) :
  procs w !! h = Some c -> (read (fileno h) w).2 = next_outcome c.
Proof.
  intros H. unfold read, next_outcome. rewrite (child_of_fileno h c w H).
  destruct (pending c); reflexivity.
Qed.

Lemma ready_not_running (e : executor) (w : world) :
  m_state e <> running -> ready e w = (w, e, true).
Proof. unfold ready. destruct (m_state e); [reflexivity | congruence | reflexivity]. Qed.

Lemma ready_running (e : executor) (w : world) :
  m_state e = running ->
  ready e w =
    let r := (read (m_fd e) w).2 in
    let w1 := (read (m_fd e) w).1 in
    if (received r =? -1) && (errno_of r =? EAGAIN) then (w1, e, false)
    else if 0 <? received r then (w1, set_result (m_result e +:+ Str.c_str (buf_of r)) e, false)
    else (w1, set_state finished e, true).
Proof. intros H. unfold ready. rewrite H. cbn. now destruct (read (m_fd e) w). Qed.

Lemma received_data (buf : string) :
  buf <> "" -> (0 <? received (read_data buf)) = true.
Proof.
  destruct buf; [congruence | intros _]. apply Z.ltb_lt.
  cbn [received String.length]. lia.
Qed.

(** [ready], as the code has it. On an executor that is not running
    (never started, stopped or finished, whatever its descriptor) it
    changes nothing and answers true. On a running executor whose
    descriptor is the pipe of the child [c] it makes exactly one [read]
    and: when the read delivers bytes, the bytes before the first NUL
    among them (all of them when there is none) are appended to
    [m_result] and the answer is false; when no data is available and
    the child still holds the pipe ([EAGAIN]) nothing changes and the
    answer is false; at the end of the stream the state becomes
    [finished] and the answer is true. *)
Lemma ready_spec (e : executor) (w : world) :
  (m_state e <> running -> ready e w = (w, e, true))
  /\ (m_state e = running ->
      forall (h : handle) (c : child),
      m_fd e = fileno h -> procs w !! h = Some c ->
      let w1 := (read (m_fd e) w).1 in
      trace (ready e w).1.1 = trace w ++ [ev_read (m_fd e) (next_outcome c)]
      /\ (ready e w).1.1 = w1
      /\ match next_outcome c with
         | read_data buf =>
             buf <> "" ->
             ready e w = (w1, set_result (m_result e +:+ Str.c_str buf) e, false)
         | read_fail errno =>
             errno = EAGAIN -> ready e w = (w1, e, false)
         | read_eof =>
             ready e w = (w1, set_state finished e, true)
         end).
Proof.
  split; [apply ready_not_running |].
  intros Hrun h c Hfd Hc. cbn zeta.
  pose proof (read_trace (m_fd e) w) as Htr.
  pose proof (read_outcome_of_child h c w Hc) as Hr.
  rewrite <- Hfd in Hr. rewrite Hr in Htr.
  rewrite (ready_running e w Hrun). cbn zeta. rewrite Hr.
  destruct (next_outcome c) as [buf | | errno] eqn:Hn.
  - cbn [errno_of buf_of]. change (0 =? EAGAIN) with false. rewrite andb_false_r.
    destruct (String.eqb_spec buf "") as [-> | Hne].
    + cbn. repeat split; [exact Htr | congruence].
    + rewrite (received_data buf Hne). cbn. repeat split; exact Htr.
  - cbn. repeat split; exact Htr.
  - cbn [received errno_of buf_of]. rewrite Z.eqb_refl. cbn [andb].
    destruct (Z.eqb_spec errno EAGAIN) as [-> | Hne].
    + repeat split; exact Htr.
    + cbn. repeat split; [exact Htr | congruence].
Qed.

(** A read that fails for another reason than [EAGAIN] ends the
    polling like the end of the stream. *)
Lemma ready_read_error (e : executor) (w : world) (errno : Z) :
  m_state e = running ->
  (read (m_fd e) w).2 = read_fail errno ->
  errno <> EAGAIN ->
  ready e w = ((read (m_fd e) w).1, set_state finished e, true).
Proof.
  intros Hrun Hr Hne. rewrite (ready_running e w Hrun). cbn zeta. rewrite Hr.
  cbn. now apply Z.eqb_neq in Hne as ->.
Qed.

(** A running executor on the stream 0 of a child that has just
    written a NUL and the letter a. *)
Definition nul_child : child := Child [read_data (String Str.nul "a")] false 0.

Definition nul_world : world :=
  World {[ 0%nat := nul_child ]} 1 (fun _ => None) [] Static.zeroed true.

Definition nul_executor : executor := Build running "" (-1) (Some 0%nat) 0.

(** C1. Data that is available is not always appended: [ready] loses
    the bytes that follow a NUL. On a running executor whose child has
    written the two bytes NUL and a, the single [read] delivers both,
    [ready] answers false, and nothing at all is added to the accumulated
    output: it is not the output followed by the data. *)
Theorem ready_nul_data_not_appended :
  (read (m_fd nul_executor) nul_world).2 = read_data (String Str.nul "a")
  /\ (ready nul_executor nul_world).2 = false
  /\ m_result (ready nul_executor nul_world).1.2 = ""
  /\ m_result (ready nul_executor nul_world).1.2
     <> m_result nul_executor +:+ String Str.nul "a".
Proof. vm_compute. repeat split. discriminate. Qed.

(** A running executor on the stream 0 of a child that writes the
    given chunks and exits. *)
Definition chunked (chunks : list string) : world :=
  World {[ 0%nat := Child (map read_data chunks) false 0 ]} 1 (fun _ => None) []
        Static.zeroed true.

(** The text [result] returns. *)
Definition text_of (r : option (world * executor * string * option Z)) : option string :=
  match r with
  | Some (_, _, text, _) => Some text
  | None => None
  end.

(** What is lost depends on how the pipe cuts the output into chunks:
    the same four bytes a, NUL, b, c are captured as [ac] when they
    arrive as a NUL b and then c, and as [a] when they arrive as a and
    then NUL b c. *)
Lemma result_depends_on_chunks :
  text_of (result 3 None nul_executor
             (chunked [String "a" (String Str.nul "b"); "c"])) = Some "ac"
  /\ text_of (result 3 None nul_executor
                (chunked ["a"; String Str.nul "bc"])) = Some "a".
Proof. vm_compute. split; reflexivity. Qed.

End ReadyFacts.

(** ** The executor: ownership of the child and the polling loop *)

Module LifeCycle.
Import OS Executor ReadyFacts.

(** The streams the executor [e] is responsible for, given the streams
    [others] that belong to the rest of the process: none when it is
    idle, otherwise exactly the stream in [m_stream], whose descriptor is
    in [m_fd]. *)
Definition owns (e : executor) (w : world) (others : gmap handle child) : Prop :=
  match m_state e with
  | idle => procs w = others
  | _ => exists h c, m_stream e = Some h /\ m_fd e = fileno h
                     /\ others !! h = None /\ procs w = <[h := c]> others
  end.

(** [popen] hands out streams that are not in use. *)
Definition fresh (w : world) : Prop :=
  map_Forall (fun h _ => (h < next_stream w)%nat) (procs w).

(** The events a polling loop produces. *)
Definition polling (ev : event) : bool :=
  match ev with
  | ev_read _ _ | ev_sleep _ => true
  | _ => false
  end.

(** The part of the world that the executor never touches. *)
Definition same_statics (w w1 : world) : Prop :=
  spawn w1 = spawn w /\ static_flags w1 = static_flags w /\ analysed w1 = analysed w.

Lemma same_statics_refl (w : world) : same_statics w w.
Proof. repeat split. Qed.

Lemma same_statics_trans (w w1 w2 : world) :
  same_statics w w1 -> same_statics w1 w2 -> same_statics w w2.
Proof. unfold same_statics. intuition congruence. Qed.

(** What one [read] does to the world. *)
Lemma read_effect (fd : Z) (w : world) :
  let w1 := (read fd w).1 in
  same_statics w w1 /\ next_stream w1 = next_stream w
  /\ trace w1 = trace w ++ [ev_read fd (read fd w).2]
  /\ (procs w1 = procs w
      \/ exists h c c1, fd = fileno h /\ procs w !! h = Some c
                        /\ procs w1 = <[h := c1]> (procs w)
                        /\ hangs c1 = hangs c /\ wait_status c1 = wait_status c
                        /\ pending c = (read fd w).2 :: pending c1).
Proof.
  cbn zeta. unfold read, child_of_fd.
  destruct (fd <? 0) eqn:Hfd; [cbn; repeat split; now left |].
  destruct (procs w !! Z.to_nat fd) as [c|] eqn:Hc; [| cbn; repeat split; now left].
  destruct (pending c) as [|r rest] eqn:Hp; [cbn; repeat split; now left |].
  cbn. repeat split. right.
  exists (Z.to_nat fd), c, (Child rest (hangs c) (wait_status c)).
  apply Z.ltb_ge in Hfd. unfold fileno. rewrite Z2Nat.id by lia.
  repeat split; assumption.
Qed.

(** What one call of [ready] does to the executor and to the world. *)
Lemma ready_effect (e : executor) (w : world) :
  let '(w1, e1, r) := ready e w in
  same_statics w w1 /\ next_stream w1 = next_stream w
  /\ m_stream e1 = m_stream e /\ m_fd e1 = m_fd e /\ m_exit_code e1 = m_exit_code e
  /\ (r = true <-> m_state e1 <> running)
  /\ (m_state e1 = m_state e \/ (m_state e = running /\ m_state e1 = finished))
  /\ (m_state e <> running -> w1 = w /\ e1 = e)
  /\ (m_state e = running ->
      w1 = (read (m_fd e) w).1
      /\ (r = true -> m_result e1 = m_result e)).
Proof.
  destruct (m_state e) eqn:Hs.
  1, 3: rewrite ready_not_running by congruence;
        rewrite Hs; repeat split; try congruence; try (now left); intros _; congruence.
  rewrite (ready_running e w Hs). cbn zeta.
  destruct (read_effect (m_fd e) w) as (Hst & Hn & _).
  destruct ((received _ =? -1) && _); [| destruct (0 <? received _)]; cbn;
    rewrite ?Hs; repeat split; try assumption; try congruence;
    try (now left); try (now right); try apply Hst.
Qed.

Lemma ready_owns (e : executor) (w : world) (others : gmap handle child) :
  owns e w others ->
  owns (ready e w).1.2 (ready e w).1.1 others.
Proof.
  intros Ho. pose proof (ready_effect e w) as He.
  destruct (ready e w) as [[w1 e1] r]. cbn.
  destruct He as (_ & _ & Hstr & Hfd & _ & _ & Hs & Hidle & Hrun).
  destruct (m_state e) eqn:Hse.
  1, 3: destruct (Hidle ltac:(discriminate)) as [-> ->]; exact Ho.
  destruct (Hrun eq_refl) as [-> _].
  unfold owns in *. rewrite Hse in Ho. destruct Ho as (h & c & Hh & Hf & Hnone & Hp).
  assert (exists c1, procs (read (m_fd e) w).1 = <[h := c1]> others) as [c1 Hc1].
  { destruct (read_effect (m_fd e) w) as (_ & _ & _ & [Heq | (h' & c' & c1 & Hfd' & Hl & Hp1 & _)]).
    - exists c. now rewrite Heq.
    - assert (h' = h) as -> by (unfold fileno in *; lia).
      exists c1. rewrite Hp1, Hp. apply insert_insert_eq. }
  destruct Hs as [Hs | [_ Hs]]; rewrite Hs;
    exists h, c1; repeat split; congruence.
Qed.

Lemma ready_fresh (e : executor) (w : world) :
  fresh w -> fresh (ready e w).1.1.
Proof.
  intros Hf. pose proof (ready_effect e w) as He.
  destruct (ready e w) as [[w1 e1] r]. cbn.
  destruct He as (_ & Hn & _ & _ & _ & _ & _ & Hidle & Hrun).
  destruct (m_state e) eqn:Hse.
  1, 3: destruct (Hidle ltac:(discriminate)) as [-> _]; exact Hf.
  destruct (Hrun eq_refl) as [-> _]. unfold fresh in *. rewrite Hn.
  destruct (read_effect (m_fd e) w) as (_ & _ & _ & [Heq | (h & c & c1 & _ & Hl & Hp1 & _)]).
  - now rewrite Heq.
  - rewrite Hp1. apply map_Forall_insert_2; [| exact Hf]. exact (Hf h c Hl).
Qed.

Lemma ready_trace (e : executor) (w : world) :
  exists tr, trace (ready e w).1.1 = trace w ++ tr /\ forallb polling tr = true.
Proof.
  pose proof (ready_effect e w) as He.
  destruct (ready e w) as [[w1 e1] r]. cbn.
  destruct He as (_ & _ & _ & _ & _ & _ & _ & Hidle & Hrun).
  destruct (m_state e) eqn:Hse.
  1, 3: destruct (Hidle ltac:(discriminate)) as [-> _]; exists [];
        now rewrite app_nil_r.
  destruct (Hrun eq_refl) as [-> _].
  exists [ev_read (m_fd e) (read (m_fd e) w).2]. split; [apply read_trace | reflexivity].
Qed.

Lemma owns_log (e : executor) (w : world) (others : gmap handle child) (ev : event) :
  owns e w others -> owns e (log ev w) others.
Proof. intros H. exact H. Qed.

Lemma fresh_log (w : world) (ev : event) : fresh w -> fresh (log ev w).
Proof. intros H. exact H. Qed.

(** What the polling loop of [stop] has done when it ends. *)
Lemma stop_loop_effect (fuel : nat) :
  forall (e : executor) (w w1 : world) (e1 : executor),
  stop_loop fuel e w = Some (w1, e1) ->
  same_statics w w1
  /\ next_stream w1 = next_stream w
  /\ m_stream e1 = m_stream e /\ m_fd e1 = m_fd e /\ m_exit_code e1 = m_exit_code e
  /\ m_state e1 <> running
  /\ (m_state e <> running -> w1 = w /\ e1 = e)
  /\ (m_state e = running -> m_state e1 = finished)
  /\ exists tr, trace w1 = trace w ++ tr /\ forallb polling tr = true.
Proof.
  induction fuel as [|fuel IH]; intros e w w1 e1 Hloop; [discriminate |].
  cbn [stop_loop] in Hloop.
  pose proof (ready_effect e w) as He.
  destruct (ready_trace e w) as (tr & Htr & Hpoll).
  destruct (ready e w) as [[w' e'] r]. cbn in Htr.
  destruct He as (Hst & Hn & Hstr & Hfd & Hcode & Hr & Hs & Hidle & Hrun).
  destruct r.
  - injection Hloop as <- <-.
    assert (m_state e' <> running) as Hnr by now apply Hr.
    repeat split; try assumption; try apply Hst; try (apply Hidle; assumption).
    + intros Hrunning. destruct Hs as [Hs | [_ Hs]]; congruence.
    + now exists tr.
  - assert (m_state e' = running) as Hrun'.
    { destruct (m_state e') eqn:E; [| reflexivity |];
        (assert (false = true) by (apply Hr; discriminate)); discriminate. }
    assert (m_state e = running) as Hrunning.
    { destruct Hs as [Hs | [Hs _]]; congruence. }
    destruct (IH e' (sleep_for 200 w') w1 e1 Hloop)
      as (Hst2 & Hn2 & Hstr2 & Hfd2 & Hcode2 & Hnr2 & _ & Hfin & tr2 & Htr2 & Hpoll2).
    assert (same_statics w w1) as Hst3
      by (eapply same_statics_trans; [exact Hst | exact Hst2]).
    cbn in Hn2.
    repeat split; try assumption; try congruence; try apply Hst3.
    + intros _. now apply Hfin.
    + exists (tr ++ ev_sleep 200 :: tr2). split.
      * rewrite Htr2. cbn. rewrite Htr. now rewrite <- !app_assoc.
      * rewrite forallb_app. cbn. now rewrite Hpoll, Hpoll2.
Qed.

(** The loop keeps the executor in charge of its stream. *)
Lemma stop_loop_owns (fuel : nat) :
  forall (e : executor) (w w1 : world) (e1 : executor) (others : gmap handle child),
  stop_loop fuel e w = Some (w1, e1) ->
  owns e w others -> fresh w ->
  owns e1 w1 others /\ fresh w1.
Proof.
  induction fuel as [|fuel IH]; intros e w w1 e1 others Hloop Ho Hf; [discriminate |].
  cbn [stop_loop] in Hloop.
  pose proof (ready_owns e w others Ho) as Ho1.
  pose proof (ready_fresh e w Hf) as Hf1.
  destruct (ready e w) as [[w' e'] r]. cbn in Ho1, Hf1.
  destruct r.
  - injection Hloop as <- <-. now split.
  - exact (IH e' (sleep_for 200 w') w1 e1 others Hloop
              (owns_log _ _ _ _ Ho1) (fresh_log _ _ Hf1)).
Qed.

(** The value [pclose] will return for a stream. *)
Definition status_at (w : world) (h : handle) : option Z :=
  wait_status <$> procs w !! h.

Lemma read_status (fd : Z) (w : world) (h : handle) :
  status_at (read fd w).1 h = status_at w h.
Proof.
  destruct (read_effect fd w) as (_ & _ & _ & [Heq | (h' & c & c1 & _ & Hl & Hp & _ & Hst & _)]);
    unfold status_at.
  - now rewrite Heq.
  - rewrite Hp. destruct (decide (h' = h)) as [-> | Hne].
    + rewrite lookup_insert_eq, Hl. cbn. now rewrite Hst.
    + now rewrite lookup_insert_ne.
Qed.

Lemma ready_status (e : executor) (w : world) (h : handle) :
  status_at (ready e w).1.1 h = status_at w h.
Proof.
  pose proof (ready_effect e w) as He.
  destruct (ready e w) as [[w1 e1] r]. cbn.
  destruct He as (_ & _ & _ & _ & _ & _ & _ & Hidle & Hrun).
  destruct (m_state e) eqn:Hse.
  1, 3: now destruct (Hidle ltac:(discriminate)) as [-> _].
  destruct (Hrun eq_refl) as [-> _]. apply read_status.
Qed.

Lemma stop_loop_status (fuel : nat) :
  forall (e : executor) (w w1 : world) (e1 : executor) (h : handle),
  stop_loop fuel e w = Some (w1, e1) -> status_at w1 h = status_at w h.
Proof.
  induction fuel as [|fuel IH]; intros e w w1 e1 h Hloop; [discriminate |].
  cbn [stop_loop] in Hloop. pose proof (ready_status e w h) as Hs.
  destruct (ready e w) as [[w' e'] r]. cbn in Hs. destruct r.
  - now injection Hloop as <- <-.
  - rewrite (IH e' _ w1 e1 h Hloop). exact Hs.
Qed.

(** More fuel does not change the outcome of a loop that ends. *)
Lemma stop_loop_more_fuel (fuel : nat) :
  forall (e : executor) (w : world) (r : world * executor) (fuel' : nat),
  stop_loop fuel e w = Some r -> (fuel <= fuel')%nat -> stop_loop fuel' e w = Some r.
Proof.
  induction fuel as [|fuel IH]; intros e w r fuel' H Hle; [discriminate |].
  destruct fuel' as [|fuel']; [lia |].
  cbn [stop_loop] in *. destruct (ready e w) as [[w1 e1] [|]]; [exact H |].
  apply IH; [exact H | lia].
Qed.

(** The loop ends at once on an executor that is not running. *)
Lemma stop_loop_not_running (fuel : nat) (e : executor) (w : world) :
  m_state e <> running -> stop_loop (S fuel) e w = Some (w, e).
Proof. intros H. cbn [stop_loop]. now rewrite ready_not_running. Qed.

(** The outcomes of [read] on which [ready] answers true. *)
Definition ends_polling (r : read_outcome) : bool :=
  negb ((received r =? -1) && (errno_of r =? EAGAIN)) && negb (0 <? received r).

(** [ready] on a running executor, by what its child has pending. *)
Lemma ready_on_child (e : executor) (w : world) (h : handle) (c : child) :
  m_state e = running -> m_fd e = fileno h -> procs w !! h = Some c ->
  match pending c with
  | [] =>
      ready e w =
        if hangs c then (log (ev_read (m_fd e) (read_fail EAGAIN)) w, e, false)
        else (log (ev_read (m_fd e) read_eof) w, set_state finished e, true)
  | r :: rest =>
      exists e1,
        ready e w =
          (log (ev_read (m_fd e) r)
               (with_procs (<[h := Child rest (hangs c) (wait_status c)]> (procs w)) w),
           e1, ends_polling r)
        /\ m_fd e1 = m_fd e /\ (ends_polling r = false -> m_state e1 = running)
  end.
Proof.
  intros Hrun Hfd Hc. rewrite (ready_running e w Hrun). cbn zeta.
  unfold read. rewrite Hfd, (child_of_fileno h c w Hc).
  destruct (pending c) as [|r rest].
  - destruct (hangs c); reflexivity.
  - cbn [fst snd]. unfold ends_polling.
    destruct ((received r =? -1) && (errno_of r =? EAGAIN)); [| destruct (0 <? received r)];
      eexists; (split; [reflexivity |]); split; try reflexivity;
      try exact Hfd; try (intros _; exact Hrun); discriminate.
Qed.

(** The loop ends on a child that does not hang, within one call of
    [ready] per pending outcome and one more for the end of the
    stream. *)
Lemma stop_loop_returns (fuel : nat) :
  forall (e : executor) (w : world) (h : handle) (c : child),
  m_state e = running -> m_fd e = fileno h -> procs w !! h = Some c ->
  hangs c = false -> (length (pending c) < fuel)%nat ->
  exists r, stop_loop fuel e w = Some r.
Proof.
  induction fuel as [|fuel IH]; intros e w h c Hrun Hfd Hc Hh Hlen; [lia |].
  cbn [stop_loop].
  pose proof (ready_on_child e w h c Hrun Hfd Hc) as Hready.
  destruct (pending c) as [|r rest] eqn:Hp.
  - rewrite Hready, Hh. eexists; reflexivity.
  - destruct Hready as (e1 & -> & Hfd1 & Hb).
    destruct (ends_polling r); [eexists; reflexivity |].
    apply (IH e1 _ h (Child rest (hangs c) (wait_status c))).
    + now apply Hb.
    + congruence.
    + cbn. apply lookup_insert_eq.
    + exact Hh.
    + cbn in *. lia.
Qed.

(** The loop never ends on a child that hangs without an outcome that
    ends the polling: no bound is large enough. *)
Lemma stop_loop_hangs (fuel : nat) :
  forall (e : executor) (w : world) (h : handle) (c : child),
  m_state e = running -> m_fd e = fileno h -> procs w !! h = Some c ->
  hangs c = true -> Forall (fun r => ends_polling r = false) (pending c) ->
  stop_loop fuel e w = None.
Proof.
  induction fuel as [|fuel IH]; intros e w h c Hrun Hfd Hc Hh Hall; [reflexivity |].
  cbn [stop_loop].
  pose proof (ready_on_child e w h c Hrun Hfd Hc) as Hready.
  destruct (pending c) as [|r rest] eqn:Hp.
  - rewrite Hready, Hh.
    apply (IH e _ h c Hrun Hfd); try assumption. rewrite Hp. constructor.
  - destruct Hready as (e1 & -> & Hfd1 & Hb).
    inversion Hall as [|? ? Hr Hrest]; subst. rewrite Hr.
    apply (IH e1 _ h (Child rest true (wait_status c))).
    + now apply Hb.
    + congruence.
    + cbn. rewrite Hh. apply lookup_insert_eq.
    + reflexivity.
    + exact Hrest.
Qed.

(** ** [stop] *)

(** The polling loop of [stop] ends within [fuel] calls of [ready]:
    the child of a running executor does not hang and has fewer than
    [fuel] outcomes pending. *)
Definition exits_within (fuel : nat) (e : executor) (w : world) : Prop :=
  (1 <= fuel)%nat
  /\ (m_state e = running ->
      exists h c, m_fd e = fileno h /\ procs w !! h = Some c
                  /\ hangs c = false /\ (length (pending c) < fuel)%nat).

Lemma stop_idle (fuel : nat) (e : executor) (w : world) :
  m_state e = idle -> stop fuel e w = Some (w, e).
Proof. intros H. unfold stop. now rewrite H. Qed.

Lemma stop_returns (fuel : nat) (e : executor) (w : world) :
  exits_within fuel e w -> exists r, stop fuel e w = Some r.
Proof.
  intros [Hfuel Hrun]. unfold stop.
  destruct (m_state e) eqn:Hs; cbn [state_eqb].
  - eexists; reflexivity.
  - destruct (Hrun eq_refl) as (h & c & Hfd & Hc & Hh & Hlen).
    destruct (stop_loop_returns fuel e w h c Hs Hfd Hc Hh Hlen) as [[w1 e1] ->].
    destruct (pclose (m_stream e1) w1). eexists; reflexivity.
  - destruct fuel as [|fuel]; [lia |].
    rewrite stop_loop_not_running by congruence.
    destruct (pclose (m_stream e) w). eexists; reflexivity.
Qed.

(** What [stop] has done when it returns. *)
Lemma stop_effect (fuel : nat) (e : executor) (w w1 : world) (e1 : executor) :
  stop fuel e w = Some (w1, e1) ->
  m_state e1 = idle /\ same_statics w w1 /\ next_stream w1 = next_stream w
  /\ m_stream e1 = m_stream e /\ m_fd e1 = m_fd e
  /\ (m_state e = idle -> w1 = w /\ e1 = e)
  /\ (m_state e = finished -> m_result e1 = m_result e)
  /\ (m_state e <> idle ->
      exists tr status,
        forallb polling tr = true
        /\ trace w1 = trace w ++ tr ++ [ev_pclose (m_stream e) status]
        /\ m_exit_code e1 = status).
Proof.
  unfold stop. destruct (state_eqb (m_state e) idle) eqn:Hs.
  - intros [= <- <-]. destruct (m_state e) eqn:E; try discriminate.
    repeat split; congruence.
  - destruct (stop_loop fuel e w) as [[w' e']|] eqn:Hloop; [| discriminate].
    destruct (stop_loop_effect fuel e w w' e' Hloop)
      as (Hst & Hn & Hstr & Hfd & _ & _ & Hnr & _ & tr & Htr & Hpoll).
    assert (trace (pclose (m_stream e') w').1
            = trace w' ++ [ev_pclose (m_stream e') (pclose (m_stream e') w').2]
            /\ same_statics w' (pclose (m_stream e') w').1
            /\ next_stream (pclose (m_stream e') w').1 = next_stream w') as (Hptr & Hpst & Hpn).
    { unfold pclose. destruct (m_stream e') as [h|]; [destruct (procs w' !! h) |];
        cbn; repeat split. }
    destruct (pclose (m_stream e') w') as [w2 status]. cbn in Hptr, Hpst, Hpn.
    intros [= <- <-]. cbn.
    repeat split; try congruence;
      try (destruct Hst as (? & ? & ?); destruct Hpst as (? & ? & ?); congruence).
    all: try match goal with E : m_state _ = idle |- _ => rewrite E in Hs; discriminate end.
    + intros E. destruct Hnr as [_ ->]; congruence.
    + intros _. exists tr, status. rewrite Hptr, Htr, <- app_assoc, <- Hstr. now repeat split.
Qed.

(** [stop] releases the stream the executor was in charge of, and the
    exit code it records is the status of that child. *)
Lemma stop_owns (fuel : nat) (e : executor) (w w1 : world) (e1 : executor)
    (others : gmap handle child) :
  stop fuel e w = Some (w1, e1) ->
  owns e w others -> fresh w ->
  procs w1 = others /\ owns e1 w1 others /\ fresh w1
  /\ (m_state e <> idle ->
      exists h, m_stream e = Some h /\ status_at w h = Some (m_exit_code e1)).
Proof.
  intros Hstop Ho Hf.
  destruct (stop_effect fuel e w w1 e1 Hstop) as (Hidle & _ & _ & _ & _ & Hsame & _).
  unfold stop in Hstop. destruct (m_state e) eqn:Hs; cbn [state_eqb] in Hstop.
  - injection Hstop as <- <-. unfold owns in *. rewrite Hs in Ho. rewrite Hs.
    repeat split; try assumption. congruence.
  - destruct (stop_loop fuel e w) as [[w' e']|] eqn:Hloop; [| discriminate].
    destruct (stop_loop_owns fuel e w w' e' others Hloop) as [Ho' Hf']; try assumption.
    destruct (stop_loop_effect fuel e w w' e' Hloop)
      as (_ & _ & Hstr & _ & _ & _ & _ & Hfin & _).
    unfold owns in Ho'. rewrite (Hfin Hs) in Ho'.
    destruct Ho' as (h & c & Hh & _ & Hnone & Hp).
    pose proof (stop_loop_status fuel e w w' e' h Hloop) as Hstatus.
    unfold pclose in Hstop. rewrite Hh, Hp, lookup_insert_eq in Hstop.
    injection Hstop as <- <-. cbn.
    rewrite delete_insert_eq, (delete_id _ _ Hnone).
    unfold owns. cbn. repeat split.
    + unfold fresh in *. cbn. rewrite Hp in Hf'.
      apply map_Forall_insert in Hf' as [_ Hf']; assumption.
    + intros _. exists h. split; [congruence |].
      rewrite <- Hstatus. unfold status_at. now rewrite Hp, lookup_insert_eq.
  - destruct (stop_loop fuel e w) as [[w' e']|] eqn:Hloop; [| discriminate].
    destruct (stop_loop_effect fuel e w w' e' Hloop)
      as (_ & _ & _ & _ & _ & _ & Hnr & _).
    destruct Hnr as [-> ->]; [congruence |].
    unfold owns in Ho. rewrite Hs in Ho.
    destruct Ho as (h & c & Hh & _ & Hnone & Hp).
    unfold pclose in Hstop. rewrite Hh, Hp, lookup_insert_eq in Hstop.
    injection Hstop as <- <-. cbn.
    rewrite delete_insert_eq, (delete_id _ _ Hnone).
    unfold owns. cbn. repeat split.
    + unfold fresh in *. cbn. rewrite Hp in Hf.
      apply map_Forall_insert in Hf as [_ Hf]; assumption.
    + intros _. exists h. split; [congruence |].
      unfold status_at. now rewrite Hp, lookup_insert_eq.
Qed.

(** ** [start] *)

(** The part of [start] that follows [stop()]. *)
Lemma launch_effect (command : string) (e : executor) (w : world) :
  let '(w2, e2) := launch command e w in
  trace w2 = trace w ++ [ev_popen (Str.c_str command) (m_stream e2)]
  /\ m_result e2 = "" /\ m_exit_code e2 = -1 /\ same_statics w w2
  /\ match spawn w (Str.c_str command) with
     | Some c =>
         m_state e2 = running /\ m_stream e2 = Some (next_stream w)
         /\ m_fd e2 = fileno (next_stream w)
         /\ procs w2 = <[next_stream w := c]> (procs w)
         /\ next_stream w2 = S (next_stream w)
     | None =>
         m_state e2 = m_state e /\ m_stream e2 = None
         /\ procs w2 = procs w /\ next_stream w2 = next_stream w
     end.
Proof.
  unfold launch, popen. destruct (spawn w (Str.c_str command)) as [c|] eqn:Hsp;
    cbn; rewrite ?Hsp; repeat split.
Qed.

Lemma fresh_lookup_next (w : world) : fresh w -> procs w !! next_stream w = None.
Proof.
  intros Hf. destruct (procs w !! next_stream w) as [c|] eqn:Hc; [| reflexivity].
  specialize (Hf _ _ Hc). cbn in Hf. lia.
Qed.

(** What [start] does, from the call of [stop] to the launch. *)
Lemma start_effect (fuel : nat) (command : string)
    (e : executor) (w : world) (others : gmap handle child) :
  owns e w others -> fresh w -> exits_within fuel e w ->
  exists w1 e1 w2 e2,
    stop fuel e w = Some (w1, e1)
    /\ start fuel command e w = Some (w2, e2)
    /\ m_state e1 = idle /\ procs w1 = others
    /\ (m_state e <> idle ->
        exists tr status,
          forallb polling tr = true
          /\ trace w1 = trace w ++ tr ++ [ev_pclose (m_stream e) status])
    /\ trace w2 = trace w1 ++ [ev_popen (Str.c_str command) (m_stream e2)]
    /\ m_result e2 = "" /\ m_exit_code e2 = -1
    /\ match spawn w (Str.c_str command) with
       | Some c =>
           m_state e2 = running
           /\ exists h, m_stream e2 = Some h /\ others !! h = None
                        /\ procs w2 = <[h := c]> others
       | None => m_state e2 = idle /\ m_stream e2 = None /\ procs w2 = others
       end
    /\ owns e2 w2 others /\ fresh w2
    /\ (size (procs w2) <= S (size others))%nat.
Proof.
  intros Ho Hf Hex.
  destruct (stop_returns fuel e w Hex) as [[w1 e1] Hstop].
  destruct (stop_effect fuel e w w1 e1 Hstop) as (Hidle & Hst & Hn & _ & _ & _ & _ & Htr).
  destruct (stop_owns fuel e w w1 e1 others Hstop Ho Hf) as (Hp & Ho1 & Hf1 & _).
  pose proof (launch_effect command e1 w1) as Hl.
  destruct (launch command e1 w1) as [w2 e2] eqn:Hlaunch.
  destruct Hl as (Htr2 & Hres & Hcode & Hst2 & Hsp).
  exists w1, e1, w2, e2.
  assert (spawn w1 = spawn w) as Hspawn by apply Hst. rewrite Hspawn in Hsp.
  split; [exact Hstop |]. split; [unfold start; now rewrite Hstop, Hlaunch |].
  split; [exact Hidle |]. split; [exact Hp |].
  split.
  { intros Hne. destruct (Htr Hne) as (tr & status & Hpoll & Htrace & _).
    now exists tr, status. }
  split; [exact Htr2 |]. split; [exact Hres |]. split; [exact Hcode |].
  pose proof (fresh_lookup_next w1 Hf1) as Hnext. rewrite Hp in Hnext.
  destruct (spawn w (Str.c_str command)) as [c|].
  - destruct Hsp as (Hrun & Hstream & Hfd & Hprocs & Hn2). rewrite Hp in Hprocs.
    split; [split; [exact Hrun | now exists (next_stream w1)] |].
    split; [| split].
    + unfold owns. rewrite Hrun. now exists (next_stream w1), c.
    + unfold fresh in *. rewrite Hprocs, Hn2.
      apply map_Forall_insert_2; [lia |].
      rewrite <- Hp. intros h c' Hc'. specialize (Hf1 h c' Hc'). cbn in *. lia.
    + rewrite Hprocs. rewrite map_size_insert_None by exact Hnext. lia.
  - destruct Hsp as (Hs2 & Hstream & Hprocs & Hn2). rewrite Hp in Hprocs.
    split; [repeat split; congruence |].
    split; [| split].
    + unfold owns. rewrite Hs2, Hidle. exact Hprocs.
    + unfold fresh in *. now rewrite Hprocs, Hn2, <- Hp.
    + rewrite Hprocs. lia.
Qed.

(** The launch keeps the invariant: the stream it opens is fresh. *)
Lemma launch_owns (command : string) (e : executor) (w : world)
    (others : gmap handle child) :
  m_state e = idle -> owns e w others -> fresh w ->
  owns (launch command e w).2 (launch command e w).1 others
  /\ fresh (launch command e w).1.
Proof.
  intros Hidle Ho Hf. unfold owns in Ho. rewrite Hidle in Ho.
  pose proof (fresh_lookup_next w Hf) as Hnext.
  pose proof (launch_effect command e w) as Hl.
  destruct (launch command e w) as [w2 e2]. cbn.
  destruct Hl as (_ & _ & _ & _ & Hsp).
  destruct (spawn w (Str.c_str command)) as [c|].
  - destruct Hsp as (Hrun & Hstream & Hfd & Hprocs & Hn). split.
    + unfold owns. rewrite Hrun. exists (next_stream w), c.
      repeat split; congruence.
    + unfold fresh in *. rewrite Hprocs, Hn.
      apply map_Forall_insert_2; [lia |].
      intros h c' Hc'. specialize (Hf h c' Hc'). cbn in *. lia.
  - destruct Hsp as (Hs & _ & Hprocs & Hn). split.
    + unfold owns. rewrite Hs, Hidle. congruence.
    + unfold fresh in *. now rewrite Hprocs, Hn.
Qed.

(** The calls a client can make on an executor, and a sequence of them
    run in order. *)
Inductive call :=
| call_start (command : string)
| call_ready
| call_stop
| call_result (exit_code : option Z).

Definition step (fuel : nat) (c : call) (e : executor) (w : world)
  : option (world * executor) :=
  match c with
  | call_start command => start fuel command e w
  | call_ready => Some (ready e w).1
  | call_stop => stop fuel e w
  | call_result exit_code =>
      match result fuel exit_code e w with
      | Some (w1, e1, _, _) => Some (w1, e1)
      | None => None
      end
  end.

Fixpoint run (fuel : nat) (calls : list call) (e : executor) (w : world)
  : option (world * executor) :=
  match calls with
  | [] => Some (w, e)
  | c :: calls' =>
      match step fuel c e w with
      | Some (w1, e1) => run fuel calls' e1 w1
      | None => None
      end
  end.

Lemma step_owns (fuel : nat) (c : call) (e : executor) (w w1 : world) (e1 : executor)
    (others : gmap handle child) :
  step fuel c e w = Some (w1, e1) -> owns e w others -> fresh w ->
  owns e1 w1 others /\ fresh w1.
Proof.
  intros Hstep Ho Hf. destruct c as [command | | | exit_code]; cbn [step] in Hstep.
  - unfold start in Hstep. destruct (stop fuel e w) as [[w' e']|] eqn:Hstop; [| discriminate].
    destruct (stop_effect fuel e w w' e' Hstop) as (Hidle & _).
    destruct (stop_owns fuel e w w' e' others Hstop Ho Hf) as (_ & Ho' & Hf' & _).
    destruct (launch_owns command e' w' others Hidle Ho' Hf') as [Ho2 Hf2].
    injection Hstep as Hl. rewrite Hl in Ho2, Hf2. now split.
  - injection Hstep as Hr. pose proof (ready_owns e w others Ho) as Ho1.
    pose proof (ready_fresh e w Hf) as Hf1. rewrite Hr in Ho1, Hf1. now split.
  - destruct (stop_owns fuel e w w1 e1 others Hstep Ho Hf) as (_ & Ho' & Hf' & _).
    now split.
  - unfold result in Hstep. destruct (stop fuel e w) as [[w' e']|] eqn:Hstop; [| discriminate].
    injection Hstep as <- <-.
    destruct (stop_owns fuel e w w' e' others Hstop Ho Hf) as (_ & Ho' & Hf' & _).
    now split.
Qed.

(** Whatever the client calls, the executor stays in charge of at most
    one stream. *)
Lemma run_owns (fuel : nat) (calls : list call) :
  forall (e : executor) (w w1 : world) (e1 : executor) (others : gmap handle child),
  run fuel calls e w = Some (w1, e1) -> owns e w others -> fresh w ->
  owns e1 w1 others /\ fresh w1.
Proof.
  induction calls as [|c calls IH]; intros e w w1 e1 others Hrun Ho Hf; cbn [run] in Hrun.
  - injection Hrun as <- <-. now split.
  - destruct (step fuel c e w) as [[w' e']|] eqn:Hstep; [| discriminate].
    destruct (step_owns fuel c e w w' e' others Hstep Ho Hf) as [Ho' Hf'].
    exact (IH e' w' w1 e1 others Hrun Ho' Hf').
Qed.

Lemma owns_size (e : executor) (w : world) (others : gmap handle child) :
  owns e w others -> (size (procs w) <= S (size others))%nat.
Proof.
  unfold owns. destruct (m_state e).
  - intros ->. lia.
  - intros (h & c & _ & _ & Hnone & ->). rewrite map_size_insert_None by exact Hnone. lia.
  - intros (h & c & _ & _ & Hnone & ->). rewrite map_size_insert_None by exact Hnone. lia.
Qed.

(** ** [result] *)

(** [result] called once more, [n] times over; the value of the last
    call. *)
Fixpoint result_again (n : nat) (fuel : nat) (exit_code : option Z)
    (e : executor) (w : world) : option (world * executor * string * option Z) :=
  match n with
  | O => result fuel exit_code e w
  | S n' =>
      match result fuel exit_code e w with
      | None => None
      | Some (w1, e1, _, _) => result_again n' fuel exit_code e1 w1
      end
  end.

(** What [result] writes through its pointer. *)
Definition written (exit_code : option Z) (e : executor) : option Z :=
  match exit_code with
  | Some _ => Some (m_exit_code e)
  | None => None
  end.

Lemma result_idle (fuel : nat) (exit_code : option Z) (e : executor) (w : world) :
  m_state e = idle ->
  result fuel exit_code e w = Some (w, e, m_result e, written exit_code e).
Proof. intros H. unfold result. now rewrite (stop_idle fuel e w H). Qed.

Lemma result_again_idle (n : nat) (fuel : nat) (exit_code : option Z)
    (e : executor) (w : world) :
  m_state e = idle ->
  result_again n fuel exit_code e w = Some (w, e, m_result e, written exit_code e).
Proof.
  intros H. induction n as [|n IH]; cbn [result_again]; rewrite (result_idle _ _ _ _ H);
    [reflexivity | exact IH].
Qed.

(** C3. [result] on an executor whose polling loop ends (with any
    positive bound when the process has finished: the state is
    [finished]): the call returns what [stop] leaves, the text is the
    accumulated output (the one at hand when the process had already
    finished), the exit code, the status of the child the executor was
    in charge of, is written when a pointer is given, and every later
    call, any number of them and with any bound, returns the same text
    and the same exit code and changes nothing. *)
Theorem result_idempotent (fuel : nat) (exit_code : option Z) (e : executor) (w : world) :
  exits_within fuel e w ->
  exists w1 e1 out,
    stop fuel e w = Some (w1, e1)
    /\ result fuel exit_code e w = Some (w1, e1, out, written exit_code e1)
    /\ out = m_result e1
    /\ (m_state e = finished -> out = m_result e)
    /\ (forall others,
          owns e w others -> fresh w -> m_state e <> idle ->
          exists h, m_stream e = Some h /\ status_at w h = Some (m_exit_code e1))
    /\ (forall fuel' exit_code',
          result fuel' exit_code' e1 w1 = Some (w1, e1, out, written exit_code' e1))
    /\ (forall n fuel',
          result_again n fuel' exit_code e1 w1 = Some (w1, e1, out, written exit_code e1)).
Proof.
  intros Hex. destruct (stop_returns fuel e w Hex) as [[w1 e1] Hstop].
  destruct (stop_effect fuel e w w1 e1 Hstop) as (Hidle & _ & _ & _ & _ & _ & Hfin & _).
  exists w1, e1, (m_result e1).
  split; [exact Hstop |]. split; [unfold result; now rewrite Hstop |].
  split; [reflexivity |]. split; [exact Hfin |]. split; [| split].
  - intros others Ho Hf Hne.
    destruct (stop_owns fuel e w w1 e1 others Hstop Ho Hf) as (_ & _ & _ & Hstatus).
    exact (Hstatus Hne).
  - intros fuel' exit_code'. now apply result_idle.
  - intros n fuel'. now apply result_again_idle.
Qed.

(** ** A launch that fails, and a child that exits at once *)

(** A child that has closed its output without writing to it. *)
Definition silent (c : child) : Prop := pending c = [] /\ hangs c = false.

Lemma silent_child_result (fuel : nat) (command : string) (e : executor) (w : world)
    (others : gmap handle child) (c : child) (x : Z) :
  owns e w others -> fresh w -> exits_within fuel e w ->
  spawn w (Str.c_str command) = Some c -> silent c ->
  exists w1 e1 w2 e2,
    start fuel command e w = Some (w1, e1)
    /\ result fuel (Some x) e1 w1 = Some (w2, e2, "", Some (wait_status c))
    /\ m_state e2 = idle /\ procs w2 = others.
Proof.
  intros Ho Hf Hex Hsp [Hpend Hhang].
  destruct (start_effect fuel command e w others Ho Hf Hex)
    as (w0 & e0 & w1 & e1 & _ & Hstart & _ & _ & _ & _ & Hres & _ & Hl & Ho1 & _).
  rewrite Hsp in Hl. destruct Hl as (Hrun & h & Hstream & Hnone & Hprocs).
  unfold owns in Ho1. rewrite Hrun in Ho1.
  destruct Ho1 as (h' & c' & Hstream' & Hfd & _ & _).
  assert (h' = h) as -> by congruence.
  assert (procs w1 !! h = Some c) as Hc by (rewrite Hprocs; apply lookup_insert_eq).
  pose proof (ready_on_child e1 w1 h c Hrun Hfd Hc) as Hready.
  rewrite Hpend, Hhang in Hready.
  destruct Hex as [Hfuel _]. destruct fuel as [|fuel]; [lia |].
  eexists w1, e1, _, _. split; [exact Hstart |].
  unfold result, stop. rewrite Hrun. cbn [state_eqb stop_loop]. rewrite Hready.
  cbn [m_stream set_state]. rewrite Hstream. unfold pclose.
  change (procs (log (ev_read (m_fd e1) read_eof) w1)) with (procs w1).
  rewrite Hc. cbn. rewrite Hres. repeat split.
  rewrite Hprocs, delete_insert_eq. now apply delete_id.
Qed.

(** C7, as the code has it. When the launch fails, [start] returns
    with the executor idle, its accumulated output empty and its exit
    code -1, and nothing else is reported: [ready] answers true and
    [result] returns the empty text and -1. A child that is launched
    and exits at once without output gives the same empty text and the
    same idle executor; its exit code is the status [pclose] returns, so
    that the two outcomes are the same exactly when that status is
    -1. *)
Theorem launch_failure_result (fuel : nat) (command : string) (e : executor) (w : world)
    (others : gmap handle child) :
  owns e w others -> fresh w -> exits_within fuel e w ->
  spawn w (Str.c_str command) = None ->
  exists w1 e1,
    start fuel command e w = Some (w1, e1)
    /\ m_state e1 = idle /\ m_result e1 = "" /\ m_exit_code e1 = -1
    /\ procs w1 = others
    /\ ready e1 w1 = (w1, e1, true)
    /\ (forall fuel' x, result fuel' (Some x) e1 w1 = Some (w1, e1, "", Some (-1)))
    /\ (forall (w' : world) (c : child) (x : Z),
          owns e w' others -> fresh w' -> exits_within fuel e w' ->
          spawn w' (Str.c_str command) = Some c -> silent c ->
          exists w1' e1' w2' e2',
            start fuel command e w' = Some (w1', e1')
            /\ result fuel (Some x) e1' w1' = Some (w2', e2', "", Some (wait_status c))
            /\ m_state e2' = idle /\ procs w2' = others
            /\ (("", Some (wait_status c)) = ("", Some (-1)) <-> wait_status c = -1)).
Proof.
  intros Ho Hf Hex Hsp.
  destruct (start_effect fuel command e w others Ho Hf Hex)
    as (w0 & e0 & w1 & e1 & _ & Hstart & _ & _ & _ & _ & Hres & Hcode & Hl & _).
  rewrite Hsp in Hl. destruct Hl as (Hidle & _ & Hprocs).
  exists w1, e1. repeat split; try assumption.
  - apply ready_not_running. congruence.
  - intros fuel' x. rewrite (result_idle _ _ _ _ Hidle). cbn. now rewrite Hres, Hcode.
  - intros w' c x Ho' Hf' Hex' Hsp' Hsilent.
    destruct (silent_child_result fuel command e w' others c x Ho' Hf' Hex' Hsp' Hsilent)
      as (w1' & e1' & w2' & e2' & H1 & H2 & H3 & H4).
    exists w1', e1', w2', e2'. repeat split; try assumption; congruence.
Qed.

End LifeCycle.

(** ** The executor on concrete worlds *)

Module ExecutorExamples.
Import OS Executor ReadyFacts LifeCycle.

(** A world without open streams in which [popen] answers by [oracle]. *)
Definition quiet_world (oracle : string -> option child) : world :=
  World ∅ 0 oracle [] Static.zeroed true.

(** Nothing can be launched. *)
Definition no_launch : string -> option child := fun _ => None.

(** Every command is launched, writes nothing and exits with status 0. *)
Definition exits_at_once : string -> option child := fun _ => Some (Child [] false 0).

(** [echo hello] prints its line in one piece and exits with status 0. *)
Definition echo_hello : string -> option child :=
  fun command =>
    if String.eqb command "echo hello"
    then Some (Child [read_data ("hello" +:+ String Str.newline "")] false 0)
    else None.

(** What the caller of [executor(command).result(&exit_code)] sees. *)
Definition observe (fuel : nat) (command : string) (w : world) : option (string * option Z) :=
  match construct fuel command w with
  | None => None
  | Some (w1, e1) =>
      match result fuel (Some (-1)) e1 w1 with
      | None => None
      | Some (_, _, out, code) => Some (out, code)
      end
  end.

(** The scenario of the specification: the line and the exit code 0. *)
Example observe_echo_hello :
  observe 2 "echo hello" (quiet_world echo_hello)
  = Some ("hello" +:+ String Str.newline "", Some 0).
Proof. vm_compute. reflexivity. Qed.

(** With too small a bound the loop of [stop] is cut short. *)
Example observe_echo_hello_cut :
  observe 1 "echo hello" (quiet_world echo_hello) = None.
Proof. vm_compute. reflexivity. Qed.

(** C7, as stated, fails: the caller tells a failed launch from a
    process that exited at once without output by the exit code, -1 for
    the first and the status of the child, here 0, for the second. *)
Lemma failed_launch_distinguished :
  observe 1 "true" (quiet_world no_launch) = Some ("", Some (-1))
  /\ observe 1 "true" (quiet_world exits_at_once) = Some ("", Some 0)
  /\ observe 1 "true" (quiet_world no_launch)
     <> observe 1 "true" (quiet_world exits_at_once).
Proof. vm_compute. repeat split. discriminate. Qed.

Lemma owns_default (oracle : string -> option child) :
  owns default (quiet_world oracle) ∅.
Proof. reflexivity. Defined.

Lemma fresh_quiet_world (oracle : string -> option child) :
  fresh (quiet_world oracle).
Proof. unfold fresh. cbn. apply map_Forall_empty. Defined.

Lemma exits_within_default (oracle : string -> option child) :
  exits_within 1 default (quiet_world oracle).
Proof. split; [lia | discriminate]. Defined.

Lemma owns_nul : owns nul_executor nul_world ∅.
Proof. exists 0%nat, nul_child. repeat split. Defined.

Lemma fresh_nul : fresh nul_world.
Proof. unfold fresh. cbn. apply map_Forall_singleton. lia. Defined.

Lemma exits_within_nul : exits_within 2 nul_executor nul_world.
Proof.
  split; [lia |]. intros _. exists 0%nat, nul_child. repeat split. cbn. lia.
Defined.

Lemma ready_spec_example :
  m_fd nul_executor = fileno 0
  /\ procs nul_world !! 0%nat = Some nul_child
  /\ trace (ready nul_executor nul_world).1.1
     = [ev_read 0 (read_data (String Str.nul "a"))].
Proof.
  split; [reflexivity |]. split; [reflexivity |].
  destruct (ready_spec nul_executor nul_world) as [_ H].
  destruct (H eq_refl 0%nat nul_child eq_refl eq_refl) as [Htr _]. exact Htr.
Defined.

(** The executor of the example once it has seen the end of the stream. *)
Definition finished_executor : executor := set_state finished nul_executor.

Lemma exits_within_finished : exits_within 1 finished_executor nul_world.
Proof. split; [lia | discriminate]. Defined.

Lemma result_idempotent_witness :
  exits_within 1 finished_executor nul_world
  /\ exists w1 e1 out,
       result 1 (Some 0) finished_executor nul_world
       = Some (w1, e1, out, Some (m_exit_code e1))
       /\ out = m_result finished_executor
       /\ result_again 5 0 (Some 0) e1 w1 = Some (w1, e1, out, Some (m_exit_code e1)).
Proof.
  split; [exact exits_within_finished |].
  destruct (result_idempotent 1 (Some 0) finished_executor nul_world exits_within_finished)
    as (w1 & e1 & out & _ & Hres & _ & Hfin & _ & _ & Hagain).
  exists w1, e1, out.
  split; [exact Hres |]. split; [exact (Hfin eq_refl) | exact (Hagain 5%nat 0%nat)].
Defined.

Lemma launch_failure_result_witness :
  owns default (quiet_world no_launch) ∅ /\ fresh (quiet_world no_launch)
  /\ exits_within 1 default (quiet_world no_launch)
  /\ no_launch (Str.c_str "zenity") = None
  /\ exists w1 e1,
       start 1 "zenity" default (quiet_world no_launch) = Some (w1, e1)
       /\ m_state e1 = idle /\ m_result e1 = "" /\ m_exit_code e1 = -1.
Proof.
  split; [exact (owns_default no_launch) |].
  split; [exact (fresh_quiet_world no_launch) |].
  split; [exact (exits_within_default no_launch) |].
  split; [reflexivity |].
  destruct (launch_failure_result 1 "zenity" default (quiet_world no_launch) ∅
              (owns_default no_launch) (fresh_quiet_world no_launch)
              (exits_within_default no_launch) eq_refl)
    as (w1 & e1 & Hstart & Hidle & Hres & Hcode & _).
  exists w1, e1. now repeat split.
Defined.

End ExecutorExamples.

(** ** The dialog base class: running a command to its end *)

Module ExecuteFacts.
Import OS Static Executor LifeCycle Dialog.

(** The exit code [execute] reports for a command, given the oracle of
    [popen]: the status of the child, or the -1 that [start] leaves when
    the launch fails. *)
Definition launch_status (oracle : string -> option child) (command : string) : Z :=
  match oracle (Str.c_str command) with
  | Some c => wait_status c
  | None => -1
  end.

(** The child a command launches does not hang and is drained within
    [fuel] calls of [ready]. *)
Definition launch_exits (fuel : nat) (oracle : string -> option child) (command : string)
  : Prop :=
  (1 <= fuel)%nat
  /\ forall c, oracle (Str.c_str command) = Some c ->
               hangs c = false /\ (length (pending c) < fuel)%nat.

(** What [execute] writes to [std::cerr] before it does anything else. *)
Definition verbose_line (w : world) (command : string) : list event :=
  if flags is_verbose w then [ev_cerr ("pfd: " +:+ command)] else [].

Lemma execute_spec (fuel : nat) (command : string) (x : Z) (w : world) :
  fresh w -> launch_exits fuel (spawn w) command ->
  exists w3 out,
    execute fuel command (Some x) w = Some (w3, out, Some (launch_status (spawn w) command))
    /\ same_statics w w3 /\ procs w3 = procs w /\ fresh w3
    /\ exists stream tr,
         trace w3 = trace w ++ verbose_line w command
                    ++ ev_popen (Str.c_str command) stream :: tr.
Proof.
  intros Hf [Hfuel Hexit]. unfold execute.
  set (w0 := if flags is_verbose w then cerr ("pfd: " +:+ command) w else w).
  assert (procs w0 = procs w /\ spawn w0 = spawn w /\ same_statics w w0
          /\ next_stream w0 = next_stream w
          /\ trace w0 = trace w ++ verbose_line w command) as (Hp0 & Hsp0 & Hst0 & Hn0 & Htr0).
  { unfold w0, verbose_line. destruct (flags is_verbose w); cbn; repeat split.
    now rewrite app_nil_r. }
  assert (fresh w0) as Hf0 by (unfold fresh in *; now rewrite Hp0, Hn0).
  assert (owns default w0 (procs w)) as Ho0 by exact Hp0.
  assert (exits_within fuel default w0) as Hex0 by (split; [exact Hfuel | discriminate]).
  destruct (start_effect fuel command default w0 (procs w) Ho0 Hf0 Hex0)
    as (w1 & e1 & w2 & e2 & Hstop0 & Hstart & _ & _ & _ & Htr2 & Hres & Hcode & Hl & Ho2 & Hf2 & _).
  rewrite (stop_idle fuel default w0 eq_refl) in Hstop0. injection Hstop0 as <- <-.
  unfold Executor.construct. rewrite Hstart. cbn [mbind option_bind].
  assert (same_statics w0 w2) as Hst2.
  { unfold start in Hstart. rewrite (stop_idle fuel default w0 eq_refl) in Hstart.
    injection Hstart as Hlaunch. pose proof (launch_effect command default w0) as Hle.
    rewrite Hlaunch in Hle. apply Hle. }
  assert (exits_within fuel e2 w2) as Hex2.
  { split; [exact Hfuel |]. intros Hrun. rewrite Hsp0 in Hl.
    destruct (spawn w (Str.c_str command)) as [c|] eqn:Hsp.
    - destruct Hl as (_ & h & Hstream & _ & Hprocs).
      unfold owns in Ho2. rewrite Hrun in Ho2.
      destruct Ho2 as (h' & c' & Hstream' & Hfd & _ & _).
      assert (h' = h) as -> by congruence.
      exists h, c. destruct (Hexit c eq_refl) as [Hh Hlen].
      repeat split; try assumption. rewrite Hprocs. apply lookup_insert_eq.
    - destruct Hl as (Hidle & _). congruence. }
  destruct (stop_returns fuel e2 w2 Hex2) as [[w3 e3] Hstop].
  destruct (stop_effect fuel e2 w2 w3 e3 Hstop)
    as (Hidle3 & Hst3 & _ & _ & _ & Hsame & _ & Htr3).
  destruct (stop_owns fuel e2 w2 w3 e3 (procs w) Hstop Ho2 Hf2) as (Hp3 & _ & Hf3 & Hstatus).
  unfold result. rewrite Hstop. cbn [mbind option_bind].
  unfold Executor.destroy. rewrite (stop_idle fuel e3 w3 Hidle3). cbn [mbind option_bind].
  exists w3, (m_result e3).
  assert (m_exit_code e3 = launch_status (spawn w) command) as ->.
  { unfold launch_status. rewrite Hsp0 in Hl.
    destruct (spawn w (Str.c_str command)) as [c|] eqn:Hsp.
    - destruct Hl as (Hrun & h & Hstream & _ & Hprocs).
      destruct Hstatus as (h' & Hstream' & Hst'); [congruence |].
      assert (h' = h) as -> by congruence.
      unfold status_at in Hst'. rewrite Hprocs, lookup_insert_eq in Hst'.
      cbn in Hst'. congruence.
    - destruct Hl as (Hidle & _). destruct (Hsame Hidle) as [_ ->]. exact Hcode. }
  split; [reflexivity |].
  split; [eauto using same_statics_trans |].
  split; [exact Hp3 |]. split; [exact Hf3 |].
  destruct (m_state e2) eqn:Hs2.
  - destruct (Hsame eq_refl) as [-> _]. exists (m_stream e2), [].
    now rewrite Htr2, Htr0, <- app_assoc.
  - destruct Htr3 as (tr & status & _ & Htr3 & _); [discriminate |].
    exists (m_stream e2), (tr ++ [ev_pclose (m_stream e2) status]).
    rewrite Htr3, Htr2, Htr0. now rewrite <- !app_assoc.
  - destruct Htr3 as (tr & status & _ & Htr3 & _); [discriminate |].
    exists (m_stream e2), (tr ++ [ev_pclose (m_stream e2) status]).
    rewrite Htr3, Htr2, Htr0. now rewrite <- !app_assoc.
Qed.

End ExecuteFacts.

(** ** Detection of the helper programs *)

Module DetectionFacts.
Import OS Static Executor LifeCycle Dialog ExecuteFacts.

(** The command line [check_program] runs. *)
Definition probe_command (program : string) : string :=
  "which " +:+ program +:+ " 2>/dev/null".

(** The exit code of the probe of a program. *)
Definition probe_status (oracle : string -> option child) (program : string) : Z :=
  launch_status oracle (probe_command program).

(** The helpers the constructor of [dialog] looks for, with their
    flags, in the order of preference, and the name used when none of
    them is there. *)
Definition known_helpers : list (flag * string) :=
  [ (has_zenity, "zenity"); (has_matedialog, "matedialog");
    (has_qarma, "qarma"); (has_kdialog, "kdialog") ].

Definition fallback : string := "echo".

(** Helper selection as the specification words it: the first helper
    of the list that was detected, the fallback when there is none. *)
Definition first_detected (w : world) : string :=
  match find (fun p => flags p.1 w) known_helpers with
  | Some p => p.2
  | None => fallback
  end.

Definition probes_exit (fuel : nat) (oracle : string -> option child) : Prop :=
  forall f p, In (f, p) known_helpers -> launch_exits fuel oracle (probe_command p).

Lemma check_program_spec (fuel : nat) (program : string) (w : world) :
  fresh w -> launch_exits fuel (spawn w) (probe_command program) ->
  exists w1,
    check_program fuel program w = Some (w1, probe_status (spawn w) program =? 0)
    /\ same_statics w w1 /\ procs w1 = procs w /\ fresh w1
    /\ exists stream tr,
         trace w1 = trace w ++ verbose_line w (probe_command program)
                    ++ ev_popen (Str.c_str (probe_command program)) stream :: tr.
Proof.
  intros Hf Hex.
  destruct (execute_spec fuel (probe_command program) (-1) w Hf Hex)
    as (w1 & out & Hexec & Hst & Hp & Hf1 & Htr).
  exists w1. unfold check_program. fold (probe_command program).
  rewrite Hexec. cbn [mbind option_bind]. repeat split; try assumption; apply Hst.
Qed.

(** One line of the constructor: a probe and the assignment of its
    flag. *)
Lemma probe_step (fuel : nat) (f : flag) (program : string) (w : world)
    (oracle : string -> option child) :
  fresh w -> spawn w = oracle -> launch_exits fuel oracle (probe_command program) ->
  exists w1,
    check_program fuel program w = Some (w1, probe_status oracle program =? 0)
    /\ fresh (set_flags f (probe_status oracle program =? 0) w1)
    /\ spawn w1 = oracle /\ procs w1 = procs w /\ analysed w1 = analysed w
    /\ static_flags w1 = static_flags w.
Proof.
  intros Hf <- Hex.
  destruct (check_program_spec fuel program w Hf Hex) as (w1 & Hc & Hst & Hp & Hf1 & _).
  exists w1. destruct Hst as (Hsp & Hfl & Han). now repeat split.
Qed.

(** The constructor of [dialog] when it scans: the four flags hold the
    outcome of the four probes. *)
Lemma construct_scan (fuel : nat) (resync : bool) (w : world) :
  fresh w -> probes_exit fuel (spawn w) -> resync || negb (analysed w) = true ->
  exists w1,
    Dialog.construct fuel resync w = Some (w1, Dialog.Build default)
    /\ analysed w1 = true /\ spawn w1 = spawn w /\ procs w1 = procs w /\ fresh w1
    /\ flags is_verbose w1 = flags is_verbose w
    /\ flags has_zenity w1 = (probe_status (spawn w) "zenity" =? 0)
    /\ flags has_matedialog w1 = (probe_status (spawn w) "matedialog" =? 0)
    /\ flags has_qarma w1 = (probe_status (spawn w) "qarma" =? 0)
    /\ flags has_kdialog w1 = (probe_status (spawn w) "kdialog" =? 0).
Proof.
  intros Hf Hex Hscan. unfold Dialog.construct. rewrite Hscan.
  assert (forall f p, In (f, p) known_helpers ->
                      launch_exits fuel (spawn w) (probe_command p)) as Hin by exact Hex.
  destruct (probe_step fuel has_zenity "zenity" w (spawn w) Hf eq_refl)
    as (w1 & -> & Hf1 & Hsp1 & Hp1 & Han1 & Hfl1); [apply (Hin has_zenity); cbn; tauto |].
  cbn [mbind option_bind].
  destruct (probe_step fuel has_matedialog "matedialog" _ (spawn w) Hf1 Hsp1)
    as (w2 & -> & Hf2 & Hsp2 & Hp2 & Han2 & Hfl2); [apply (Hin has_matedialog); cbn; tauto |].
  cbn [mbind option_bind].
  destruct (probe_step fuel has_qarma "qarma" _ (spawn w) Hf2 Hsp2)
    as (w3 & -> & Hf3 & Hsp3 & Hp3 & Han3 & Hfl3); [apply (Hin has_qarma); cbn; tauto |].
  cbn [mbind option_bind].
  destruct (probe_step fuel has_kdialog "kdialog" _ (spawn w) Hf3 Hsp3)
    as (w4 & -> & Hf4 & Hsp4 & Hp4 & Han4 & Hfl4); [apply (Hin has_kdialog); cbn; tauto |].
  cbn [mbind option_bind].
  eexists. split; [reflexivity |].
  cbn in Hp2, Hp3, Hp4, Hfl2, Hfl3, Hfl4.
  unfold flags. cbn. rewrite Hfl4, Hfl3, Hfl2, Hfl1. cbn.
  repeat split; try congruence. exact Hf4.
Qed.

(** The constructor of [dialog] when the scan was made before. *)
Lemma construct_cached (fuel : nat) (w : world) :
  analysed w = true -> Dialog.construct fuel false w = Some (w, Dialog.Build default).
Proof. intros H. unfold Dialog.construct. now rewrite H. Qed.

(** [desktop_helper] picks the first detected helper of the list. *)
Lemma desktop_helper_first_detected (w : world) : desktop_helper w = first_detected w.
Proof.
  unfold desktop_helper, first_detected, flags.
  destruct (static_flags w) as [v z m q k].
  destruct z, m, q, k; reflexivity.
Qed.

(** C8. A probe runs the command [which <program> 2>/dev/null] and
    answers true exactly when its exit code is 0, hence false for a
    program [which] does not find. The scan of the constructor stores
    the answers of the four probes in the four flags, and
    [desktop_helper] then names the first detected helper in the order
    zenity, matedialog, qarma, kdialog, or [echo] when every probe
    failed. *)
Theorem helper_detection (fuel : nat) (resync : bool) (w : world) :
  fresh w -> probes_exit fuel (spawn w) -> resync || negb (analysed w) = true ->
  (forall program,
      launch_exits fuel (spawn w) (probe_command program) ->
      exists w1 stream tr,
        check_program fuel program w
        = Some (w1, probe_status (spawn w) program =? 0)
        /\ trace w1 = trace w ++ verbose_line w (probe_command program)
                      ++ ev_popen (Str.c_str ("which " +:+ program +:+ " 2>/dev/null")) stream
                         :: tr
        /\ (probe_status (spawn w) program <> 0 ->
            check_program fuel program w = Some (w1, false)))
  /\ exists w1,
       Dialog.construct fuel resync w = Some (w1, Dialog.Build default)
       /\ (forall f p, In (f, p) known_helpers ->
                       flags f w1 = (probe_status (spawn w) p =? 0))
       /\ desktop_helper w1 = first_detected w1
       /\ ((forall f p, In (f, p) known_helpers -> probe_status (spawn w) p <> 0) ->
           desktop_helper w1 = "echo").
Proof.
  intros Hf Hex Hscan. split.
  - intros program Hprog.
    destruct (check_program_spec fuel program w Hf Hprog)
      as (w1 & Hc & _ & _ & _ & stream & tr & Htr).
    exists w1, stream, tr. repeat split; try assumption.
    intros Hne. rewrite Hc. now apply Z.eqb_neq in Hne as ->.
  - destruct (construct_scan fuel resync w Hf Hex Hscan)
      as (w1 & Hc & _ & _ & _ & _ & _ & Hz & Hm & Hq & Hk).
    exists w1. split; [exact Hc |].
    assert (forall f p, In (f, p) known_helpers ->
                        flags f w1 = (probe_status (spawn w) p =? 0)) as Hflags.
    { intros f p Hin. cbn in Hin.
      destruct Hin as [[= <- <-] | [[= <- <-] | [[= <- <-] | [[= <- <-] | []]]]];
        assumption. }
    split; [exact Hflags |]. split; [apply desktop_helper_first_detected |].
    intros Habsent. unfold desktop_helper.
    rewrite Hz, Hm, Hq, Hk.
    rewrite !(proj2 (Z.eqb_neq _ _)); [reflexivity | ..].
    + apply (Habsent has_kdialog); cbn; tauto.
    + apply (Habsent has_qarma); cbn; tauto.
    + apply (Habsent has_matedialog); cbn; tauto.
    + apply (Habsent has_zenity); cbn; tauto.
Qed.

End DetectionFacts.

(** ** The dialog variants *)

Module VariantFacts.
Import OS Static Executor LifeCycle Dialog ExecuteFacts DetectionFacts Variants.
Import Str StrFacts QuoteFacts.

(** The constructor of [dialog] always leaves [m_async] as it was
    default-constructed. *)
Lemma construct_dialog (fuel : nat) (resync : bool) (w w1 : world) (d : dialog) :
  Dialog.construct fuel resync w = Some (w1, d) -> d = Dialog.Build default.
Proof.
  unfold Dialog.construct. destruct (resync || negb (analysed w)).
  - destruct (check_program fuel "zenity" w) as [[w' b1]|]; [| discriminate].
    cbn [mbind option_bind].
    destruct (check_program fuel "matedialog" _) as [[w'' b2]|]; [| discriminate].
    cbn [mbind option_bind].
    destruct (check_program fuel "qarma" _) as [[w''' b3]|]; [| discriminate].
    cbn [mbind option_bind].
    destruct (check_program fuel "kdialog" _) as [[w'''' b4]|]; [| discriminate].
    cbn [mbind option_bind]. now intros [= _ <-].
  - now intros [= _ <-].
Qed.

(** [m_async.start(command)] at the end of a constructor: the launch is
    the only system call, and nothing is written to [std::cerr]. *)
Lemma start_default (fuel : nat) (command : string) (w : world) :
  exists w2 e2,
    Executor.start fuel command default w = Some (w2, e2)
    /\ trace w2 = trace w ++ [ev_popen (c_str command) (m_stream e2)]
    /\ same_statics w w2.
Proof.
  unfold Executor.start. rewrite (stop_idle fuel default w eq_refl).
  pose proof (launch_effect command default w) as Hl.
  destruct (launch command default w) as [w2 e2].
  exists w2, e2. split; [reflexivity |]. split; apply Hl.
Qed.

(** What the three constructors have in common, once the base-class
    constructor has returned in the world [w1]. *)
Definition starts (r : option (world * dialog)) (w1 : world) (command : string) : Prop :=
  exists w2 d,
    r = Some (w2, d)
    /\ trace w2 = trace w1 ++ [ev_popen (c_str command) (m_stream (m_async d))]
    /\ same_statics w1 w2.

Ltac constructor_starts Hc :=
  rewrite Hc; cbn [mbind option_bind];
  rewrite (construct_dialog _ _ _ _ _ Hc); cbn [m_async];
  match goal with
  | |- context [Executor.start ?fuel ?command default ?w1] =>
      destruct (start_default fuel command w1) as (w2 & e2 & -> & Htr & Hst);
      exists w2, (Dialog.Build e2);
      split; [reflexivity | split; [exact Htr | exact Hst]]
  end.

Lemma file_dialog_starts (fuel : nat) (in_type : type)
    (title default_path filter : string) (multiselect : bool) (w w1 : world) (d0 : dialog) :
  Dialog.construct fuel false w = Some (w1, d0) ->
  starts (file_dialog fuel in_type title default_path filter multiselect w) w1
         (file_dialog_command w1 in_type title default_path filter multiselect).
Proof. intros Hc. unfold file_dialog. constructor_starts Hc. Qed.

Lemma notify_starts (fuel : nat) (title message : string) (i : icon)
    (w w1 : world) (d0 : dialog) :
  Dialog.construct fuel false w = Some (w1, d0) ->
  starts (notify fuel title message i w) w1 (notify_command w1 title message i).
Proof. intros Hc. unfold notify. constructor_starts Hc. Qed.

Lemma message_starts (fuel : nat) (title text : string) (b : buttons) (i : icon)
    (w w1 : world) (d0 : dialog) :
  Dialog.construct fuel false w = Some (w1, d0) ->
  starts (message fuel title text b i w) w1 (message_command w1 title text b i).
Proof. intros Hc. unfold message. constructor_starts Hc. Qed.

(** The names [desktop_helper] can return. *)
Lemma desktop_helper_cases (w : world) :
  (is_zenity w = true /\ In (desktop_helper w) ["zenity"; "matedialog"; "qarma"])
  \/ (is_zenity w = false /\ is_kdialog w = true /\ desktop_helper w = "kdialog")
  \/ (is_zenity w = false /\ is_kdialog w = false /\ desktop_helper w = "echo").
Proof.
  unfold is_zenity, is_kdialog, desktop_helper, flags.
  destruct (static_flags w) as [v z m q k]. destruct z, m, q, k; cbn; tauto.
Qed.

(** C10. A file dialog (the open, save and folder variants alike)
    starts the command that [file_dialog_command] builds from the flags
    the base-class constructor leaves. With a helper of the zenity
    family (zenity, matedialog, qarma) the name of the helper is followed
    by the file-selection arguments; otherwise, with kdialog alone or no
    helper at all, the command is the bare name [kdialog] or [echo]. *)
Theorem file_dialog_arguments (fuel : nat) (in_type : type)
    (title default_path filter : string) (multiselect : bool) (w w1 : world) (d0 : dialog) :
  Dialog.construct fuel false w = Some (w1, d0) ->
  let command := file_dialog_command w1 in_type title default_path filter multiselect in
  (exists w2 d,
      file_dialog fuel in_type title default_path filter multiselect w = Some (w2, d)
      /\ trace w2 = trace w1 ++ [ev_popen (c_str command) (m_stream (m_async d))])
  /\ (is_zenity w1 = true ->
      In (desktop_helper w1) ["zenity"; "matedialog"; "qarma"]
      /\ command
         = desktop_helper w1
           +:+ " --file-selection --filename=" +:+ shell_quote default_path
           +:+ " --title " +:+ shell_quote title
           +:+ " --file-filter=" +:+ shell_quote filter
           +:+ (if multiselect then " --multiple" else "")
           +:+ (if type_eqb in_type save then " --save" else ""))
  /\ (is_zenity w1 = false ->
      command = desktop_helper w1
      /\ c_str command = command
      /\ command = if is_kdialog w1 then "kdialog" else "echo").
Proof.
  intros Hc command. split; [| split].
  - destruct (file_dialog_starts fuel in_type title default_path filter multiselect
                w w1 d0 Hc) as (w2 & d & Hfd & Htr & _).
    now exists w2, d.
  - intros Hz. split.
    + destruct (desktop_helper_cases w1) as [[_ H] | [[H _] | [H _]]]; [exact H | congruence ..].
    + unfold command, file_dialog_command. rewrite Hz.
      destruct (type_eqb in_type save);
        rewrite ?append_assoc, ?append_nil_r; reflexivity.
  - intros Hz. unfold command, file_dialog_command. rewrite Hz.
    split; [reflexivity |].
    destruct (desktop_helper_cases w1) as [[H _] | [(_ & -> & ->) | (_ & -> & ->)]];
      [congruence | now split ..].
Qed.

(** *** Message boxes *)

(** The command of a yes/no/cancel warning with a helper of the zenity
    family, with kdialog, and without helper. *)
Lemma message_command_zenity (w : world) (title text : string) :
  is_zenity w = true ->
  message_command w title text yes_no_cancel warning
  = desktop_helper w
    +:+ (" --list --column '' --hide-header 'Yes' 'No' --title " +:+ shell_quote title
         +:+ (" --width 300 --height 0 --text " +:+ shell_quote text
              +:+ " --icon-name=dialog-warning")).
Proof.
  intros Hz. unfold message_command. rewrite Hz. now rewrite append_assoc.
Qed.

Lemma message_command_kdialog (w : world) (title text : string) :
  is_zenity w = false -> is_kdialog w = true ->
  message_command w title text yes_no_cancel warning
  = "kdialog --warningyesnocancel " +:+ shell_quote text
    +:+ " --title " +:+ shell_quote title.
Proof.
  intros Hz Hk. unfold message_command. rewrite Hz, Hk.
  destruct (desktop_helper_cases w) as [[H _] | [(_ & _ & ->) | (_ & H & _)]];
    [congruence | reflexivity | congruence].
Qed.

Lemma message_command_fallback (w : world) (title text : string) (b : buttons) (i : icon) :
  is_zenity w = false -> is_kdialog w = false ->
  message_command w title text b i = "echo".
Proof.
  intros Hz Hk. unfold message_command. rewrite Hz, Hk.
  destruct (desktop_helper_cases w) as [[H _] | [(_ & H & _) | (_ & _ & ->)]];
    [congruence | congruence | reflexivity].
Qed.

Lemma needle_yesnocancel :
  "yesnocancel" <> "" /\ occursb squote "yesnocancel" = false
  /\ occursb backslash "yesnocancel" = false.
Proof. repeat split. discriminate. Qed.

(** With a helper of the zenity family the word [yesnocancel] is in the
    command only if the caller put it in the title or in the text. *)
Lemma message_command_zenity_token (w : world) (title text : string) :
  is_zenity w = true ->
  containsb "yesnocancel" (message_command w title text yes_no_cancel warning)
  = containsb "yesnocancel" title || containsb "yesnocancel" text.
Proof.
  intros Hz. rewrite (message_command_zenity w title text Hz).
  destruct needle_yesnocancel as (Hne & Hq & Hb).
  rewrite <- (append_assoc (desktop_helper w)).
  rewrite (containsb_around_shell_quote "yesnocancel" _ title _ Hne Hq Hb).
  rewrite (containsb_around_shell_quote "yesnocancel" _ text _ Hne Hq Hb).
  assert (containsb "yesnocancel"
            (desktop_helper w +:+ " --list --column '' --hide-header 'Yes' 'No' --title ")
          = false) as ->.
  { destruct (desktop_helper_cases w) as [[_ H] | [[H _] | [H _]]]; [| congruence ..].
    cbn in H. destruct H as [<- | [<- | [<- | []]]]; reflexivity. }
  cbn [orb]. rewrite orb_false_r. reflexivity.
Qed.

(** C6, as the code has it. The command of a message box with the
    buttons yes/no/cancel and the warning icon: with kdialog it holds
    the single option [--warningyesnocancel], and so both the word
    [yesnocancel] and the word [warning]; with a helper of the zenity
    family the buttons are the two rows of a list, the word
    [yesnocancel] is absent unless the title or the text holds it, and
    the icon is [--icon-name=dialog-warning]; without helper the command
    is the bare [echo]. *)
Theorem message_yes_no_cancel_warning (w : world) (title text : string) :
  let command := message_command w title text yes_no_cancel warning in
  (is_zenity w = false -> is_kdialog w = true ->
     command = "kdialog --warningyesnocancel " +:+ shell_quote text
               +:+ " --title " +:+ shell_quote title
     /\ contains "yesnocancel" command /\ contains "warning" command)
  /\ (is_zenity w = true ->
      command = desktop_helper w
                +:+ (" --list --column '' --hide-header 'Yes' 'No' --title "
                     +:+ shell_quote title
                     +:+ (" --width 300 --height 0 --text " +:+ shell_quote text
                          +:+ " --icon-name=dialog-warning"))
      /\ containsb "yesnocancel" command
         = containsb "yesnocancel" title || containsb "yesnocancel" text
      /\ contains "--icon-name=dialog-warning" command)
  /\ (is_zenity w = false -> is_kdialog w = false -> command = "echo").
Proof.
  intros command. split; [| split].
  - intros Hz Hk. unfold command. rewrite (message_command_kdialog w title text Hz Hk).
    split; [reflexivity |].
    split.
    + apply (contains_app_l "yesnocancel" "kdialog --warningyesnocancel ").
      apply containsb_spec. reflexivity.
    + apply (contains_app_l "warning" "kdialog --warningyesnocancel ").
      apply containsb_spec. reflexivity.
  - intros Hz. split; [apply (message_command_zenity w title text Hz) |].
    split; [apply (message_command_zenity_token w title text Hz) |].
    unfold command. rewrite (message_command_zenity w title text Hz).
    do 5 apply contains_app_r. apply containsb_spec. reflexivity.
  - intros Hz Hk. apply (message_command_fallback w title text _ _ Hz Hk).
Qed.

(** *** Notifications *)

Lemma needle_question :
  "question" <> "" /\ occursb squote "question" = false
  /\ occursb backslash "question" = false /\ occursb newline "question" = false.
Proof. repeat split. discriminate. Qed.

Lemma notify_command_zenity (w : world) (title message : string) :
  is_zenity w = true ->
  notify_command w title message info
  = (desktop_helper w +:+ " --notification --window-icon information --text ")
    +:+ shell_quote (title +:+ String newline message).
Proof.
  intros Hz. unfold notify_command. rewrite Hz. now rewrite append_assoc.
Qed.

Lemma notify_command_kdialog (w : world) (title message : string) :
  is_zenity w = false -> is_kdialog w = true ->
  notify_command w title message info
  = "kdialog --icon information --title " +:+ shell_quote title
    +:+ (" --passivepopup " +:+ shell_quote message +:+ " 5").
Proof.
  intros Hz Hk. unfold notify_command. rewrite Hz, Hk.
  destruct (desktop_helper_cases w) as [[H _] | [(_ & _ & ->) | (_ & H & _)]];
    [congruence | reflexivity | congruence].
Qed.

(** The word [question] is in the command of an information
    notification only if the caller put it in the title or in the
    message. *)
Lemma notify_command_info_token (w : world) (title message : string) :
  containsb "question" (notify_command w title message info)
  = (is_zenity w || is_kdialog w)
    && (containsb "question" title || containsb "question" message).
Proof.
  destruct needle_question as (Hne & Hq & Hb & Hn).
  destruct (is_zenity w) eqn:Hz; [| destruct (is_kdialog w) eqn:Hk].
  - rewrite (notify_command_zenity w title message Hz).
    rewrite (containsb_before_shell_quote "question" _ _ Hne Hq Hb).
    rewrite (containsb_sep "question" newline title message Hn).
    assert (containsb "question"
              (desktop_helper w +:+ " --notification --window-icon information --text ")
            = false) as ->.
    { destruct (desktop_helper_cases w) as [[_ H] | [[H _] | [H _]]]; [| congruence ..].
      cbn in H. destruct H as [<- | [<- | [<- | []]]]; reflexivity. }
    reflexivity.
  - rewrite (notify_command_kdialog w title message Hz Hk).
    rewrite (containsb_around_shell_quote "question" _ title _ Hne Hq Hb).
    rewrite (containsb_around_shell_quote "question" _ message _ Hne Hq Hb).
    cbn [orb andb]. now rewrite orb_false_r.
  - unfold notify_command. rewrite Hz, Hk.
    destruct (desktop_helper_cases w) as [[H _] | [(_ & H & _) | (_ & _ & ->)]];
      [congruence | congruence | reflexivity].
Qed.

(** C9. A notification asked for with the question icon is the
    notification asked for with the information icon: the constructor
    does the same thing in every world, the command is the same, the
    icon name that goes into a command is never [question], and the
    word [question] is in the command only if it is in the title or in
    the message. *)
Theorem notify_question_is_info (fuel : nat) (title message : string) (w : world) :
  notify fuel title message question w = notify fuel title message info w
  /\ notify_command w title message question = notify_command w title message info
  /\ (forall i, get_icon_name (notify_icon i) <> "question")
  /\ containsb "question" (notify_command w title message question)
     = (is_zenity w || is_kdialog w)
       && (containsb "question" title || containsb "question" message).
Proof.
  split; [reflexivity |]. split; [reflexivity |]. split.
  - intros i. destruct i; discriminate.
  - change (notify_command w title message question)
      with (notify_command w title message info).
    apply notify_command_info_token.
Qed.

End VariantFacts.

(** ** The dialogs on concrete worlds *)

Module VariantExamples.
Import OS Static Executor LifeCycle Dialog ExecuteFacts DetectionFacts Variants.
Import Str StrFacts VariantFacts ExecutorExamples.

(** A world whose scan has been made, with the given flags, in which
    every command exits at once. *)
Definition scanned (f : flag_array) : world :=
  World ∅ 0 exits_at_once [] f true.

Definition only_zenity : flag_array := Flags false true false false false.
Definition only_kdialog : flag_array := Flags false false false false true.
Definition verbose_zenity : flag_array := Flags true true false false false.

(** C6, as stated, fails with zenity: the command of a yes/no/cancel
    warning does not hold the word [yesnocancel]. *)
Lemma zenity_message_without_yesnocancel :
  message_command (scanned only_zenity) "Title" "Text" yes_no_cancel warning
  = "zenity --list --column '' --hide-header 'Yes' 'No' --title 'Title' --width 300 --height 0 --text 'Text' --icon-name=dialog-warning"
  /\ ~ contains "yesnocancel"
        (message_command (scanned only_zenity) "Title" "Text" yes_no_cancel warning).
Proof.
  split; [reflexivity |]. intros H. apply containsb_spec in H. discriminate H.
Qed.

Lemma message_yes_no_cancel_warning_witness :
  is_zenity (scanned only_kdialog) = false /\ is_kdialog (scanned only_kdialog) = true
  /\ message_command (scanned only_kdialog) "Title" "Text" yes_no_cancel warning
     = "kdialog --warningyesnocancel 'Text' --title 'Title'".
Proof.
  split; [reflexivity |]. split; [reflexivity |].
  destruct (message_yes_no_cancel_warning (scanned only_kdialog) "Title" "Text")
    as [H _].
  destruct (H eq_refl eq_refl) as [Hc _]. exact Hc.
Defined.

(** The trace a constructor leaves. *)
Definition trace_of (r : option (world * dialog)) : option (list event) :=
  match r with
  | Some (w, _) => Some (trace w)
  | None => None
  end.

(** C5. With the verbose flag set and zenity detected, the message
    box, the notification and the file picker start their command
    without a line on [std::cerr]: the launch is the only event. The
    flag is honoured by [execute] alone, on which only the probes of the
    helper programs rely: run through it, a command is preceded by its
    line. *)
Theorem verbose_dialog_commands_not_logged :
  flags is_verbose (scanned verbose_zenity) = true
  /\ trace_of (message 1 "Title" "Text" ok info (scanned verbose_zenity))
     = Some [ev_popen "zenity --info --title 'Title' --width 300 --height 0 --text 'Text' --icon-name=dialog-information" (Some 0%nat)]
  /\ trace_of (notify 1 "Title" "Text" info (scanned verbose_zenity))
     = Some [ev_popen ("zenity --notification --window-icon information --text 'Title"
                       +:+ String newline "Text'") (Some 0%nat)]
  /\ trace_of (open_file 1 "Title" "" "" false (scanned verbose_zenity))
     = Some [ev_popen "zenity --file-selection --filename='' --title 'Title' --file-filter=''" (Some 0%nat)]
  /\ (match execute 1 "which zenity 2>/dev/null" (Some (-1)) (scanned verbose_zenity) with
      | Some (w, _, _) => Some (trace w)
      | None => None
      end)
     = Some [ev_cerr "pfd: which zenity 2>/dev/null";
             ev_popen "which zenity 2>/dev/null" (Some 0%nat);
             ev_read 0 read_eof;
             ev_pclose (Some 0%nat) 0].
Proof. vm_compute. repeat split. Qed.

(** A system on which [which] finds kdialog alone: its probe prints
    the path and exits with status 0, the others exit with status 1 (the
    value 256 for [pclose]). *)
Definition which_kdialog : string -> option child :=
  fun command =>
    if String.eqb command "which kdialog 2>/dev/null"
    then Some (Child [read_data ("/usr/bin/kdialog" +:+ String newline "")] false 0)
    else Some (Child [] false 256).

(** A system on which [which] finds none of the helpers. *)
Definition which_nothing : string -> option child :=
  fun _ => Some (Child [] false 256).

Definition unscanned (oracle : string -> option child) : world :=
  World ∅ 0 oracle [] zeroed false.

(** After [settings::verbose(true)] on a process that has not scanned
    yet, the scan runs inside that call, before the flag is set: neither
    the probes nor the message box that follows write a line. *)
Example verbose_then_message_logs_nothing :
  match verbose 2 true (unscanned which_kdialog) with
  | Some w =>
      match message 2 "Title" "Text" ok info w with
      | Some (w1, _) =>
          Some (flags is_verbose w1,
                existsb (fun ev => match ev with ev_cerr _ => true | _ => false end)
                        (trace w1),
                last (trace w1))
      | None => None
      end
  | None => None
  end
  = Some (true, false, Some (ev_popen "kdialog --msgbox 'Text' --title 'Title'" (Some 4%nat))).
Proof. vm_compute. reflexivity. Qed.

Lemma file_dialog_arguments_witness :
  Dialog.construct 1 false (scanned only_kdialog)
  = Some (scanned only_kdialog, Dialog.Build default)
  /\ file_dialog_command (scanned only_kdialog) save "Title" "/tmp" "*.txt" false = "kdialog"
  /\ exists w2 d,
       save_file 1 "Title" "/tmp" "*.txt" (scanned only_kdialog) = Some (w2, d)
       /\ trace w2 = [ev_popen "kdialog" (m_stream (m_async d))].
Proof.
  split; [reflexivity |].
  destruct (file_dialog_arguments 1 save "Title" "/tmp" "*.txt" false
              (scanned only_kdialog) (scanned only_kdialog) (Dialog.Build default)
              eq_refl) as (Hstart & _ & Hbare).
  destruct (Hbare eq_refl) as (_ & _ & Hk).
  split; [exact Hk |]. exact Hstart.
Defined.

Example scan_finds_kdialog :
  match Dialog.construct 2 false (unscanned which_kdialog) with
  | Some (w, _) => Some (static_flags w, analysed w, desktop_helper w)
  | None => None
  end = Some (only_kdialog, true, "kdialog").
Proof. vm_compute. reflexivity. Qed.

Example scan_finds_nothing :
  match Dialog.construct 1 false (unscanned which_nothing) with
  | Some (w, _) => Some (static_flags w, analysed w, desktop_helper w)
  | None => None
  end = Some (zeroed, true, "echo").
Proof. vm_compute. reflexivity. Qed.

Lemma probes_exit_which_kdialog : probes_exit 2 which_kdialog.
Proof.
  intros f p Hin. cbn in Hin.
  destruct Hin as [[= <- <-] | [[= <- <-] | [[= <- <-] | [[= <- <-] | []]]]];
    (split; [lia |]); intros c [= <-]; cbn; (split; [reflexivity | lia]).
Defined.

Lemma helper_detection_witness :
  fresh (unscanned which_kdialog) /\ probes_exit 2 (spawn (unscanned which_kdialog))
  /\ false || negb (analysed (unscanned which_kdialog)) = true
  /\ exists w1,
       Dialog.construct 2 false (unscanned which_kdialog) = Some (w1, Dialog.Build default)
       /\ flags has_kdialog w1 = true /\ flags has_zenity w1 = false.
Proof.
  assert (fresh (unscanned which_kdialog)) as Hf
    by (unfold fresh; cbn; apply map_Forall_empty).
  split; [exact Hf |]. split; [exact probes_exit_which_kdialog |].
  split; [reflexivity |].
  destruct (helper_detection 2 false (unscanned which_kdialog) Hf
              probes_exit_which_kdialog eq_refl) as (_ & w1 & Hc & Hflags & _).
  exists w1. split; [exact Hc |]. split.
  - rewrite (Hflags has_kdialog "kdialog"); [reflexivity | cbn; tauto].
  - rewrite (Hflags has_zenity "zenity"); [reflexivity | cbn; tauto].
Defined.

End VariantExamples.

(** * Further properties of the code *)

(** ** What the polling loop captures *)

Module Drain.
Import OS Executor ReadyFacts LifeCycle.

(** The text one outcome of [read] adds to the accumulated output. *)
Definition piece (r : read_outcome) : string :=
  if ends_polling r then "" else Str.c_str (buf_of r).

(** The text the loop of [stop] captures from the outcomes to come: the
    pieces up to the first outcome on which [ready] answers true. *)
Fixpoint drained (outcomes : list read_outcome) : string :=
  match outcomes with
  | [] => ""
  | r :: rest => if ends_polling r then "" else piece r +:+ drained rest
  end.

(** The outcomes left unread once the loop has ended. *)
Fixpoint unread (outcomes : list read_outcome) : list read_outcome :=
  match outcomes with
  | [] => []
  | r :: rest => if ends_polling r then rest else unread rest
  end.

(** The number of calls of [ready] the loop makes on a child that does
    not hang. *)
Fixpoint polls (outcomes : list read_outcome) : nat :=
  match outcomes with
  | [] => 1
  | r :: rest => if ends_polling r then 1 else S (polls rest)
  end.

(** The system calls of the loop on a child that does not hang: one
    [read] per call of [ready], a sleep of 200 ms after each [read] that
    did not end the polling. *)
Fixpoint poll_trace (fd : Z) (outcomes : list read_outcome) : list event :=
  match outcomes with
  | [] => [ev_read fd read_eof]
  | r :: rest =>
      if ends_polling r then [ev_read fd r]
      else ev_read fd r :: ev_sleep 200 :: poll_trace fd rest
  end.

(** The executor after the call of [ready] that met the outcome [r]. *)
Definition after_poll (r : read_outcome) (e : executor) : executor :=
  if (received r =? -1) && (errno_of r =? EAGAIN) then e
  else if 0 <? received r then set_result (m_result e +:+ Str.c_str (buf_of r)) e
  else set_state finished e.

Lemma ends_polling_after (r : read_outcome) (e : executor) :
  m_state e = running ->
  m_state (after_poll r e) = (if ends_polling r then finished else running)
  /\ m_result (after_poll r e) = m_result e +:+ piece r
  /\ m_stream (after_poll r e) = m_stream e /\ m_fd (after_poll r e) = m_fd e
  /\ m_exit_code (after_poll r e) = m_exit_code e.
Proof.
  intros Hrun. unfold after_poll, piece, ends_polling.
  destruct ((received r =? -1) && (errno_of r =? EAGAIN)) eqn:Hagain.
  - cbn. repeat split; try assumption.
    destruct r as [buf | | errno]; cbn in Hagain.
    + change (0 =? EAGAIN) with false in Hagain. rewrite andb_false_r in Hagain.
      discriminate.
    + discriminate.
    + cbn. now rewrite StrFacts.append_nil_r.
  - destruct (0 <? received r); cbn; repeat split; try assumption.
    now rewrite StrFacts.append_nil_r.
Qed.

(** One call of [ready] on a running executor whose child has the
    outcome [r] pending first. *)
Lemma ready_head (e : executor) (w : world) (h : handle) (c : child)
    (r : read_outcome) (rest : list read_outcome) :
  m_state e = running -> m_fd e = fileno h -> procs w !! h = Some c ->
  pending c = r :: rest ->
  ready e w
  = (log (ev_read (m_fd e) r)
         (with_procs (<[h := Child rest (hangs c) (wait_status c)]> (procs w)) w),
     after_poll r e, ends_polling r).
Proof.
  intros Hrun Hfd Hc Hp. rewrite (ready_running e w Hrun). cbn zeta.
  unfold read. rewrite Hfd, (child_of_fileno h c w Hc), Hp. cbn [fst snd].
  unfold after_poll, ends_polling.
  destruct ((received r =? -1) && (errno_of r =? EAGAIN)); [reflexivity |].
  destruct (0 <? received r); reflexivity.
Qed.

(** One call of [ready] on a running executor whose child has closed
    its output. *)
Lemma ready_eof (e : executor) (w : world) (h : handle) (c : child) :
  m_state e = running -> m_fd e = fileno h -> procs w !! h = Some c ->
  pending c = [] -> hangs c = false ->
  ready e w = (log (ev_read (m_fd e) read_eof) w, set_state finished e, true).
Proof.
  intros Hrun Hfd Hc Hp Hh. pose proof (ready_on_child e w h c Hrun Hfd Hc) as H.
  now rewrite Hp, Hh in H.
Qed.

(** The loop of [stop] on a running executor whose child does not hang:
    what it captures, what it leaves unread, and the calls it makes. *)
Lemma stop_loop_drains (outcomes : list read_outcome) :
  forall (fuel : nat) (e : executor) (w : world) (h : handle) (c : child),
  m_state e = running -> m_fd e = fileno h -> procs w !! h = Some c ->
  pending c = outcomes -> hangs c = false -> (polls outcomes <= fuel)%nat ->
  exists w1 e1,
    stop_loop fuel e w = Some (w1, e1)
    /\ m_state e1 = finished
    /\ m_result e1 = m_result e +:+ drained outcomes
    /\ m_stream e1 = m_stream e /\ m_fd e1 = m_fd e /\ m_exit_code e1 = m_exit_code e
    /\ trace w1 = trace w ++ poll_trace (m_fd e) outcomes
    /\ procs w1 = <[h := Child (unread outcomes) false (wait_status c)]> (procs w)
    /\ next_stream w1 = next_stream w /\ same_statics w w1.
Proof.
  induction outcomes as [|r rest IH]; intros fuel e w h c Hrun Hfd Hc Hp Hh Hfuel.
  - destruct fuel as [|fuel]; [cbn in Hfuel; lia |].
    cbn [stop_loop]. rewrite (ready_eof e w h c Hrun Hfd Hc Hp Hh).
    eexists _, _. split; [reflexivity |]. cbn.
    rewrite StrFacts.append_nil_r. repeat split.
    symmetry. apply insert_id. rewrite Hc. f_equal.
    destruct c as [p hg st]. cbn in *. now subst.
  - destruct fuel as [|fuel]; [cbn in Hfuel; destruct (ends_polling r); lia |].
    cbn [stop_loop]. rewrite (ready_head e w h c r rest Hrun Hfd Hc Hp).
    destruct (ends_polling_after r e Hrun) as (Hs & Hres & Hstr & Hfd' & Hcode).
    cbn [polls drained unread poll_trace] in *.
    destruct (ends_polling r) eqn:Hend.
    + eexists _, _. split; [reflexivity |]. cbn.
      rewrite Hres. unfold piece. rewrite Hend, Hh.
      repeat split; assumption.
    + set (w' := sleep_for 200 _).
      destruct (IH fuel (after_poll r e) w' h (Child rest (hangs c) (wait_status c)))
        as (w1 & e1 & Hloop & Hs1 & Hres1 & Hstr1 & Hfd1 & Hcode1 & Htr1 & Hp1 & Hn1 & Hst1);
        try assumption; try reflexivity.
      * congruence.
      * unfold w'. cbn. apply lookup_insert_eq.
      * lia.
      * exists w1, e1. split; [exact Hloop |]. split; [exact Hs1 |].
        split; [rewrite Hres1, Hres; apply StrFacts.append_assoc |].
        split; [congruence |]. split; [congruence |]. split; [congruence |].
        split; [rewrite Htr1, Hfd'; unfold w'; cbn; now rewrite <- !app_assoc |].
        split; [rewrite Hp1; unfold w'; cbn; apply insert_insert_eq |].
        split; [exact Hn1 |]. exact Hst1.
Qed.

(** [stop] on a running executor in charge of the stream [h] of a child
    that does not hang. *)
Lemma stop_drains (fuel : nat) (e : executor) (w : world)
    (others : gmap handle child) (h : handle) (c : child) :
  owns e w others -> m_state e = running -> m_stream e = Some h ->
  procs w !! h = Some c -> hangs c = false -> (polls (pending c) <= fuel)%nat ->
  exists w1 e1,
    stop fuel e w = Some (w1, e1)
    /\ m_state e1 = idle
    /\ m_result e1 = m_result e +:+ drained (pending c)
    /\ m_exit_code e1 = wait_status c
    /\ m_stream e1 = m_stream e
    /\ procs w1 = others /\ next_stream w1 = next_stream w /\ same_statics w w1
    /\ trace w1 = trace w ++ poll_trace (m_fd e) (pending c)
                  ++ [ev_pclose (Some h) (wait_status c)].
Proof.
  intros Ho Hrun Hstream Hc Hh Hfuel.
  unfold owns in Ho. rewrite Hrun in Ho.
  destruct Ho as (h' & c' & Hstream' & Hfd & Hnone & Hprocs).
  assert (h' = h) as -> by congruence.
  destruct (stop_loop_drains (pending c) fuel e w h c Hrun Hfd Hc eq_refl Hh Hfuel)
    as (w1 & e1 & Hloop & Hs1 & Hres1 & Hstr1 & Hfd1 & Hcode1 & Htr1 & Hp1 & Hn1 & Hst1).
  unfold stop. rewrite Hrun. cbn [state_eqb]. rewrite Hloop.
  unfold pclose. rewrite Hstr1, Hstream, Hp1, lookup_insert_eq.
  eexists _, _. split; [reflexivity |]. cbn.
  repeat split; try assumption; try apply Hst1.
  - congruence.
  - rewrite delete_insert_eq, Hprocs, delete_insert_eq. now apply delete_id.
  - rewrite Htr1. now rewrite <- app_assoc.
Qed.

Lemma polls_length (outcomes : list read_outcome) :
  (polls outcomes <= S (length outcomes))%nat.
Proof.
  induction outcomes as [|r rest IH]; cbn; [lia |]. destruct (ends_polling r); lia.
Qed.

(** The child of a running executor, under the invariant: it is the
    one behind the descriptor, and the bound covers its polls. *)
Lemma owned_child (fuel : nat) (e : executor) (w : world)
    (others : gmap handle child) :
  owns e w others -> exits_within fuel e w -> m_state e = running ->
  exists h c,
    m_stream e = Some h /\ procs w !! h = Some c /\ hangs c = false
    /\ (polls (pending c) <= fuel)%nat.
Proof.
  intros Ho [_ Hex] Hrun. unfold owns in Ho. rewrite Hrun in Ho.
  destruct Ho as (h & c & Hstream & Hfd & _ & Hprocs).
  destruct (Hex Hrun) as (h' & c' & Hfd' & Hc' & Hh & Hlen).
  assert (h' = h) as -> by (apply Nat2Z.inj; unfold fileno in *; congruence).
  exists h, c'. split; [exact Hstream |]. split; [exact Hc' |]. split; [exact Hh |].
  pose proof (polls_length (pending c')). lia.
Qed.

(** [stop] on a finished executor: the loop ends at its first call of
    [ready], which makes no system call, and the stream is closed. *)
Lemma stop_finished (fuel : nat) (e : executor) (w : world)
    (others : gmap handle child) :
  owns e w others -> m_state e = finished -> (1 <= fuel)%nat ->
  exists h c w1 e1,
    m_stream e = Some h /\ procs w !! h = Some c
    /\ stop fuel e w = Some (w1, e1)
    /\ m_exit_code e1 = wait_status c /\ m_result e1 = m_result e
    /\ trace w1 = trace w ++ [ev_pclose (Some h) (wait_status c)].
Proof.
  intros Ho Hfin Hfuel. unfold owns in Ho. rewrite Hfin in Ho.
  destruct Ho as (h & c & Hstream & _ & _ & Hprocs).
  assert (procs w !! h = Some c) as Hc by (rewrite Hprocs; apply lookup_insert_eq).
  destruct fuel as [|fuel]; [lia |].
  eexists h, c, _, _. split; [exact Hstream |]. split; [exact Hc |].
  unfold stop. rewrite Hfin. cbn [state_eqb].
  rewrite stop_loop_not_running by congruence.
  unfold pclose. rewrite Hstream, Hc.
  split; [reflexivity |]. now repeat split.
Qed.

(** All the bytes the outcomes deliver, as the child wrote them. *)
Definition bytes (outcomes : list read_outcome) : string :=
  fold_right (fun r text => buf_of r +:+ text) "" outcomes.

(** An outcome that neither ends the polling nor loses a byte: no data
    yet, or a chunk without NUL. *)
Definition lossless (r : read_outcome) : bool :=
  negb (ends_polling r) && negb (Str.occursb Str.nul (buf_of r)).

Lemma c_str_no_nul (a : string) : Str.occursb Str.nul a = false -> Str.c_str a = a.
Proof.
  induction a as [|x a IH]; [reflexivity |].
  cbn [Str.occursb Str.c_str]. intros H. apply orb_false_elim in H as [Hx Ha].
  rewrite Ascii.eqb_sym, Hx. now rewrite IH.
Qed.

(** When every outcome is lossless the capture is all the bytes. *)
Lemma drained_lossless (outcomes : list read_outcome) :
  forallb lossless outcomes = true -> drained outcomes = bytes outcomes.
Proof.
  induction outcomes as [|r rest IH]; [reflexivity |].
  cbn [forallb drained bytes fold_right]. intros H.
  apply andb_true_iff in H as [Hr Hrest]. unfold lossless in Hr.
  apply andb_true_iff in Hr as [Hend Hnul].
  apply negb_true_iff in Hend. apply negb_true_iff in Hnul.
  unfold piece. rewrite Hend, (c_str_no_nul _ Hnul). now rewrite (IH Hrest).
Qed.

(** When no outcome ends the polling before the end of the stream, the
    capture is the concatenation of all the chunks. *)
Lemma drained_all (outcomes : list read_outcome) :
  Forall (fun r => ends_polling r = false) outcomes ->
  drained outcomes
  = fold_right (fun r text => Str.c_str (buf_of r) +:+ text) "" outcomes.
Proof.
  intros Hall. induction Hall as [|r rest Hr _ IH]; [reflexivity |].
  cbn [drained fold_right]. unfold piece. now rewrite Hr, IH.
Qed.

(** X1. [result] on a running executor whose child does not hang
    returns, given a bound that covers the polls: the text is what was
    accumulated before followed by every chunk the child still delivers,
    each read as a C string, up to the end of the stream (or to a read
    error other than [EAGAIN]); the exit code is the status [pclose]
    returns for that child; the calls made are one [read] per poll with a
    sleep of 200 ms after each one that did not end the polling, then the
    [pclose]; the executor is left idle with its stream closed. *)
Theorem result_returns_all_output (fuel : nat) (x : Z) (e : executor) (w : world)
    (others : gmap handle child) (h : handle) (c : child) :
  owns e w others -> m_state e = running -> m_stream e = Some h ->
  procs w !! h = Some c -> hangs c = false -> (polls (pending c) <= fuel)%nat ->
  exists w1 e1,
    result fuel (Some x) e w
    = Some (w1, e1, m_result e +:+ drained (pending c), Some (wait_status c))
    /\ m_state e1 = idle /\ procs w1 = others
    /\ trace w1 = trace w ++ poll_trace (m_fd e) (pending c)
                  ++ [ev_pclose (Some h) (wait_status c)]
    /\ (Forall (fun r => ends_polling r = false) (pending c) ->
        drained (pending c)
        = fold_right (fun r text => Str.c_str (buf_of r) +:+ text) "" (pending c)).
Proof.
  intros Ho Hrun Hstream Hc Hh Hfuel.
  destruct (stop_drains fuel e w others h c Ho Hrun Hstream Hc Hh Hfuel)
    as (w1 & e1 & Hstop & Hidle & Hres & Hcode & _ & Hp & _ & _ & Htr).
  exists w1, e1. unfold result. rewrite Hstop, Hres, Hcode.
  split; [reflexivity |]. split; [exact Hidle |]. split; [exact Hp |].
  split; [exact Htr |].
  apply drained_all.
Qed.

Lemma drained_until (pre : list read_outcome) (r : read_outcome)
    (rest : list read_outcome) :
  Forall (fun r => ends_polling r = false) pre -> ends_polling r = true ->
  drained (pre ++ r :: rest) = drained pre
  /\ polls (pre ++ r :: rest) = S (length pre).
Proof.
  intros Hpre Hr. induction Hpre as [|p pre Hp _ IH]; cbn.
  - now rewrite Hr.
  - rewrite Hp. destruct IH as (-> & ->). now split.
Qed.

(** X2. A read that fails with another error than [EAGAIN] is taken for
    the end of the stream: [result] returns the text captured before it,
    whatever the child writes afterwards, and closes the stream. *)
Theorem result_stops_at_read_error (fuel : nat) (x : Z) (e : executor) (w : world)
    (others : gmap handle child) (h : handle) (c : child)
    (pre rest : list read_outcome) (errno : Z) :
  owns e w others -> m_state e = running -> m_stream e = Some h ->
  procs w !! h = Some c -> hangs c = false ->
  pending c = pre ++ read_fail errno :: rest ->
  Forall (fun r => ends_polling r = false) pre -> errno <> EAGAIN ->
  (length pre < fuel)%nat ->
  exists w1 e1,
    result fuel (Some x) e w
    = Some (w1, e1, m_result e +:+ drained pre, Some (wait_status c))
    /\ m_state e1 = idle /\ procs w1 = others.
Proof.
  intros Ho Hrun Hstream Hc Hh Hpend Hpre Herr Hfuel.
  assert (ends_polling (read_fail errno) = true) as Hend.
  { unfold ends_polling. cbn. now apply Z.eqb_neq in Herr as ->. }
  destruct (drained_until pre (read_fail errno) rest Hpre Hend) as (Hd & Hpolls).
  destruct (stop_drains fuel e w others h c Ho Hrun Hstream Hc Hh)
    as (w1 & e1 & Hstop & Hidle & Hres & Hcode & _ & Hp & _);
    [rewrite Hpend, Hpolls; lia |].
  exists w1, e1. unfold result. rewrite Hstop, Hres, Hcode, Hpend, Hd. now repeat split.
Qed.

(** X3. There is no time-out: on a running executor whose child keeps
    its output open and never ends the polling, no bound on the number of
    polls is large enough for [stop], [result], a new [start] or the
    destructor to return. *)
Theorem hung_child_blocks (fuel : nat) (command : string) (x : option Z)
    (e : executor) (w : world) (h : handle) (c : child) :
  m_state e = running -> m_fd e = fileno h -> procs w !! h = Some c ->
  hangs c = true -> Forall (fun r => ends_polling r = false) (pending c) ->
  stop fuel e w = None /\ result fuel x e w = None
  /\ start fuel command e w = None /\ destroy fuel e w = None.
Proof.
  intros Hrun Hfd Hc Hh Hall.
  assert (stop fuel e w = None) as Hstop.
  { unfold stop. rewrite Hrun. cbn [state_eqb].
    now rewrite (stop_loop_hangs fuel e w h c Hrun Hfd Hc Hh Hall). }
  unfold result, start, destroy. now rewrite Hstop.
Qed.

(** [ready] called [n] times in a row. *)
Fixpoint ready_times (n : nat) (e : executor) (w : world) : world * executor :=
  match n with
  | O => (w, e)
  | S n' => let '(w1, e1, _) := ready e w in ready_times n' e1 w1
  end.

Definition is_read (ev : event) : bool :=
  match ev with
  | ev_read _ _ => true
  | _ => false
  end.

(** X4. Polling alone never closes the stream and never records an exit
    code: after any number of calls of [ready] the exit code, the stream
    and the descriptor of the executor are what they were, every stream
    that was open is still open with the same status to report, the only
    system calls made are reads (no sleep, no [pclose], no [popen]), and
    the state has at most gone from [running] to [finished]. *)
Theorem polling_never_closes (n : nat) :
  forall (e : executor) (w : world),
  m_exit_code (ready_times n e w).2 = m_exit_code e
  /\ m_stream (ready_times n e w).2 = m_stream e
  /\ m_fd (ready_times n e w).2 = m_fd e
  /\ (forall h, status_at (ready_times n e w).1 h = status_at w h)
  /\ (m_state (ready_times n e w).2 = m_state e
      \/ (m_state e = running /\ m_state (ready_times n e w).2 = finished))
  /\ exists reads,
       trace (ready_times n e w).1 = trace w ++ reads
       /\ forallb is_read reads = true /\ (length reads <= n)%nat.
Proof.
  induction n as [|n IH]; intros e w.
  - cbn. repeat split; [now left |]. exists []. now rewrite app_nil_r.
  - cbn [ready_times].
    pose proof (ready_effect e w) as He.
    pose proof (fun h => ready_status e w h) as Hstatus.
    destruct (ready e w) as [[w1 e1] r] eqn:Hready. cbn in Hstatus.
    destruct He as (_ & _ & Hstr & Hfd & Hcode & _ & Hs & Hidle & Hrun).
    destruct (IH e1 w1) as (Hcode' & Hstr' & Hfd' & Hstatus' & Hs' & reads & Htr & Hreads & Hlen).
    split; [congruence |]. split; [congruence |]. split; [congruence |].
    split; [intros h; now rewrite Hstatus', Hstatus |].
    split.
    { destruct Hs as [Hs | [Hs1 Hs2]], Hs' as [Hs' | [Hs1' Hs2']];
        try (left; congruence); try (right; split; congruence). }
    destruct (m_state e) eqn:Hse.
    1, 3: destruct (Hidle ltac:(discriminate)) as [-> ->]; exists reads;
          (split; [exact Htr |]); split; [exact Hreads | lia].
    destruct (Hrun eq_refl) as [-> _].
    exists (ev_read (m_fd e) (read (m_fd e) w).2 :: reads).
    split; [rewrite Htr, read_trace; now rewrite <- app_assoc |].
    split; [exact Hreads | cbn; lia].
Qed.

(** X5. The destructor releases what the executor holds. When the
    child of a running executor does not hang, [~executor] returns with
    the stream closed (only the streams of the rest of the process are
    left open) and launches nothing: its system calls are exactly the
    polls of the child up to the end of its output (one [read] per poll,
    a sleep of 200 ms after each one that did not end the polling), then
    one [pclose], which returns the status of that child. On a finished
    executor the only call is that [pclose]; on an idle executor there is
    none. *)
Theorem destructor_releases (fuel : nat) (e : executor) (w : world)
    (others : gmap handle child) :
  owns e w others -> fresh w -> exits_within fuel e w ->
  exists w1,
    destroy fuel e w = Some w1
    /\ procs w1 = others /\ same_statics w w1 /\ next_stream w1 = next_stream w
    /\ (m_state e = idle -> w1 = w)
    /\ (m_state e = running ->
        exists h c,
          m_stream e = Some h /\ procs w !! h = Some c
          /\ trace w1 = trace w ++ poll_trace (m_fd e) (pending c)
                        ++ [ev_pclose (Some h) (wait_status c)])
    /\ (m_state e = finished ->
        exists h c,
          m_stream e = Some h /\ procs w !! h = Some c
          /\ trace w1 = trace w ++ [ev_pclose (Some h) (wait_status c)]).
Proof.
  intros Ho Hf Hex.
  destruct (stop_returns fuel e w Hex) as [[w1 e1] Hstop].
  destruct (stop_effect fuel e w w1 e1 Hstop) as (_ & Hst & Hn & _ & _ & Hsame & _).
  destruct (stop_owns fuel e w w1 e1 others Hstop Ho Hf) as (Hp & _).
  exists w1. unfold destroy. rewrite Hstop.
  split; [reflexivity |]. split; [exact Hp |]. split; [exact Hst |]. split; [exact Hn |].
  split; [intros Hi; now destruct (Hsame Hi) |].
  split.
  - intros Hrun.
    destruct (owned_child fuel e w others Ho Hex Hrun) as (h & c & Hh & Hc & Hhang & Hfuel).
    destruct (stop_drains fuel e w others h c Ho Hrun Hh Hc Hhang Hfuel)
      as (w1' & e1' & Hstop' & _ & _ & _ & _ & _ & _ & _ & Htr).
    rewrite Hstop in Hstop'. injection Hstop' as <- <-.
    now exists h, c.
  - intros Hfin. destruct Hex as [Hfuel _].
    destruct (stop_finished fuel e w others Ho Hfin Hfuel)
      as (h & c & w1' & e1' & Hh & Hc & Hstop' & _ & _ & Htr).
    rewrite Hstop in Hstop'. injection Hstop' as <- <-.
    now exists h, c.
Qed.

End Drain.

(** ** [start] on an executor that is in use *)

Module StartFacts.
Import OS Executor ReadyFacts LifeCycle Drain.

(** C2. [start] on an executor in any state, whose previous child (if
    it is still running) does not hang. The call returns. It has first
    run [stop] to its end: on a running executor the calls made are
    exactly the polls of the previous child up to the end of its output
    (one [read] per poll, the last one being the read that met the end of
    the stream or an error, and a sleep of 200 ms after each of the
    others), then the [pclose] of its stream, which returns the status of
    that child; on a finished executor the [pclose] alone; on an idle one
    nothing. [stop] leaves the executor idle and none of its streams
    open. The launch of the new command is the one event that follows;
    afterwards the accumulated output is empty, the exit code is -1, and
    the executor is in charge of exactly the new stream (of none when the
    launch failed): next to the streams of the rest of the process there
    is at most one, whatever the client calls next. *)
Theorem start_stops_then_launches (fuel : nat) (command : string)
    (e : executor) (w : world) (others : gmap handle child) :
  owns e w others -> fresh w -> exits_within fuel e w ->
  exists w1 e1 w2 e2,
    stop fuel e w = Some (w1, e1)
    /\ start fuel command e w = Some (w2, e2)
    /\ m_state e1 = idle /\ procs w1 = others
    /\ (m_state e = running ->
        exists h c,
          m_stream e = Some h /\ procs w !! h = Some c
          /\ m_exit_code e1 = wait_status c
          /\ trace w2 = trace w ++ poll_trace (m_fd e) (pending c)
                        ++ [ev_pclose (Some h) (wait_status c);
                            ev_popen (Str.c_str command) (m_stream e2)])
    /\ (m_state e = finished ->
        exists h c,
          m_stream e = Some h /\ procs w !! h = Some c
          /\ m_exit_code e1 = wait_status c
          /\ trace w2 = trace w
                        ++ [ev_pclose (Some h) (wait_status c);
                            ev_popen (Str.c_str command) (m_stream e2)])
    /\ (m_state e = idle ->
        trace w2 = trace w ++ [ev_popen (Str.c_str command) (m_stream e2)])
    /\ m_result e2 = "" /\ m_exit_code e2 = -1
    /\ match spawn w (Str.c_str command) with
       | Some c =>
           m_state e2 = running
           /\ exists h, m_stream e2 = Some h /\ others !! h = None
                        /\ procs w2 = <[h := c]> others
       | None => m_state e2 = idle /\ m_stream e2 = None /\ procs w2 = others
       end
    /\ owns e2 w2 others /\ fresh w2
    /\ (forall calls w3 e3,
          run fuel calls e2 w2 = Some (w3, e3) ->
          owns e3 w3 others /\ (size (procs w3) <= S (size others))%nat).
Proof.
  intros Ho Hf Hex.
  destruct (start_effect fuel command e w others Ho Hf Hex)
    as (w1 & e1 & w2 & e2 & Hstop & Hstart & Hidle & Hp & _ & Htr2 & Hres & Hcode
        & Hl & Ho2 & Hf2 & _).
  destruct (stop_effect fuel e w w1 e1 Hstop) as (_ & _ & _ & _ & _ & Hsame & _).
  exists w1, e1, w2, e2.
  split; [exact Hstop |]. split; [exact Hstart |].
  split; [exact Hidle |]. split; [exact Hp |].
  split; [| split; [| split]].
  - intros Hrun.
    destruct (owned_child fuel e w others Ho Hex Hrun) as (h & c & Hh & Hc & Hhang & Hfuel).
    destruct (stop_drains fuel e w others h c Ho Hrun Hh Hc Hhang Hfuel)
      as (w1' & e1' & Hstop' & _ & _ & Hexit & _ & _ & _ & _ & Htr).
    rewrite Hstop in Hstop'. injection Hstop' as <- <-.
    exists h, c. split; [exact Hh |]. split; [exact Hc |]. split; [exact Hexit |].
    rewrite Htr2, Htr. now rewrite <- !app_assoc.
  - intros Hfin. destruct Hex as [Hfuel _].
    destruct (stop_finished fuel e w others Ho Hfin Hfuel)
      as (h & c & w1' & e1' & Hh & Hc & Hstop' & Hexit & _ & Htr).
    rewrite Hstop in Hstop'. injection Hstop' as <- <-.
    exists h, c. split; [exact Hh |]. split; [exact Hc |]. split; [exact Hexit |].
    rewrite Htr2, Htr. now rewrite <- !app_assoc.
  - intros Hi. destruct (Hsame Hi) as [-> _]. exact Htr2.
  - split; [exact Hres |]. split; [exact Hcode |]. split; [exact Hl |].
    split; [exact Ho2 |]. split; [exact Hf2 |].
    intros calls w3 e3 Hrun.
    destruct (run_owns fuel calls e2 w2 w3 e3 others Hrun Ho2 Hf2) as [Ho3 _].
    split; [exact Ho3 | exact (owns_size e3 w3 others Ho3)].
Qed.

End StartFacts.

Module StartExamples.
Import OS Static Executor ReadyFacts LifeCycle Drain StartFacts ExecutorExamples.

(** A dialog is still open: its child writes [hel], pauses, writes [lo]
    and a newline and exits with status 0. The client starts the command
    [echo hello] on the same executor. *)
Definition previous_child : child :=
  Child [read_data "hel"; read_fail EAGAIN; read_data ("lo" +:+ String Str.newline "")]
        false 0.

Definition busy_world : world :=
  World {[ 0%nat := previous_child ]} 1 echo_hello [] zeroed true.

Definition echo_child : child :=
  Child [read_data ("hello" +:+ String Str.newline "")] false 0.

Lemma owns_busy : owns nul_executor busy_world ∅.
Proof. exists 0%nat, previous_child. repeat split. Defined.

Lemma fresh_busy : fresh busy_world.
Proof. unfold fresh. cbn. apply map_Forall_singleton. lia. Defined.

Lemma exits_within_busy : exits_within 4 nul_executor busy_world.
Proof.
  split; [lia |]. intros _. exists 0%nat, previous_child. repeat split. cbn. lia.
Defined.

Lemma start_stops_then_launches_witness :
  owns nul_executor busy_world ∅ /\ fresh busy_world
  /\ exits_within 4 nul_executor busy_world
  /\ exists w2 e2 h2,
       start 4 "echo hello" nul_executor busy_world = Some (w2, e2)
       /\ trace w2
          = [ ev_read 0 (read_data "hel"); ev_sleep 200;
              ev_read 0 (read_fail EAGAIN); ev_sleep 200;
              ev_read 0 (read_data ("lo" +:+ String Str.newline "")); ev_sleep 200;
              ev_read 0 read_eof; ev_pclose (Some 0%nat) 0;
              ev_popen "echo hello" (Some h2) ]
       /\ m_state e2 = running /\ m_stream e2 = Some h2
       /\ m_result e2 = "" /\ m_exit_code e2 = -1
       /\ procs w2 = {[ h2 := echo_child ]}.
Proof.
  split; [exact owns_busy |]. split; [exact fresh_busy |]. split; [exact exits_within_busy |].
  destruct (start_stops_then_launches 4 "echo hello" nul_executor busy_world ∅
              owns_busy fresh_busy exits_within_busy)
    as (w1 & e1 & w2 & e2 & _ & Hstart & _ & _ & Hrun & _ & _ & Hres & Hcode & Hl & _).
  destruct (Hrun eq_refl) as (h & c & Hh & Hc & _ & Htr).
  injection Hh as <-.
  assert (procs busy_world !! 0%nat = Some previous_child) as Hc0 by reflexivity.
  rewrite Hc0 in Hc. injection Hc as <-.
  change (spawn busy_world (Str.c_str "echo hello")) with (Some echo_child) in Hl.
  destruct Hl as (Hs2 & h2 & Hh2 & _ & Hp2).
  exists w2, e2, h2. split; [exact Hstart |].
  split; [rewrite Htr, Hh2; reflexivity |].
  split; [exact Hs2 |]. split; [exact Hh2 |]. split; [exact Hres |]. split; [exact Hcode |].
  rewrite Hp2. apply insert_empty.
Defined.

End StartExamples.

(** ** Commands run to their end: [execute] and the scan *)

Module Run.
Import OS Static Executor ReadyFacts LifeCycle Dialog ExecuteFacts DetectionFacts Drain.

(** The text [execute] returns for a command, given the oracle of
    [popen]: what the loop captures from the child, nothing when the
    launch fails. *)
Definition run_output (oracle : string -> option child) (command : string) : string :=
  match oracle (Str.c_str command) with
  | Some c => drained (pending c)
  | None => ""
  end.

(** The system calls of [execute] for a command, when [popen] hands out
    the stream [stream]: the line on [std::cerr] when the verbose flag is
    set, the launch, the polls and the [pclose]. *)
Definition run_trace (verbose : bool) (oracle : string -> option child)
    (command : string) (stream : handle) : list event :=
  (if verbose then [ev_cerr ("pfd: " +:+ command)] else [])
  ++ match oracle (Str.c_str command) with
     | Some c =>
         ev_popen (Str.c_str command) (Some stream)
         :: poll_trace (fileno stream) (pending c)
         ++ [ev_pclose (Some stream) (wait_status c)]
     | None => [ev_popen (Str.c_str command) None]
     end.

(** The next fresh stream after a command has run. *)
Definition next_after (oracle : string -> option child) (command : string)
    (stream : handle) : handle :=
  match oracle (Str.c_str command) with
  | Some _ => S stream
  | None => stream
  end.

(** The child a command launches does not hang and the bound covers its
    polls. *)
Definition run_exits (fuel : nat) (oracle : string -> option child) (command : string)
  : Prop :=
  forall c, oracle (Str.c_str command) = Some c ->
            hangs c = false /\ (polls (pending c) <= fuel)%nat.

Lemma fresh_weaken (w w1 : world) :
  fresh w -> procs w1 = procs w -> (next_stream w <= next_stream w1)%nat -> fresh w1.
Proof.
  intros Hf Hp Hn. unfold fresh in *. rewrite Hp.
  intros h c Hc. specialize (Hf h c Hc). cbn in *. lia.
Qed.

(** [execute] in full. *)
Lemma execute_runs (fuel : nat) (command : string) (x : Z) (w : world) :
  fresh w -> run_exits fuel (spawn w) command ->
  exists w3,
    execute fuel command (Some x) w
    = Some (w3, run_output (spawn w) command, Some (launch_status (spawn w) command))
    /\ trace w3 = trace w ++ run_trace (flags is_verbose w) (spawn w) command (next_stream w)
    /\ procs w3 = procs w
    /\ next_stream w3 = next_after (spawn w) command (next_stream w)
    /\ same_statics w w3 /\ fresh w3.
Proof.
  intros Hf Hexit. unfold execute.
  set (w0 := if flags is_verbose w then cerr ("pfd: " +:+ command) w else w).
  assert (procs w0 = procs w /\ spawn w0 = spawn w /\ same_statics w w0
          /\ next_stream w0 = next_stream w
          /\ trace w0 = trace w
                        ++ (if flags is_verbose w then [ev_cerr ("pfd: " +:+ command)] else []))
    as (Hp0 & Hsp0 & Hst0 & Hn0 & Htr0).
  { unfold w0. destruct (flags is_verbose w); cbn; repeat split.
    now rewrite app_nil_r. }
  assert (fresh w0) as Hf0 by (apply (fresh_weaken w w0 Hf Hp0); lia).
  pose proof (fresh_lookup_next w0 Hf0) as Hnext.
  unfold Executor.construct, start. rewrite (stop_idle fuel default w0 eq_refl).
  cbn [mbind option_bind]. unfold launch, popen, run_output, run_trace, launch_status, next_after.
  rewrite Hsp0. destruct (spawn w (Str.c_str command)) as [c|] eqn:Hsp.
  - destruct (Hexit c Hsp) as [Hh Hpolls].
    set (h := next_stream w0) in *.
    set (w1 := log _ _). set (e1 := set_state running _).
    assert (owns e1 w1 (procs w0)) as Ho1.
    { exists h, c. now repeat split. }
    assert (procs w1 !! h = Some c) as Hc by (unfold w1; cbn; apply lookup_insert_eq).
    destruct (stop_drains fuel e1 w1 (procs w0) h c Ho1 eq_refl eq_refl Hc Hh Hpolls)
      as (w2 & e2 & Hstop & Hidle & Hres & Hcode & _ & Hp2 & Hn2 & Hst2 & Htr2).
    unfold result. rewrite Hstop. cbn [mbind option_bind].
    unfold Executor.destroy. rewrite (stop_idle fuel e2 w2 Hidle). cbn [mbind option_bind].
    exists w2. rewrite Hres, Hcode.
    split; [reflexivity |].
    split.
    { rewrite Htr2. subst w1 e1 h. cbn. rewrite Htr0, Hn0. now rewrite <- !app_assoc. }
    split; [congruence |].
    split; [rewrite Hn2; subst w1 h; cbn; now rewrite Hn0 |].
    split.
    { eapply same_statics_trans; [exact Hst0 |].
      eapply same_statics_trans; [| exact Hst2]. subst w1. repeat split. }
    apply (fresh_weaken w w2 Hf); [congruence |].
    rewrite Hn2. subst w1 h. cbn. lia.
  - set (w1 := log _ w0). set (e1 := set_stream None _).
    rewrite (result_idle fuel (Some x) e1 w1 eq_refl). cbn [mbind option_bind].
    unfold Executor.destroy. rewrite (stop_idle fuel e1 w1 eq_refl). cbn [mbind option_bind].
    exists w1. split; [reflexivity |].
    split; [subst w1; cbn; rewrite Htr0; now rewrite <- app_assoc |].
    split; [exact Hp0 |]. split; [exact Hn0 |].
    split; [exact Hst0 |]. apply (fresh_weaken w w1 Hf Hp0). subst w1. cbn. lia.
Qed.

(** X6. [execute] returns what the polling loop captures from the
    command, with its exit status, and leaves no stream open. For a
    command whose child does not hang the text is made of the chunks read
    up to the end of the stream or to the first read that fails with
    another error than [EAGAIN], each chunk cut at its first NUL; it is
    the whole output, byte for byte, when no chunk holds a NUL and no
    read fails that way. The exit code is the status [pclose] returns.
    When the launch fails the text is empty and the exit code is -1. In
    both cases the calls made are the line on [std::cerr] (verbose flag
    set), the [popen], the polls and the [pclose] of the stream that was
    opened. *)
Theorem execute_returns_output (fuel : nat) (command : string) (x : Z) (w : world) :
  fresh w -> run_exits fuel (spawn w) command ->
  exists w3 out code,
    execute fuel command (Some x) w = Some (w3, out, Some code)
    /\ procs w3 = procs w
    /\ match spawn w (Str.c_str command) with
       | Some c =>
           out = drained (pending c) /\ code = wait_status c
           /\ (forallb lossless (pending c) = true -> out = bytes (pending c))
           /\ trace w3
              = trace w ++ verbose_line w command
                ++ ev_popen (Str.c_str command) (Some (next_stream w))
                   :: poll_trace (fileno (next_stream w)) (pending c)
                   ++ [ev_pclose (Some (next_stream w)) (wait_status c)]
       | None =>
           out = "" /\ code = -1
           /\ trace w3 = trace w ++ verbose_line w command
                         ++ [ev_popen (Str.c_str command) None]
       end.
Proof.
  intros Hf Hexit.
  destruct (execute_runs fuel command x w Hf Hexit) as (w3 & Hexec & Htr & Hp & _).
  exists w3, (run_output (spawn w) command), (launch_status (spawn w) command).
  split; [exact Hexec |]. split; [exact Hp |].
  unfold run_output, launch_status, run_trace, verbose_line in *.
  destruct (spawn w (Str.c_str command)) as [c|]; [| now repeat split].
  split; [reflexivity |]. split; [reflexivity |].
  split; [apply drained_lossless | exact Htr].
Qed.

(** X7. The verbose flag only adds a line: with the flag set or not,
    [execute] returns the same text and the same exit code and makes the
    same system calls, preceded, when the flag is set, by the one line
    [pfd: <command>] on [std::cerr]. *)
Theorem verbose_only_logs (fuel : nat) (command : string) (x : Z) (w : world) :
  fresh w -> run_exits fuel (spawn w) command ->
  exists wq wv out code calls,
    execute fuel command (Some x) (set_flags is_verbose false w) = Some (wq, out, code)
    /\ execute fuel command (Some x) (set_flags is_verbose true w) = Some (wv, out, code)
    /\ trace wq = trace w ++ calls
    /\ trace wv = trace w ++ ev_cerr ("pfd: " +:+ command) :: calls
    /\ procs wq = procs wv /\ next_stream wq = next_stream wv.
Proof.
  intros Hf Hexit.
  destruct (execute_runs fuel command x (set_flags is_verbose false w) Hf Hexit)
    as (wq & Hq & Htrq & Hpq & Hnq & _).
  destruct (execute_runs fuel command x (set_flags is_verbose true w) Hf Hexit)
    as (wv & Hv & Htrv & Hpv & Hnv & _).
  exists wq, wv, (run_output (spawn w) command), (Some (launch_status (spawn w) command)),
    (run_trace false (spawn w) command (next_stream w)).
  split; [exact Hq |]. split; [exact Hv |].
  split; [rewrite Htrq; unfold flags; destruct (static_flags w); reflexivity |].
  split; [rewrite Htrv; unfold flags; destruct (static_flags w); reflexivity |].
  split; [now rewrite Hpq, Hpv | now rewrite Hnq, Hnv].
Qed.

(** The commands of the scan, in the order of the constructor. *)
Definition probe_commands : list string :=
  map (fun p => probe_command p.2) known_helpers.

(** The system calls of commands run one after the other. *)
Fixpoint runs_trace (verbose : bool) (oracle : string -> option child)
    (commands : list string) (stream : handle) : list event :=
  match commands with
  | [] => []
  | command :: rest =>
      run_trace verbose oracle command stream
      ++ runs_trace verbose oracle rest (next_after oracle command stream)
  end.

Definition scan_exits (fuel : nat) (oracle : string -> option child) : Prop :=
  forall command, In command probe_commands -> run_exits fuel oracle command.

(** One line of the constructor, with its system calls. *)
Lemma probe_runs (fuel : nat) (f : flag) (program : string) (w : world)
    (oracle : string -> option child) (verbose : bool) :
  fresh w -> spawn w = oracle -> flags is_verbose w = verbose ->
  run_exits fuel oracle (probe_command program) ->
  exists w1,
    check_program fuel program w
    = Some (w1, launch_status oracle (probe_command program) =? 0)
    /\ fresh (set_flags f (launch_status oracle (probe_command program) =? 0) w1)
    /\ spawn w1 = oracle /\ procs w1 = procs w /\ analysed w1 = analysed w
    /\ static_flags w1 = static_flags w
    /\ trace w1 = trace w ++ run_trace verbose oracle (probe_command program) (next_stream w)
    /\ next_stream w1 = next_after oracle (probe_command program) (next_stream w).
Proof.
  intros Hf <- <- Hex.
  destruct (execute_runs fuel (probe_command program) (-1) w Hf Hex)
    as (w1 & Hexec & Htr & Hp & Hn & (Hsp & Hfl & Han) & Hf1).
  exists w1. unfold check_program. fold (probe_command program).
  rewrite Hexec. cbn [mbind option_bind].
  repeat split; assumption.
Qed.

(** The scan of the constructor, with its system calls. *)
Lemma scan_runs (fuel : nat) (resync : bool) (w : world) :
  fresh w -> scan_exits fuel (spawn w) -> resync || negb (analysed w) = true ->
  exists w1,
    Dialog.construct fuel resync w = Some (w1, Dialog.Build default)
    /\ trace w1 = trace w ++ runs_trace (flags is_verbose w) (spawn w) probe_commands
                                        (next_stream w)
    /\ procs w1 = procs w /\ spawn w1 = spawn w /\ analysed w1 = true /\ fresh w1
    /\ flags is_verbose w1 = flags is_verbose w
    /\ static_flags w1
       = set has_kdialog (launch_status (spawn w) (probe_command "kdialog") =? 0)
           (set has_qarma (launch_status (spawn w) (probe_command "qarma") =? 0)
              (set has_matedialog (launch_status (spawn w) (probe_command "matedialog") =? 0)
                 (set has_zenity (launch_status (spawn w) (probe_command "zenity") =? 0)
                    (static_flags w)))).
Proof.
  intros Hf Hex Hscan. unfold Dialog.construct. rewrite Hscan.
  set (v := flags is_verbose w). set (o := spawn w).
  destruct (probe_runs fuel has_zenity "zenity" w o v Hf eq_refl eq_refl)
    as (w1 & -> & Hf1 & Hsp1 & Hp1 & Han1 & Hfl1 & Htr1 & Hn1);
    [apply Hex; cbn; tauto |].
  cbn [mbind option_bind].
  destruct (probe_runs fuel has_matedialog "matedialog" _ o v Hf1 Hsp1)
    as (w2 & -> & Hf2 & Hsp2 & Hp2 & Han2 & Hfl2 & Htr2 & Hn2);
    [unfold flags; cbn; rewrite Hfl1; subst v; unfold flags; now destruct (static_flags w)
    | apply Hex; cbn; tauto |].
  cbn [mbind option_bind].
  destruct (probe_runs fuel has_qarma "qarma" _ o v Hf2 Hsp2)
    as (w3 & -> & Hf3 & Hsp3 & Hp3 & Han3 & Hfl3 & Htr3 & Hn3);
    [unfold flags; cbn; rewrite Hfl2; cbn; rewrite Hfl1; subst v; unfold flags;
     now destruct (static_flags w)
    | apply Hex; cbn; tauto |].
  cbn [mbind option_bind].
  destruct (probe_runs fuel has_kdialog "kdialog" _ o v Hf3 Hsp3)
    as (w4 & -> & Hf4 & Hsp4 & Hp4 & Han4 & Hfl4 & Htr4 & Hn4);
    [unfold flags; cbn; rewrite Hfl3; cbn; rewrite Hfl2; cbn; rewrite Hfl1; subst v;
     unfold flags; now destruct (static_flags w)
    | apply Hex; cbn; tauto |].
  cbn [mbind option_bind].
  eexists. split; [reflexivity |].
  cbn [trace next_stream procs static_flags set_flags with_static_flags]
    in Hp2, Hp3, Hp4, Hfl2, Hfl3, Hfl4, Htr2, Htr3, Htr4, Hn2, Hn3, Hn4.
  split.
  { cbn [trace with_analysed set_flags with_static_flags].
    rewrite Htr4, Htr3, Htr2, Htr1, Hn3, Hn2, Hn1.
    unfold probe_commands. cbn [map known_helpers runs_trace snd].
    now rewrite app_nil_r, <- !app_assoc. }
  split; [cbn; congruence |]. split; [exact Hsp4 |]. split; [reflexivity |].
  split; [exact Hf4 |]. split.
  - unfold flags. cbn. rewrite Hfl4, Hfl3, Hfl2, Hfl1. subst v. unfold flags.
    now destruct (static_flags w).
  - cbn. now rewrite Hfl4, Hfl3, Hfl2, Hfl1.
Qed.

(** The commands launched and the lines logged in a sequence of system
    calls. *)
Fixpoint launched (calls : list event) : list string :=
  match calls with
  | [] => []
  | ev_popen command _ :: rest => command :: launched rest
  | _ :: rest => launched rest
  end.

Fixpoint logged (calls : list event) : list string :=
  match calls with
  | [] => []
  | ev_cerr line :: rest => line :: logged rest
  | _ :: rest => logged rest
  end.

Lemma launched_app (a b : list event) : launched (a ++ b) = launched a ++ launched b.
Proof.
  induction a as [|ev a IH]; [reflexivity |].
  destruct ev; cbn; now rewrite IH.
Qed.

Lemma logged_app (a b : list event) : logged (a ++ b) = logged a ++ logged b.
Proof.
  induction a as [|ev a IH]; [reflexivity |].
  destruct ev; cbn; now rewrite IH.
Qed.

Lemma poll_trace_quiet (fd : Z) (outcomes : list read_outcome) :
  launched (poll_trace fd outcomes) = [] /\ logged (poll_trace fd outcomes) = [].
Proof.
  induction outcomes as [|r rest [IH1 IH2]]; [now split |].
  cbn [poll_trace]. destruct (ends_polling r); cbn; now split.
Qed.

Lemma runs_trace_calls (verbose : bool) (oracle : string -> option child)
    (commands : list string) :
  forall stream,
  launched (runs_trace verbose oracle commands stream) = map Str.c_str commands
  /\ logged (runs_trace verbose oracle commands stream)
     = if verbose then map (String.append "pfd: ") commands else [].
Proof.
  induction commands as [|command rest IH]; intros stream.
  - cbn. now destruct verbose.
  - cbn [runs_trace map]. destruct (IH (next_after oracle command stream)) as [IH1 IH2].
    rewrite launched_app, logged_app, IH1, IH2. unfold run_trace.
    rewrite launched_app, logged_app.
    destruct (oracle (Str.c_str command)) as [c|]; cbn [launched logged].
    + rewrite launched_app, logged_app.
      destruct (poll_trace_quiet (fileno stream) (pending c)) as [-> ->].
      destruct verbose; now split.
    + destruct verbose; now split.
Qed.

(** X8. A scan (the first construction of a dialog, or any construction
    with [resync]) launches exactly four commands, the [which] probes for
    zenity, matedialog, qarma and kdialog in this order, each run to its
    end before the next one starts; it logs each of them when the
    verbose flag is set and nothing otherwise, leaves no stream open,
    stores the outcome of each probe in its flag and leaves the verbose
    flag as it was. *)
Theorem scan_probes_in_order (fuel : nat) (resync : bool) (w : world) :
  fresh w -> scan_exits fuel (spawn w) -> resync || negb (analysed w) = true ->
  exists w1 calls,
    Dialog.construct fuel resync w = Some (w1, Dialog.Build default)
    /\ trace w1 = trace w ++ calls
    /\ calls = runs_trace (flags is_verbose w) (spawn w) probe_commands (next_stream w)
    /\ launched calls
       = [ "which zenity 2>/dev/null"; "which matedialog 2>/dev/null";
           "which qarma 2>/dev/null"; "which kdialog 2>/dev/null" ]
    /\ logged calls
       = (if flags is_verbose w
          then [ "pfd: which zenity 2>/dev/null"; "pfd: which matedialog 2>/dev/null";
                 "pfd: which qarma 2>/dev/null"; "pfd: which kdialog 2>/dev/null" ]
          else [])
    /\ procs w1 = procs w /\ analysed w1 = true
    /\ flags is_verbose w1 = flags is_verbose w
    /\ (forall f p, In (f, p) known_helpers ->
                    flags f w1 = (launch_status (spawn w) (probe_command p) =? 0)).
Proof.
  intros Hf Hex Hscan.
  destruct (scan_runs fuel resync w Hf Hex Hscan)
    as (w1 & Hc & Htr & Hp & _ & Han & _ & Hv & Hfl).
  destruct (runs_trace_calls (flags is_verbose w) (spawn w) probe_commands (next_stream w))
    as [Hlaunched Hlogged].
  exists w1, (runs_trace (flags is_verbose w) (spawn w) probe_commands (next_stream w)).
  split; [exact Hc |]. split; [exact Htr |]. split; [reflexivity |].
  split; [rewrite Hlaunched; reflexivity |].
  split; [rewrite Hlogged; destruct (flags is_verbose w); reflexivity |].
  split; [exact Hp |]. split; [exact Han |]. split; [exact Hv |].
  intros f p Hin. unfold flags. rewrite Hfl. cbn in Hin.
  destruct Hin as [[= <- <-] | [[= <- <-] | [[= <- <-] | [[= <- <-] | []]]]];
    reflexivity.
Qed.

(** X9. [settings::rescan()] probes again whatever was known before:
    scanned or not, the process launches the four probes in order, the
    four flags are overwritten by their outcomes, the verbose flag is kept
    and no stream is left open. *)
Theorem rescan_probes_again (fuel : nat) (w : world) :
  fresh w -> scan_exits fuel (spawn w) ->
  exists w1 calls,
    Variants.rescan fuel w = Some w1
    /\ trace w1 = trace w ++ calls
    /\ launched calls = map Str.c_str probe_commands
    /\ procs w1 = procs w /\ analysed w1 = true
    /\ flags is_verbose w1 = flags is_verbose w
    /\ (forall f p, In (f, p) known_helpers ->
                    flags f w1 = (launch_status (spawn w) (probe_command p) =? 0)).
Proof.
  intros Hf Hex.
  destruct (scan_runs fuel true w Hf Hex eq_refl)
    as (w1 & Hc & Htr & Hp & _ & Han & _ & Hv & Hfl).
  destruct (runs_trace_calls (flags is_verbose w) (spawn w) probe_commands (next_stream w))
    as [Hlaunched _].
  exists w1, (runs_trace (flags is_verbose w) (spawn w) probe_commands (next_stream w)).
  unfold Variants.rescan. rewrite Hc. cbn [mbind option_bind].
  unfold Dialog.destroy, Executor.destroy. cbn [m_async].
  rewrite (stop_idle fuel default w1 eq_refl).
  split; [reflexivity |]. split; [exact Htr |]. split; [exact Hlaunched |].
  split; [exact Hp |]. split; [exact Han |]. split; [exact Hv |].
  intros f p Hin. unfold flags. rewrite Hfl. cbn in Hin.
  destruct Hin as [[= <- <-] | [[= <- <-] | [[= <- <-] | [[= <- <-] | []]]]];
    reflexivity.
Qed.

(** X10. [settings::verbose(value)] on a scanned process changes the
    verbose flag and nothing else, without a system call. On a process
    that has not scanned yet it first runs the scan, under the old value
    of the flag, and sets the flag afterwards: turning the flag on this
    way logs none of the four probes. *)
Theorem verbose_sets_flag_after_scan (fuel : nat) (value : bool) (w : world) :
  fresh w -> scan_exits fuel (spawn w) ->
  (analysed w = true ->
   Variants.verbose fuel value w = Some (set_flags is_verbose value w))
  /\ (analysed w = false ->
      exists w1 calls,
        Variants.verbose fuel value w = Some w1
        /\ flags is_verbose w1 = value /\ analysed w1 = true
        /\ trace w1 = trace w ++ calls
        /\ launched calls = map Str.c_str probe_commands
        /\ (flags is_verbose w = false -> logged calls = [])).
Proof.
  intros Hf Hex. split.
  - intros Han. unfold Variants.verbose. rewrite (construct_cached fuel w Han).
    cbn [mbind option_bind]. unfold Dialog.destroy, Executor.destroy. cbn [m_async].
    now rewrite (stop_idle fuel default _ eq_refl).
  - intros Han.
    destruct (scan_runs fuel false w Hf Hex) as (w1 & Hc & Htr & _ & _ & Han1 & _);
      [now rewrite Han |].
    destruct (runs_trace_calls (flags is_verbose w) (spawn w) probe_commands (next_stream w))
      as [Hlaunched Hlogged].
    exists (set_flags is_verbose value w1),
      (runs_trace (flags is_verbose w) (spawn w) probe_commands (next_stream w)).
    unfold Variants.verbose. rewrite Hc. cbn [mbind option_bind].
    unfold Dialog.destroy, Executor.destroy. cbn [m_async].
    rewrite (stop_idle fuel default _ eq_refl).
    split; [reflexivity |]. split; [reflexivity |]. split; [exact Han1 |].
    split; [exact Htr |]. split; [exact Hlaunched |].
    intros Hq. now rewrite Hlogged, Hq.
Qed.

(** X11. The helpers are probed once: when a construction has returned,
    the scan is marked as made, and every later construction without
    [resync] returns at once, with any bound, without a system call and
    without touching a flag. *)
Theorem construct_scans_once (fuel : nat) (resync : bool) (w w1 : world) (d : dialog) :
  Dialog.construct fuel resync w = Some (w1, d) ->
  analysed w1 = true
  /\ d = Dialog.Build default
  /\ (forall fuel', Dialog.construct fuel' false w1 = Some (w1, Dialog.Build default))
  /\ (resync || negb (analysed w) = false -> w1 = w).
Proof.
  intros Hc.
  assert (analysed w1 = true) as Han.
  { unfold Dialog.construct in Hc. destruct (resync || negb (analysed w)) eqn:Hscan.
    - destruct (check_program fuel "zenity" w) as [[w' b1]|]; [| discriminate].
      cbn [mbind option_bind] in Hc.
      destruct (check_program fuel "matedialog" _) as [[w'' b2]|]; [| discriminate].
      cbn [mbind option_bind] in Hc.
      destruct (check_program fuel "qarma" _) as [[w''' b3]|]; [| discriminate].
      cbn [mbind option_bind] in Hc.
      destruct (check_program fuel "kdialog" _) as [[w'''' b4]|]; [| discriminate].
      cbn [mbind option_bind] in Hc. now injection Hc as <- _.
    - injection Hc as <- _. apply orb_false_elim in Hscan as [_ Hscan].
      now apply negb_false_iff in Hscan. }
  split; [exact Han |].
  split; [exact (VariantFacts.construct_dialog fuel resync w w1 d Hc) |].
  split; [intros fuel'; now apply construct_cached |].
  intros Hscan. unfold Dialog.construct in Hc. rewrite Hscan in Hc. now injection Hc.
Qed.

End Run.


(** ** The words a POSIX shell makes of a command line

    As for the quoting rules above, this is the grammar of the
    interpreter, not code of the program: field splitting on unquoted
    blanks together with quote removal, for command lines without
    expansions. *)

Module Shell.
Import Str Interp.

(** Unquoted blanks separate words. *)
Definition sh_blank (c : ascii) : bool :=
  Ascii.eqb c " "%char || Ascii.eqb c "009"%char.

(** The unquoted characters that make a command line more than a list
    of literal words: operators, the newline, expansions, double quotes
    and patterns. (The equals sign and the percent sign have a meaning
    only in an assignment before the command name and in job identifiers;
    they are ordinary characters in the arguments of a command.) *)
Definition sh_meta (c : ascii) : bool :=
  existsb (Ascii.eqb c)
    [ "|"; "&"; ";"; "<"; ">"; "("; ")"; "$"; "`"; "*"; "?"; "["; "#"; "~";
      dquote; newline ]%char.

(** [push c ws] puts [c] in front of the word in progress. *)
Definition push (c : ascii) (ws : list string) : list string :=
  match ws with
  | w :: rest => String c w :: rest
  | [] => [String c ""]
  end.

(** [prepend t ws] puts the text [t] in front of the word in progress. *)
Definition prepend (t : string) (ws : list string) : list string :=
  match ws with
  | w :: rest => (t +:+ w) :: rest
  | [] => [t]
  end.

(** The words of a command line read from the position where [started]
    tells whether a word is in progress; the first word of the answer is
    then the rest of that word. [None]: a quote is left open, a backslash
    ends the line, or an unquoted character of [sh_meta] occurs. *)
Fixpoint sh_split (mode : sh_mode) (started : bool) (s : string) : option (list string) :=
  match s with
  | EmptyString =>
      match mode with
      | sh_plain => Some (if started then [""] else [])
      | sh_quoted => None
      end
  | String c rest =>
      match mode with
      | sh_quoted =>
          if Ascii.eqb c squote then sh_split sh_plain true rest
          else push c <$> sh_split sh_quoted true rest
      | sh_plain =>
          if Ascii.eqb c squote then sh_split sh_quoted true rest
          else if Ascii.eqb c backslash then
            match rest with
            | String d rest' =>
                if Ascii.eqb d newline then sh_split sh_plain started rest'
                else push d <$> sh_split sh_plain true rest'
            | EmptyString => None
            end
          else if sh_blank c then
            (if started then cons "" <$> sh_split sh_plain false rest
             else sh_split sh_plain false rest)
          else if sh_meta c then None
          else push c <$> sh_split sh_plain true rest
      end
  end.

(** The list of arguments ([argv]) the shell runs for a command line. *)
Definition sh_words (command : string) : option (list string) :=
  sh_split sh_plain false command.

End Shell.

Module ShellFacts.
Import Str StrFacts Interp Shell Dialog.

Lemma push_prepend (c : ascii) (t : string) (ws : list string) :
  push c (prepend t ws) = prepend (String c t) ws.
Proof. destruct ws; reflexivity. Qed.

Lemma push_started (x : ascii) (o : option (list string)) (ws : list string) :
  push x <$> o = Some ws -> ws <> [].
Proof.
  destruct o as [l|]; cbn; [intros [= <-]; destruct l; discriminate | discriminate].
Qed.

(** A word in progress is in the answer. *)
Definition keeps_word (s : string) : Prop :=
  forall mode ws, sh_split mode true s = Some ws -> ws <> [].

Lemma sh_split_started_aux (s : string) :
  keeps_word s /\ (forall c s', s = String c s' -> keeps_word s').
Proof.
  induction s as [|c s [IH IHtail]].
  - split; [| discriminate].
    intros mode ws. destruct mode; cbn; [intros [= <-]; discriminate | discriminate].
  - split; [| intros c' s' [= _ <-]; exact IH].
    intros mode ws. destruct mode; cbn [sh_split].
    + destruct (Ascii.eqb c squote); [apply IH |].
      destruct (Ascii.eqb c backslash).
      { destruct s as [|d s']; [discriminate |].
        destruct (Ascii.eqb d newline); [| apply push_started].
        apply (IHtail d s' eq_refl). }
      destruct (sh_blank c).
      { destruct (sh_split sh_plain false s); cbn; [intros [= <-]; discriminate | discriminate]. }
      destruct (sh_meta c); [discriminate | apply push_started].
    + destruct (Ascii.eqb c squote); [apply IH | apply push_started].
Qed.

Lemma prepend_nil (o : option (list string)) (s : string) :
  o = sh_split sh_plain true s -> prepend "" <$> o = o.
Proof.
  intros ->. destruct (sh_split sh_plain true s) as [ws|] eqn:H; [| reflexivity].
  destruct (sh_split_started_aux s) as [Hk _]. specialize (Hk sh_plain ws H).
  destruct ws; [congruence | reflexivity].
Qed.

Lemma fmap_push_prepend (c : ascii) (t : string) (o : option (list string)) :
  push c <$> (prepend t <$> o) = prepend (String c t) <$> o.
Proof. destruct o as [ws|]; cbn; [now rewrite push_prepend | reflexivity]. Qed.

(** Inside single quotes, the body [shell_quote] writes for [t],
    followed by the closing quote, adds exactly [t] to the word in
    progress. *)
Lemma sh_split_quoted_body (t : string) (rest : string) :
  sh_split sh_quoted true (regex_replace t is_squote "'\''" +:+ String squote rest)
  = prepend t <$> sh_split sh_plain true rest.
Proof.
  induction t as [|c t IH].
  - cbn. symmetry. now apply (prepend_nil _ rest).
  - cbn [regex_replace]. unfold is_squote at 1.
    destruct (Ascii.eqb_spec c squote) as [-> | Hc].
    + change (expand_format "'\''" (String squote "") +:+ regex_replace t is_squote "'\''")
        with (String squote (String backslash (String squote (String squote
                (regex_replace t is_squote "'\''"))))).
      cbn. cbn in IH. rewrite IH. apply fmap_push_prepend.
    + cbn [String.append sh_split]. apply Ascii.eqb_neq in Hc. rewrite Hc.
      rewrite IH. apply fmap_push_prepend.
Qed.

(** In an unquoted position, [shell_quote t] adds exactly [t] to the
    word in progress (and starts one when there is none). *)
Lemma sh_split_shell_quote (started : bool) (t rest : string) :
  sh_split sh_plain started (shell_quote t +:+ rest)
  = prepend t <$> sh_split sh_plain true rest.
Proof.
  unfold shell_quote.
  change (("'" +:+ regex_replace t is_squote "'\''" +:+ "'") +:+ rest)
    with (String squote ((regex_replace t is_squote "'\''" +:+ "'") +:+ rest)).
  rewrite append_assoc. cbn [sh_split]. cbn. apply sh_split_quoted_body.
Qed.

Lemma sh_split_shell_quote_end (started : bool) (t : string) :
  sh_split sh_plain started (shell_quote t) = Some [t].
Proof.
  rewrite <- (append_nil_r (shell_quote t)), sh_split_shell_quote. cbn.
  now rewrite append_nil_r.
Qed.

(** *** What [popen] is given: the command line up to its first NUL *)

Lemma occursb_app (c : ascii) (a b : string) :
  occursb c (a +:+ b) = occursb c a || occursb c b.
Proof.
  induction a as [|x a IH]; [reflexivity |].
  cbn [String.append occursb]. now rewrite IH, orb_assoc.
Qed.

Lemma occursb_shell_quote (t : string) : occursb nul (shell_quote t) = occursb nul t.
Proof.
  unfold shell_quote. rewrite !occursb_app. cbn [occursb orb].
  change (Ascii.eqb nul "'"%char) with false. cbn [orb]. rewrite orb_false_r.
  induction t as [|c t IH]; [reflexivity |].
  cbn [regex_replace occursb]. rewrite occursb_app, IH. unfold is_squote.
  destruct (Ascii.eqb_spec c squote) as [-> | Hc]; [reflexivity |].
  cbn [occursb]. now rewrite orb_false_r.
Qed.

Lemma c_str_app (a b : string) :
  occursb nul a = false -> c_str (a +:+ b) = a +:+ c_str b.
Proof.
  induction a as [|x a IH]; [reflexivity |].
  cbn [occursb String.append c_str]. intros H. apply orb_false_elim in H as [Hx Ha].
  rewrite Ascii.eqb_sym, Hx. now rewrite IH.
Qed.

Lemma c_str_cut (a b : string) :
  occursb nul a = false -> c_str (a +:+ String nul b) = a.
Proof.
  intros H. rewrite (c_str_app a _ H). cbn. apply append_nil_r.
Qed.

Lemma c_str_id (a : string) : occursb nul a = false -> c_str a = a.
Proof.
  intros H. rewrite <- (append_nil_r a) at 1. rewrite (c_str_app a "" H).
  cbn. apply append_nil_r.
Qed.

(** A quoted text without NUL reaches the shell whole, as a part of one
    word. *)
Lemma sh_split_c_str_shell_quote (started : bool) (t rest : string) :
  occursb nul t = false ->
  sh_split sh_plain started (c_str (shell_quote t +:+ rest))
  = prepend t <$> sh_split sh_plain true (c_str rest).
Proof.
  intros H. rewrite c_str_app by now rewrite occursb_shell_quote.
  apply sh_split_shell_quote.
Qed.

Lemma sh_split_c_str_shell_quote_end (started : bool) (t : string) :
  occursb nul t = false ->
  sh_split sh_plain started (c_str (shell_quote t)) = Some [t].
Proof.
  intros H. rewrite c_str_id by now rewrite occursb_shell_quote.
  apply sh_split_shell_quote_end.
Qed.

(** A quoted text that holds a NUL leaves its quote open: the command
    line stops at the NUL. *)
Lemma sh_split_quoted_body_cut (t : string) (rest : string) :
  occursb nul t = true ->
  sh_split sh_quoted true (c_str (regex_replace t is_squote "'\''" +:+ rest)) = None.
Proof.
  induction t as [|c t IH]; [discriminate |].
  cbn [occursb regex_replace]. unfold is_squote at 1.
  destruct (Ascii.eqb_spec c squote) as [-> | Hc].
  - cbn [orb]. change (Ascii.eqb nul squote) with false. cbn [orb]. intros H.
    change (expand_format "'\''" (String squote "") +:+ regex_replace t is_squote "'\''")
      with (String squote (String backslash (String squote (String squote
              (regex_replace t is_squote "'\''"))))).
    cbn. cbn in IH. now rewrite (IH H).
  - destruct (Ascii.eqb_spec nul c) as [<- | Hn]; [reflexivity |].
    cbn [orb]. intros H. cbn [String.append c_str].
    assert (Ascii.eqb c nul = false) as -> by (apply Ascii.eqb_neq; congruence).
    cbn [sh_split]. apply Ascii.eqb_neq in Hc. rewrite Hc.
    now rewrite (IH H).
Qed.

Lemma sh_split_c_str_shell_quote_cut (started : bool) (t rest : string) :
  occursb nul t = true ->
  sh_split sh_plain started (c_str (shell_quote t +:+ rest)) = None.
Proof.
  intros H. unfold shell_quote.
  change (("'" +:+ regex_replace t is_squote "'\''" +:+ "'") +:+ rest)
    with (String squote ((regex_replace t is_squote "'\''" +:+ "'") +:+ rest)).
  rewrite append_assoc. cbn. now apply sh_split_quoted_body_cut.
Qed.

Lemma sh_split_c_str_shell_quote_end_cut (started : bool) (t : string) :
  occursb nul t = true ->
  sh_split sh_plain started (c_str (shell_quote t)) = None.
Proof.
  intros H. rewrite <- (append_nil_r (shell_quote t)).
  now apply sh_split_c_str_shell_quote_cut.
Qed.

End ShellFacts.

(** ** The arguments the helper programs are given *)

Module Argv.
Import OS Static Dialog Variants Str StrFacts Interp Shell ShellFacts VariantFacts.

(** The arguments of a notification, for a helper of the zenity family
    and for kdialog. *)
Definition zenity_notify_argv (helper title message : string) (i : icon) : list string :=
  [ helper; "--notification"; "--window-icon"; get_icon_name (notify_icon i);
    "--text"; title +:+ String newline message ].

Definition kdialog_notify_argv (title message : string) (i : icon) : list string :=
  [ "kdialog"; "--icon"; get_icon_name (notify_icon i); "--title"; title;
    "--passivepopup"; message; "5" ].

(** Reading a command line word by word: the literal parts compute, the
    quoted parts are handled by the lemmas on [shell_quote]. *)
Ltac read_words :=
  unfold sh_words;
  repeat first
    [ progress cbn -[shell_quote]
    | rewrite sh_split_c_str_shell_quote by assumption
    | rewrite sh_split_c_str_shell_quote_end by assumption ];
  rewrite ?append_nil_r; reflexivity.

(** The cases of [desktop_helper], with the flags rewritten. *)
Ltac helper_cases w :=
  let Hz := fresh "Hz" in
  let Hk := fresh "Hk" in
  let Hh := fresh "Hh" in
  destruct (desktop_helper_cases w) as [[Hz Hh] | [(Hz & Hk & Hh) | (Hz & Hk & Hh)]];
  [ rewrite Hz; cbn in Hh; destruct Hh as [Hh | [Hh | [Hh | []]]]; rewrite <- Hh
  | rewrite Hz, Hk, Hh
  | rewrite Hz, Hk, Hh ].

(** X12. What the shell runs for a notification whose title and message
    hold no NUL: with a helper of the zenity family, the title and the
    message joined by a newline are one single argument after [--text];
    with kdialog, the title and the message are one argument each; the
    icon name is never [question]; without helper the command is [echo]
    alone. Quotes, blanks and shell operators in the texts stay inside
    their argument. *)
Theorem notify_argv (w : world) (title message : string) (i : icon) :
  occursb nul title = false -> occursb nul message = false ->
  sh_words (c_str (notify_command w title message i))
  = Some (if is_zenity w then zenity_notify_argv (desktop_helper w) title message i
          else if is_kdialog w then kdialog_notify_argv title message i
          else ["echo"]).
Proof.
  intros Ht Hm.
  assert (occursb nul (title +:+ String newline "" +:+ message) = false) as Htm.
  { rewrite !occursb_app, Ht, Hm. reflexivity. }
  unfold notify_command, zenity_notify_argv, kdialog_notify_argv.
  helper_cases w; destruct i; read_words.
Qed.

(** The arguments of a message box, for a helper of the zenity family
    and for kdialog. *)
Definition zenity_message_argv (helper title text : string) (b : buttons) (i : icon)
  : list string :=
  helper
  :: match b with
     | ok_cancel => ["--question"; "--ok-label=OK"; "--cancel-label=Cancel"]
     | yes_no => ["--question"]
     | yes_no_cancel => ["--list"; "--column"; ""; "--hide-header"; "Yes"; "No"]
     | ok =>
         [ match i with
           | error => "--error"
           | warning => "--warning"
           | _ => "--info"
           end ]
     end
  ++ [ "--title"; title; "--width"; "300"; "--height"; "0"; "--text"; text;
       "--icon-name=dialog-" +:+ get_icon_name i ].

Definition kdialog_message_argv (title text : string) (b : buttons) (i : icon)
  : list string :=
  [ "kdialog";
    match b with
    | ok =>
        match i with
        | error => "--error"
        | warning => "--sorry"
        | _ => "--msgbox"
        end
    | _ =>
        "--" +:+ (match i with warning | error => "warning" | _ => "" end)
        +:+ "yesno" +:+ (match b with yes_no_cancel => "cancel" | _ => "" end)
    end;
    text; "--title"; title ]
  ++ match b with
     | ok_cancel => ["--yes-label"; "OK"; "--no-label"; "Cancel"]
     | _ => []
     end.

(** X13. What the shell runs for a message box whose title and text
    hold no NUL, for every set of buttons and every icon: the title and
    the text are one argument each, whatever they contain, and the options
    are those of [zenity_message_argv] with a helper of the zenity family
    (where the icon chooses the kind of dialog only with the single OK
    button, and yes/no/cancel is a list of two rows), of
    [kdialog_message_argv] with kdialog, and none without helper. *)
Theorem message_argv (w : world) (title text : string) (b : buttons) (i : icon) :
  occursb nul title = false -> occursb nul text = false ->
  sh_words (c_str (message_command w title text b i))
  = Some (if is_zenity w then zenity_message_argv (desktop_helper w) title text b i
          else if is_kdialog w then kdialog_message_argv title text b i
          else ["echo"]).
Proof.
  intros Ht Hx.
  unfold message_command, zenity_message_argv, kdialog_message_argv.
  helper_cases w; destruct b, i; cbn [buttons_eqb icon_eqb orb];
    rewrite ?append_assoc; read_words.
Qed.

(** The arguments of a file dialog for a helper of the zenity family. *)
Definition zenity_file_argv (helper : string) (in_type : type)
    (title default_path filter : string) (multiselect : bool) : list string :=
  [ helper; "--file-selection"; "--filename=" +:+ default_path; "--title"; title;
    "--file-filter=" +:+ filter ]
  ++ (if multiselect then ["--multiple"] else [])
  ++ (match in_type with save => ["--save"] | _ => [] end).

(** X14. What the shell runs for a file dialog whose title, path and
    filter hold no NUL: with a helper of the zenity family, the path and
    the filter are the values of [--filename=] and [--file-filter=] and
    the title is one argument, whatever they contain, even empty;
    [--multiple] and [--save] follow when asked for, and the folder
    variant gets the arguments of the open variant (no option asks for a
    directory). Without such a helper the only word is [kdialog] or
    [echo]. *)
Theorem file_dialog_argv (w : world) (in_type : type)
    (title default_path filter : string) (multiselect : bool) :
  occursb nul title = false -> occursb nul default_path = false ->
  occursb nul filter = false ->
  sh_words (c_str (file_dialog_command w in_type title default_path filter multiselect))
  = Some (if is_zenity w
          then zenity_file_argv (desktop_helper w) in_type title default_path filter
                                multiselect
          else if is_kdialog w then ["kdialog"] else ["echo"])
  /\ zenity_file_argv (desktop_helper w) folder title default_path filter multiselect
     = zenity_file_argv (desktop_helper w) open title default_path filter multiselect.
Proof.
  intros Ht Hp Hf. split; [| reflexivity].
  unfold file_dialog_command, zenity_file_argv.
  helper_cases w; destruct in_type, multiselect; cbn [type_eqb];
    rewrite ?append_assoc; read_words.
Qed.

(** X15. A NUL in the title cuts the command line inside a quote: with
    a helper in use, the command [popen] is given for a message box whose
    title holds a NUL is not a list of words any more (the shell meets the
    end of the line inside single quotes), whatever the text, the buttons
    and the icon. *)
Theorem message_title_nul_breaks_command (w : world) (title text : string)
    (b : buttons) (i : icon) :
  occursb nul title = true -> is_zenity w || is_kdialog w = true ->
  sh_words (c_str (message_command w title text b i)) = None.
Proof.
  intros Ht Hhelper. unfold message_command.
  assert (desktop_helper w <> "echo") as Hecho.
  { destruct (desktop_helper_cases w) as [[_ Hh] | [(_ & _ & ->) | (Hz & Hk & _)]].
    - cbn in Hh. destruct Hh as [<- | [<- | [<- | []]]]; discriminate.
    - discriminate.
    - rewrite Hz, Hk in Hhelper. discriminate. }
  destruct (occursb nul text) eqn:Hx;
    helper_cases w; try congruence;
    destruct b, i; cbn [buttons_eqb icon_eqb orb]; rewrite ?append_assoc;
    unfold sh_words;
    repeat first
      [ progress cbn -[shell_quote]
      | rewrite sh_split_c_str_shell_quote_cut by assumption
      | rewrite sh_split_c_str_shell_quote_end_cut by assumption
      | rewrite sh_split_c_str_shell_quote by assumption ];
    reflexivity.
Qed.

(** X16. [shell_quote] makes one word of any text without NUL. Given
    to [popen] (as a C string) alone on a command line, the quoted text
    is read by the shell as the single word [s]; in any unquoted position
    of a command line it adds exactly [s] to the word in progress and
    leaves the rest of the line to be read as before: no character of [s]
    can end the word, start another command or be expanded. (With a NUL
    in [s] the line ends inside the quotes and is no list of words.) *)
Theorem shell_quote_is_one_word (s : string) :
  occursb nul s = false ->
  sh_words (c_str (shell_quote s)) = Some [s]
  /\ sh_literal (c_str (shell_quote s)) = Some s
  /\ (forall started rest,
        sh_split sh_plain started (c_str (shell_quote s +:+ rest))
        = prepend s <$> sh_split sh_plain true (c_str rest)).
Proof.
  intros Hs.
  assert (c_str (shell_quote s) = shell_quote s) as Hc
    by (apply c_str_id; now rewrite occursb_shell_quote).
  rewrite Hc.
  split; [apply sh_split_shell_quote_end |].
  split; [unfold sh_literal, shell_quote; cbn; apply QuoteFacts.shell_quote_body |].
  intros started rest. now apply sh_split_c_str_shell_quote.
Qed.

End Argv.

(** ** Dialogs from construction to readiness *)

Module Readiness.
Import OS Static Executor ReadyFacts LifeCycle Dialog DetectionFacts Variants Drain.

(** The answers of [n] calls of [ready] in a row. *)
Fixpoint ready_answers (n : nat) (e : executor) (w : world) : list bool :=
  match n with
  | O => []
  | S n' => let '(w1, e1, r) := Executor.ready e w in r :: ready_answers n' e1 w1
  end.

Lemma ready_answers_done (n : nat) (e : executor) (w : world) :
  m_state e <> running ->
  ready_answers n e w = replicate n true /\ ready_times n e w = (w, e).
Proof.
  intros Hs. induction n as [|n [IH1 IH2]]; [now split |].
  cbn [ready_answers ready_times replicate]. rewrite (ready_not_running e w Hs).
  now rewrite IH1, IH2.
Qed.

(** X18. Polling a running executor whose child does not hang: [ready]
    answers false once for every outcome of [read] that leaves the stream
    open (data, or no data yet), then true at the end of the stream, and
    true ever after without any further system call; at that point the
    state is [finished] and the accumulated output is what was there
    before followed by the chunks read, each cut at its first NUL: all
    the bytes the child wrote when no chunk holds a NUL and no read
    failed with another error than [EAGAIN]. *)
Theorem polling_becomes_ready (outcomes : list read_outcome) :
  forall (extra : nat) (e : executor) (w : world) (h : handle) (c : child),
  m_state e = running -> m_fd e = fileno h -> procs w !! h = Some c ->
  pending c = outcomes -> hangs c = false ->
  ready_answers (polls outcomes + extra) e w
  = replicate (polls outcomes - 1) false ++ replicate (S extra) true
  /\ m_state (ready_times (polls outcomes + extra) e w).2 = finished
  /\ m_result (ready_times (polls outcomes + extra) e w).2
     = m_result e +:+ drained outcomes
  /\ trace (ready_times (polls outcomes + extra) e w).1
     = trace (ready_times (polls outcomes) e w).1
  /\ (forallb lossless outcomes = true ->
      m_result (ready_times (polls outcomes + extra) e w).2
      = m_result e +:+ bytes outcomes).
Proof.
  assert (forall (extra : nat) (e : executor) (w : world) (h : handle) (c : child),
    m_state e = running -> m_fd e = fileno h -> procs w !! h = Some c ->
    pending c = outcomes -> hangs c = false ->
    ready_answers (polls outcomes + extra) e w
    = replicate (polls outcomes - 1) false ++ replicate (S extra) true
    /\ m_state (ready_times (polls outcomes + extra) e w).2 = finished
    /\ m_result (ready_times (polls outcomes + extra) e w).2
       = m_result e +:+ drained outcomes
    /\ trace (ready_times (polls outcomes + extra) e w).1
       = trace (ready_times (polls outcomes) e w).1) as Hmain.
  { induction outcomes as [|r rest IH]; intros extra e w h c Hrun Hfd Hc Hp Hh.
    - cbn [polls Nat.add Nat.sub ready_answers ready_times replicate app drained].
      rewrite (ready_eof e w h c Hrun Hfd Hc Hp Hh).
      destruct (ready_answers_done extra (set_state finished e)
                  (log (ev_read (m_fd e) read_eof) w)) as [-> ->]; [discriminate |].
      cbn. now rewrite StrFacts.append_nil_r.
    - cbn [polls drained].
      destruct (ends_polling_after r e Hrun) as (Hs & Hres & _ & Hfd' & _).
      destruct (ends_polling r) eqn:Hend.
      + cbn [Nat.add Nat.sub ready_answers ready_times replicate app].
        rewrite (ready_head e w h c r rest Hrun Hfd Hc Hp). rewrite Hend.
        destruct (ready_answers_done extra (after_poll r e)
                    (log (ev_read (m_fd e) r)
                       (with_procs (<[h := Child rest (hangs c) (wait_status c)]> (procs w))
                                   w)))
          as [-> ->]; [congruence |].
        cbn. rewrite Hs, Hres. unfold piece. now rewrite Hend.
      + cbn [Nat.add ready_answers ready_times].
        rewrite (ready_head e w h c r rest Hrun Hfd Hc Hp). rewrite Hend.
        set (w' := log _ _).
        destruct (IH extra (after_poll r e) w' h (Child rest (hangs c) (wait_status c)))
          as (Hans & Hst & Hresult & Htr); try assumption; try reflexivity.
        * congruence.
        * unfold w'. cbn. apply lookup_insert_eq.
        * rewrite Hans, Hst, Hresult, Htr, Hres.
          assert (exists k, polls rest = S k) as [k Hk]
            by (destruct rest as [|r' rest']; cbn; [| destruct (ends_polling r')]; eauto).
          rewrite Hk. cbn [Nat.sub replicate app]. rewrite Nat.sub_0_r.
          repeat split. apply StrFacts.append_assoc. }
  intros extra e w h c Hrun Hfd Hc Hp Hh.
  destruct (Hmain extra e w h c Hrun Hfd Hc Hp Hh) as (Hans & Hst & Hres & Htr).
  split; [exact Hans |]. split; [exact Hst |]. split; [exact Hres |].
  split; [exact Htr |].
  intros Hclean. now rewrite Hres, (drained_lossless outcomes Hclean).
Qed.

(** A constructor that only launches its command: it returns the same
    dialog with every bound on the polls, its single system call is the
    [popen] of the command, and the executor of the dialog is running on
    the new stream, or idle (and so ready at once) when the launch
    failed. *)
Definition launches_only (constructor : nat -> option (world * dialog))
    (w : world) (command : string) : Prop :=
  exists w2 d,
    (forall fuel, constructor fuel = Some (w2, d))
    /\ trace w2 = trace w ++ [ev_popen (Str.c_str command) (m_stream (m_async d))]
    /\ m_result (m_async d) = "" /\ m_exit_code (m_async d) = -1
    /\ match spawn w (Str.c_str command) with
       | Some c =>
           m_state (m_async d) = running
           /\ m_stream (m_async d) = Some (next_stream w)
           /\ procs w2 = <[next_stream w := c]> (procs w)
       | None =>
           m_state (m_async d) = idle /\ procs w2 = procs w
           /\ Dialog.ready d w2 = (w2, d, true)
       end.

Lemma start_launches_only (command : string) (w : world) :
  launches_only
    (fun fuel =>
       '(w2, e) ← Executor.start fuel command default w; Some (w2, Dialog.Build e))
    w command.
Proof.
  unfold launches_only, Executor.start.
  pose proof (launch_effect command default w) as Hl.
  destruct (launch command default w) as [w2 e2] eqn:Hlaunch.
  destruct Hl as (Htr & Hres & Hcode & _ & Hsp).
  exists w2, (Dialog.Build e2). split.
  { intros fuel. rewrite (stop_idle fuel default w eq_refl). cbn. now rewrite Hlaunch. }
  split; [exact Htr |]. split; [exact Hres |]. split; [exact Hcode |].
  destruct (spawn w (Str.c_str command)) as [c|].
  - destruct Hsp as (Hrun & Hstream & _ & Hp & _). now repeat split.
  - destruct Hsp as (Hs & _ & Hp & _). cbn in Hs. repeat split; try assumption.
    unfold Dialog.ready. cbn [m_async]. rewrite ready_not_running by congruence.
    reflexivity.
Qed.

(** X19. Once the helpers have been scanned, constructing a message
    box, a notification or a file dialog never waits: whatever the bound
    on the polls, the constructor returns after a single system call, the
    [popen] of its command, with an empty output and the exit code -1;
    the dialog is running on the new stream, or, when the launch failed,
    idle and ready at once. *)
Theorem construction_only_launches (w : world) :
  analysed w = true ->
  (forall title text b i,
      launches_only (fun fuel => message fuel title text b i w) w
                    (message_command w title text b i))
  /\ (forall title text i,
        launches_only (fun fuel => notify fuel title text i w) w
                      (notify_command w title text i))
  /\ (forall in_type title default_path filter multiselect,
        launches_only
          (fun fuel => file_dialog fuel in_type title default_path filter multiselect w) w
          (file_dialog_command w in_type title default_path filter multiselect)).
Proof.
  intros Han. repeat split; intros.
  - destruct (start_launches_only (message_command w title text b i) w)
      as (w2 & d & Hc & H).
    exists w2, d. split; [| exact H]. intros fuel. unfold message.
    rewrite (construct_cached fuel w Han). exact (Hc fuel).
  - destruct (start_launches_only (notify_command w title text i) w)
      as (w2 & d & Hc & H).
    exists w2, d. split; [| exact H]. intros fuel. unfold notify.
    rewrite (construct_cached fuel w Han). exact (Hc fuel).
  - destruct (start_launches_only
                (file_dialog_command w in_type title default_path filter multiselect) w)
      as (w2 & d & Hc & H).
    exists w2, d. split; [| exact H]. intros fuel. unfold file_dialog.
    rewrite (construct_cached fuel w Han). exact (Hc fuel).
Qed.

End Readiness.

(** ** The further properties on concrete worlds *)

Module ExtraExamples.
Import OS Static Executor ReadyFacts LifeCycle Dialog ExecuteFacts DetectionFacts Variants.
Import Str Interp Shell Drain Run Argv Readiness ExecutorExamples VariantExamples.

(** A child that writes [hel], pauses, writes [lo] and a newline, and
    exits with status 0; the running executor in charge of its stream. *)
Definition hello_child : child :=
  Child [read_data "hel"; read_fail EAGAIN; read_data ("lo" +:+ String newline "")] false 0.

Definition hello_world : world :=
  World {[ 0%nat := hello_child ]} 1 no_launch [] zeroed true.

Lemma owns_hello : owns nul_executor hello_world ∅.
Proof. exists 0%nat, hello_child. repeat split. Defined.

Lemma fresh_hello : fresh hello_world.
Proof. unfold fresh. cbn. apply map_Forall_singleton. lia. Defined.

Lemma exits_within_hello : exits_within 5 nul_executor hello_world.
Proof.
  split; [lia |]. intros _. exists 0%nat, hello_child. repeat split. cbn. lia.
Defined.

Lemma result_returns_all_output_witness :
  owns nul_executor hello_world ∅ /\ m_state nul_executor = running
  /\ m_stream nul_executor = Some 0%nat /\ procs hello_world !! 0%nat = Some hello_child
  /\ hangs hello_child = false /\ (polls (pending hello_child) <= 4)%nat
  /\ exists w1 e1,
       result 4 (Some 7) nul_executor hello_world
       = Some (w1, e1, "hello" +:+ String newline "", Some 0)
       /\ trace w1
          = [ ev_read 0 (read_data "hel"); ev_sleep 200;
              ev_read 0 (read_fail EAGAIN); ev_sleep 200;
              ev_read 0 (read_data ("lo" +:+ String newline "")); ev_sleep 200;
              ev_read 0 read_eof; ev_pclose (Some 0%nat) 0 ].
Proof.
  assert (polls (pending hello_child) <= 4)%nat as Hpolls by (vm_compute; lia).
  repeat (split; [first [exact owns_hello | reflexivity | exact Hpolls] |]).
  destruct (result_returns_all_output 4 7 nul_executor hello_world ∅ 0%nat hello_child
              owns_hello eq_refl eq_refl eq_refl eq_refl Hpolls)
    as (w1 & e1 & Hres & _ & _ & Htr & _).
  exists w1, e1. split; [exact Hres | exact Htr].
Defined.

(** A child whose pipe fails with [EINTR] (4) after its first chunk. *)
Definition interrupted_child : child :=
  Child [read_data "par"; read_fail 4; read_data "tial"] false 0.

Definition interrupted_world : world :=
  World {[ 0%nat := interrupted_child ]} 1 no_launch [] zeroed true.

Lemma owns_interrupted : owns nul_executor interrupted_world ∅.
Proof. exists 0%nat, interrupted_child. repeat split. Defined.

Lemma result_stops_at_read_error_witness :
  owns nul_executor interrupted_world ∅
  /\ pending interrupted_child = [read_data "par"] ++ read_fail 4 :: [read_data "tial"]
  /\ 4 <> EAGAIN
  /\ exists w1 e1,
       result 2 (Some 7) nul_executor interrupted_world = Some (w1, e1, "par", Some 0).
Proof.
  assert (4 <> EAGAIN) as Herr by discriminate.
  assert (Forall (fun r => ends_polling r = false) [read_data "par"]) as Hpre
    by (repeat constructor).
  split; [exact owns_interrupted |]. split; [reflexivity |]. split; [exact Herr |].
  destruct (result_stops_at_read_error 2 7 nul_executor interrupted_world ∅ 0%nat
              interrupted_child [read_data "par"] [read_data "tial"] 4
              owns_interrupted eq_refl eq_refl eq_refl eq_refl eq_refl
              Hpre Herr (le_n 2))
    as (w1 & e1 & Hres & _).
  exists w1, e1. exact Hres.
Defined.

(** A child that writes one character and then keeps its output open
    for ever. *)
Definition hung_child : child := Child [read_data "x"] true 0.

Definition hung_world : world :=
  World {[ 0%nat := hung_child ]} 1 no_launch [] zeroed true.

Lemma hung_child_blocks_witness :
  m_state nul_executor = running /\ procs hung_world !! 0%nat = Some hung_child
  /\ hangs hung_child = true
  /\ result 1000 (Some 7) nul_executor hung_world = None
  /\ start 1000 "zenity" nul_executor hung_world = None.
Proof.
  assert (Forall (fun r => ends_polling r = false) (pending hung_child)) as Hall
    by (repeat constructor).
  split; [reflexivity |]. split; [reflexivity |]. split; [reflexivity |].
  destruct (hung_child_blocks 1000 "zenity" (Some 7) nul_executor hung_world 0%nat hung_child
              eq_refl eq_refl eq_refl eq_refl Hall)
    as (_ & Hres & Hstart & _).
  split; [exact Hres | exact Hstart].
Defined.

Lemma destructor_releases_witness :
  owns nul_executor hello_world ∅ /\ fresh hello_world
  /\ exits_within 5 nul_executor hello_world
  /\ exists w1, Executor.destroy 5 nul_executor hello_world = Some w1 /\ procs w1 = ∅.
Proof.
  split; [exact owns_hello |]. split; [exact fresh_hello |].
  split; [exact exits_within_hello |].
  destruct (destructor_releases 5 nul_executor hello_world ∅
              owns_hello fresh_hello exits_within_hello) as (w1 & Hd & Hp & _).
  exists w1. split; [exact Hd | exact Hp].
Defined.

Lemma run_exits_echo_hello : run_exits 2 (spawn (quiet_world echo_hello)) "echo hello".
Proof.
  intros c Hc. vm_compute in Hc. injection Hc as <-. split; [reflexivity | vm_compute; lia].
Defined.

Lemma execute_returns_output_witness :
  fresh (quiet_world echo_hello)
  /\ run_exits 2 (spawn (quiet_world echo_hello)) "echo hello"
  /\ exists w3,
       execute 2 "echo hello" (Some (-1)) (quiet_world echo_hello)
       = Some (w3, "hello" +:+ String newline "", Some 0)
       /\ procs w3 = ∅.
Proof.
  split; [exact (fresh_quiet_world echo_hello) |].
  split; [exact run_exits_echo_hello |].
  destruct (execute_returns_output 2 "echo hello" (-1) (quiet_world echo_hello)
              (fresh_quiet_world echo_hello) run_exits_echo_hello)
    as (w3 & out & code & Hexec & Hp & Hm).
  cbn in Hm. destruct Hm as (-> & -> & _).
  exists w3. split; [exact Hexec | exact Hp].
Defined.

Lemma verbose_only_logs_witness :
  fresh (quiet_world echo_hello)
  /\ run_exits 2 (spawn (quiet_world echo_hello)) "echo hello"
  /\ exists wq wv out code,
       execute 2 "echo hello" (Some (-1))
               (set_flags is_verbose false (quiet_world echo_hello)) = Some (wq, out, code)
       /\ execute 2 "echo hello" (Some (-1))
                  (set_flags is_verbose true (quiet_world echo_hello)) = Some (wv, out, code)
       /\ trace wv = ev_cerr "pfd: echo hello" :: trace wq.
Proof.
  split; [exact (fresh_quiet_world echo_hello) |].
  split; [exact run_exits_echo_hello |].
  destruct (verbose_only_logs 2 "echo hello" (-1) (quiet_world echo_hello)
              (fresh_quiet_world echo_hello) run_exits_echo_hello)
    as (wq & wv & out & code & calls & Hq & Hv & Htq & Htv & _).
  exists wq, wv, out, code. split; [exact Hq |]. split; [exact Hv |].
  rewrite Htv, Htq. reflexivity.
Defined.

Lemma fresh_unscanned : fresh (unscanned which_kdialog).
Proof. unfold fresh. cbn. apply map_Forall_empty. Defined.

Lemma scan_exits_which_kdialog : scan_exits 2 (spawn (unscanned which_kdialog)).
Proof.
  intros command Hin. cbn in Hin.
  destruct Hin as [<- | [<- | [<- | [<- | []]]]];
    intros c Hc; vm_compute in Hc; injection Hc as <-; (split; [reflexivity | vm_compute; lia]).
Defined.

Lemma scan_probes_in_order_witness :
  fresh (unscanned which_kdialog) /\ scan_exits 2 (spawn (unscanned which_kdialog))
  /\ false || negb (analysed (unscanned which_kdialog)) = true
  /\ exists w1 calls,
       Dialog.construct 2 false (unscanned which_kdialog)
       = Some (w1, Dialog.Build Executor.default)
       /\ trace w1 = calls
       /\ launched calls
          = [ "which zenity 2>/dev/null"; "which matedialog 2>/dev/null";
              "which qarma 2>/dev/null"; "which kdialog 2>/dev/null" ]
       /\ logged calls = [].
Proof.
  split; [exact fresh_unscanned |]. split; [exact scan_exits_which_kdialog |].
  split; [reflexivity |].
  destruct (scan_probes_in_order 2 false (unscanned which_kdialog)
              fresh_unscanned scan_exits_which_kdialog eq_refl)
    as (w1 & calls & Hc & Htr & _ & Hl & Hg & _).
  exists w1, calls. split; [exact Hc |]. split; [exact Htr |].
  split; [exact Hl | exact Hg].
Defined.

Lemma rescan_probes_again_witness :
  fresh (scanned only_zenity) /\ scan_exits 1 (spawn (scanned only_zenity))
  /\ exists w1,
       rescan 1 (scanned only_zenity) = Some w1
       /\ flags has_zenity w1 = true /\ flags has_kdialog w1 = true.
Proof.
  assert (fresh (scanned only_zenity)) as Hf
    by (unfold fresh; cbn; apply map_Forall_empty).
  assert (scan_exits 1 (spawn (scanned only_zenity))) as Hex.
  { intros command _ c Hc. cbn in Hc. injection Hc as <-. split; [reflexivity | vm_compute; lia]. }
  split; [exact Hf |]. split; [exact Hex |].
  destruct (rescan_probes_again 1 (scanned only_zenity) Hf Hex)
    as (w1 & calls & Hr & _ & _ & _ & _ & _ & Hflags).
  exists w1. split; [exact Hr |]. split.
  - rewrite (Hflags has_zenity "zenity"); [reflexivity | cbn; tauto].
  - rewrite (Hflags has_kdialog "kdialog"); [reflexivity | cbn; tauto].
Defined.

Lemma verbose_sets_flag_after_scan_witness :
  fresh (unscanned which_kdialog) /\ scan_exits 2 (spawn (unscanned which_kdialog))
  /\ exists w1 calls,
       verbose 2 true (unscanned which_kdialog) = Some w1
       /\ flags is_verbose w1 = true /\ trace w1 = calls /\ logged calls = [].
Proof.
  split; [exact fresh_unscanned |]. split; [exact scan_exits_which_kdialog |].
  destruct (verbose_sets_flag_after_scan 2 true (unscanned which_kdialog)
              fresh_unscanned scan_exits_which_kdialog) as [_ H].
  destruct (H eq_refl) as (w1 & calls & Hv & Hflag & _ & Htr & _ & Hlog).
  exists w1, calls. split; [exact Hv |]. split; [exact Hflag |].
  split; [exact Htr | exact (Hlog eq_refl)].
Defined.

(** The process after its first construction of a dialog, where only
    kdialog is installed. *)
Definition after_scan : world :=
  match Dialog.construct 2 false (unscanned which_kdialog) with
  | Some (w1, _) => w1
  | None => unscanned which_kdialog
  end.

Lemma construct_scans_once_witness :
  Dialog.construct 2 false (unscanned which_kdialog)
  = Some (after_scan, Dialog.Build Executor.default)
  /\ analysed after_scan = true
  /\ forall fuel,
       Dialog.construct fuel false after_scan
       = Some (after_scan, Dialog.Build Executor.default).
Proof.
  assert (Dialog.construct 2 false (unscanned which_kdialog)
          = Some (after_scan, Dialog.Build Executor.default)) as Hc
    by (vm_compute; reflexivity).
  split; [exact Hc |].
  destruct (construct_scans_once 2 false (unscanned which_kdialog) after_scan
              (Dialog.Build Executor.default) Hc) as (Han & _ & Hagain & _).
  split; [exact Han | exact Hagain].
Defined.

Lemma notify_argv_witness :
  occursb nul "Don't" = false /\ occursb nul "stop; rm -rf $HOME" = false
  /\ sh_words (c_str (notify_command (scanned only_zenity) "Don't" "stop; rm -rf $HOME"
                                     question))
     = Some [ "zenity"; "--notification"; "--window-icon"; "information"; "--text";
              "Don't" +:+ String newline "stop; rm -rf $HOME" ].
Proof.
  split; [reflexivity |]. split; [reflexivity |].
  exact (notify_argv (scanned only_zenity) "Don't" "stop; rm -rf $HOME" question
           eq_refl eq_refl).
Defined.

Lemma message_argv_witness :
  occursb nul "Quit?" = false /\ occursb nul "Save 'draft' & quit" = false
  /\ sh_words (c_str (message_command (scanned only_kdialog) "Quit?" "Save 'draft' & quit"
                                      yes_no_cancel warning))
     = Some [ "kdialog"; "--warningyesnocancel"; "Save 'draft' & quit"; "--title"; "Quit?" ].
Proof.
  split; [reflexivity |]. split; [reflexivity |].
  exact (message_argv (scanned only_kdialog) "Quit?" "Save 'draft' & quit"
           yes_no_cancel warning eq_refl eq_refl).
Defined.

Lemma file_dialog_argv_witness :
  occursb nul "Save as" = false /\ occursb nul "/tmp/my file" = false
  /\ occursb nul "*.txt *.md" = false
  /\ sh_words (c_str (file_dialog_command (scanned only_zenity) save "Save as"
                                          "/tmp/my file" "*.txt *.md" false))
     = Some [ "zenity"; "--file-selection"; "--filename=/tmp/my file"; "--title";
              "Save as"; "--file-filter=*.txt *.md"; "--save" ].
Proof.
  split; [reflexivity |]. split; [reflexivity |]. split; [reflexivity |].
  exact (proj1 (file_dialog_argv (scanned only_zenity) save "Save as" "/tmp/my file"
                  "*.txt *.md" false eq_refl eq_refl eq_refl)).
Defined.

Lemma shell_quote_is_one_word_witness :
  occursb nul "it's; rm -rf $HOME" = false
  /\ sh_words (c_str (shell_quote "it's; rm -rf $HOME")) = Some ["it's; rm -rf $HOME"]
  /\ sh_split sh_plain true (c_str (shell_quote "it's; rm -rf $HOME" +:+ " --info"))
     = Some ["it's; rm -rf $HOME"; "--info"].
Proof.
  split; [reflexivity |].
  destruct (shell_quote_is_one_word "it's; rm -rf $HOME" eq_refl) as (Hone & _ & Hin).
  split; [exact Hone | exact (Hin true " --info")].
Defined.

(** A title with a NUL between two letters. *)
Definition nul_title : string := String "a" (String nul "b").

Lemma message_title_nul_breaks_command_witness :
  occursb nul nul_title = true
  /\ is_zenity (scanned only_zenity) || is_kdialog (scanned only_zenity) = true
  /\ sh_words (c_str (message_command (scanned only_zenity) nul_title "text" ok info))
     = None.
Proof.
  split; [reflexivity |]. split; [reflexivity |].
  exact (message_title_nul_breaks_command (scanned only_zenity) nul_title "text" ok info
           eq_refl eq_refl).
Defined.

Lemma polling_becomes_ready_witness :
  m_state nul_executor = running /\ m_fd nul_executor = fileno 0
  /\ procs hello_world !! 0%nat = Some hello_child /\ hangs hello_child = false
  /\ ready_answers 6 nul_executor hello_world = [false; false; false; true; true; true]
  /\ m_result (ready_times 6 nul_executor hello_world).2 = "hello" +:+ String newline "".
Proof.
  split; [reflexivity |]. split; [reflexivity |]. split; [reflexivity |].
  split; [reflexivity |].
  destruct (polling_becomes_ready (pending hello_child) 2 nul_executor hello_world 0%nat
              hello_child eq_refl eq_refl eq_refl eq_refl eq_refl)
    as (Hans & _ & Hres & _).
  split; [exact Hans | exact Hres].
Defined.

Lemma construction_only_launches_witness :
  analysed (scanned only_zenity) = true
  /\ launches_only (fun fuel => message fuel "Quit?" "Really?" yes_no question
                                        (scanned only_zenity))
                   (scanned only_zenity)
                   (message_command (scanned only_zenity) "Quit?" "Really?" yes_no question).
Proof.
  split; [reflexivity |].
  exact (proj1 (construction_only_launches (scanned only_zenity) eq_refl)
           "Quit?" "Really?" yes_no question).
Defined.

End ExtraExamples.
